(* ===== verification/_CoqProject ===== *)
-Q . S2P
Prelude.v
PyValue.v
Bidi.v
NetworkSchema.v
Channel.v
Intercepts.v
InterceptsInv.v
InterceptsSpec.v
SchemaTyping.v
ClearLoop.v
TestScenario.v
Registry.v
Await.v
Teardown.v
Listeners.v
