(* ===== verification/Prelude.v ===== *)
(** * A verification development of Selenium's BiDi network interception layer

    The program (src/py/selenium/webdriver/...) is the Python client side of the
    WebDriver BiDi "network" module: a caller registers request handlers, the
    client asks the browser for an interception rule ("intercept") per handler,
    a background task per event type listens for [network.beforeRequestSent]
    events, runs the handlers of every intercept named by a blocked event and
    sends [network.continueRequest] back.  The parts, and how they interact:

    - the message model (common/bidi/bidi.py): dataclass objects, their
      encoding [BidiObject.to_json], their decoding [from_json], and a command
      as the payload it yields ([BidiCommand.cmd]);
    - the protocol schema (common/bidi/network.py): the dataclasses of the
      network module and the low-level [Network] whose three methods turn a
      parameter object into a command and run it on the connection;
    - the interception manager (remote/network.py, class [Network]): the
      table [intercepts] (a [defaultdict]) from intercept id to event name and
      handlers, the table [listeners] from event name to the open event
      stream, and the operations [add_handler], [add_request_handler],
      [add_listener], [handle_events], [handle_requests], [remove_listener],
      [remove_intercept] and [clear_intercepts];
    - the connection (common/bidi/cdp.py, session.py: not under src/), reached
      through [conn.execute], [conn.listen] and the [session_subscribe] /
      [session_unsubscribe] commands; it is an interface here.

    Files, in dependency order (each opens with a note of what it holds):

    - [Prelude] (this file): Python exceptions, the exception-and-state monad
      [PyM] that keeps side effects done before a raise, Python's insertion
      ordered [dict] as an association list ([PyDict]) with its lemmas and
      hint databases, and the string helpers ([str.endswith], [str.split]).
    - [PyValue]: Python runtime values [pyval] (None, bool, int, str, list,
      dict, dataclass object), dataclass schemas whose fields carry their
      defaults and their [typing] annotations ([pytype]), the generated
      [__init__] ([dc_init]) with its argument-binding errors, and
      [has_type], what an annotation promises of a value.
    - [Bidi]: bidi.py, i.e. [to_json], [from_json], [BidiEvent.from_json] and
      [cmd]; theorems on dropped [None] fields, key normalisation and the
      round trip (and where the round trip fails).
    - [NetworkSchema]: the dataclasses and type aliases of
      common/bidi/network.py, the commands built from them, and the two
      classes of browsing_context.py that [get] uses (written from the
      protocol; that file is not under src/).
    - [Channel]: the connection as a type class [Channel] (what
      [conn.execute] promises: a reply or an exception, and a new remote
      state), the payloads of [session_subscribe] / [session_unsubscribe],
      and [RefBrowser], a reference remote end instantiating the class for
      the witnesses (fresh intercept ids, rejection of unknown ids).
    - [Intercepts]: remote/network.py, one definition per method
      ([add_listener] split into its registration [add_listener_start] and
      one loop turn [listener_iteration]; [add_handler],
      [add_request_handler], [handle_requests] with its two loops,
      [handle_events], [remove_listener], [remove_intercept],
      [clear_intercepts] with its dict iteration, [get] as [network_get],
      [disable_cache]), in the monad over a [World]: the manager's two
      tables, the connection state, the trace of sent payloads, the
      nursery's tasks, the open event streams, whether the nursery was
      cancelled, and the driver (its window handle and the DevTools
      commands sent through it).  The Section is parametric in any
      [Channel].  The session inside [set_context] is the step relation
      [step] (a caller's call, the nursery running the started tasks, one
      event on a listening loop, a stream closing) and [reachable].
    - [InterceptsInv]: the registry invariant [Inv] (dicts well formed; a
      listener exactly for each event with a live rule, up to tasks not yet
      started; the open streams are the listeners' streams) and its
      preservation by every operation (hint database [inv_db]), hence by
      rule induction on [step]: theorems C1, C5, C14, and the progress
      theorem C25.
    - [InterceptsSpec]: reference specifications ([pipeline]: the handlers an
      event runs; [lookup_all]: the table after [defaultdict] lookups;
      [clear_outcome]; [session_over]) and each operation's behaviour on
      every branch, errors included: C2-C4, C6-C11, C16, C17, C26, C35,
      C36.  The frame lemmas of [conn.execute] and of the nursery's
      checkpoint are shared by the files after it.
    - [SchemaTyping]: the annotations against the values the code builds
      and decodes (C18-C20).
    - [ClearLoop]: CPython's semantics of the [for] loop of
      [clear_intercepts] as a relation without fuel, the adequacy of the
      fuelled model ([clear_loop_adequate]) and the bound on what one call
      removes (C21).
    - [TestScenario]: [get] (C22) and the repository's test replayed as a
      run of the session, with the events the browser pushes (the example
      [test_request_handler_replay]).
    - [Registry]: the specification's registry (rules and subscriptions)
      as an abstract state with its operations, the abstraction of a world
      (the subscriptions read from the trace), the simulation of every
      sequence of calls that return normally (C23), the resulting
      agreement of subscriptions and rules (C24), how a raising
      [add_request_handler] breaks it in any reachable session (C27), and
      what a failed call may do to the rules (C30: nothing, or the one
      removal it had made).
    - [Await]: the caller's coroutines with their await points.  A call
      is a finite await tree [Aw] (the free monad of one action,
      [conn.execute]): a leaf is the call's outcome, a node a command with
      the continuation that resumes the call on the reply.  [a_add_handler],
      [a_remove_intercept], [a_clear_intercepts], [a_network_get] follow
      the methods statement by statement, with an [aexec] at each [await
      self.conn.execute] and [alift] for the code between two awaits.  Run
      with nothing in between they are the calls of [Intercepts]
      ([run_call_equiv]).  The interleaved session [istep] on a [Config]
      lets the listening loops run while the caller is suspended; a crash
      of the nursery cancels the suspended call; the atomic sessions are
      among its runs ([atomic_runs_interleave]).  Its theorems: the
      registry invariant holds at every await point and in every
      configuration, via a Hoare-style predicate [ahoare] on await trees
      (C28); the registration race of [add_handler] in any live session
      ([race_window], C29).  An executable scheduler ([imove],
      [ischedule]) states concrete interleavings.
    - [Teardown]: the exit of [set_context].  The nursery block ends when
      no task is left.  [LoopInv] (each loop task iterates the stream
      opened for its event, with fresh stream ids) holds in every
      reachable world.  Along the nursery's own steps ([env_star]: starts,
      listener turns, loops whose stream closed) a loop on an open stream
      survives unless the session crashes, the rules stay, and only
      [continueRequest] is sent (C31): the block cannot exit while the
      caller leaves a rule, and nothing tears the rules down; once every
      rule is removed, the loops end and the block can exit (C34).  A turn
      that raises [ClosedResourceError] ends its loop but leaves the
      listener and its open stream: along every later run that removes no
      rule no loop serves the event again ([no_removal_run], [Held], C32).
    - [Listeners]: the listening loops with their own await.  A turn of
      [add_listener]'s [async for] is the await tree [a_listener_iteration]
      ([a_handle_events] awaits [continue_request]); run with nothing in
      between it is [listener_iteration] ([listener_turn_equiv]).  The
      session [fstep] on [FConfig] keeps one suspended turn per loop beside
      the caller's suspended call, and interleaves calls, resumptions,
      events, turns, starts and the end of loops in any order.  The
      registry invariant holds in every configuration, no loop has two
      turns in flight, and the rest of a suspended turn touches no state
      (C33); [Await]'s session, with atomic turns, is the part of it where
      no turn is in flight ([atomic_turns_interleave]).  [fmove] and
      [fschedule] are its executable scheduler.

    Theorem groups: the message model (C12, C13, C15: keys of [to_json], the
    round trip [from_json (to_json x) = x] for dataclasses without trailing
    underscore fields, its failure with [TypeError] for such fields; C18-C20
    on annotations); the registry invariants (C1, C5, C14, C24; C27 where
    it fails) and progress (C25); the same invariant with the calls'
    awaits interleaved with the listening loops (C28; C29 where the code's
    registration races the listener), and with the loops' own awaits too
    (C33); the exit of the session scope (C31, C34) and a loop ended by
    [ClosedResourceError] that leaves its listener registered (C32); the
    refinement of the specification's registry (C23), and on its error
    paths (C30); the functional and error behaviour of the manager on each
    branch (C2-C4, C6-C11, C16, C17, C22, C26, C35, C36), with C3 an
    equivalence with the reference pipeline.  Several theorems pin down
    defects of the code (C4, C21: [clear_intercepts] stops with
    [RuntimeError] after one removal; C2: a request no handler rewrites is
    never continued; C19: a decoded event violates its own annotations;
    C35: a [defaultdict] placeholder cannot be removed; C11, C36: a failing
    handler or continuation cancels the session; C7: a raising handler
    leaves its request never continued; C17: a rejected registration
    leaves the session subscribed with no rule; C9, C26: reading an
    unknown intercept id grows the table).  The
    lemmas that relate two models of the same code ([run_call_equiv],
    [atomic_runs_interleave], [listener_turn_equiv],
    [atomic_turns_interleave], [clear_loop_adequate]) carry the theorems
    from one model to the next; they are not properties of the code.

    Bounds and fuel: the only loop that is not structural recursion is the
    [for] loop of [clear_intercepts] over the dict it mutates; its fuel is
    the dict's size plus one, and [clear_loop_adequate] shows that any fuel
    above the number of keys left gives exactly the runs of CPython's
    semantics, so the result never depends on the fuel.

    Not modelled: opening and closing the websocket in [set_context]
    (I/O; the session starts from [init_world], and [Teardown] stops at
    the nursery's exit, before [open_cdp] closes the connection); the
    browser's decisions (which requests it blocks, the pages it loads, the
    titles the test asserts): a script states the events; cdp.py and
    session.py beyond the payloads and the [Channel] interface, and
    browsing_context.py beyond the two classes [get] uses; two caller
    coroutines running at once (the test and the model have one caller).
    Intercept ids are strings ([as_key]: the protocol's ids are strings).

    Modelling choices: in [Intercepts] the caller's API calls run
    atomically with respect to event processing; [Await] lifts this by
    suspending the caller at each [await self.conn.execute], where the
    remote end answers at once and the listening loops may run before the
    caller sees the reply.  One turn of a listening loop is atomic in
    both; [Listeners] suspends it too at its only await, the final
    [continueRequest], and shows that this loses no behaviour: the rest of
    the turn touches no state.  Every [conn.execute] is a checkpoint at
    which the nursery tasks started with [start_soon] run their code up to
    their first blocking point.  Loops over Python containers are
    structural recursion on the list they iterate; the [for] loop over a
    dict that is mutated during iteration is given fuel equal to the
    dict's size plus one, which bounds the iterations CPython can make
    before it raises or stops. *)

From Stdlib Require Import String Ascii List Bool Lia.
Import ListNotations.


(** ** Python exceptions and the exception-and-state monad *)

(** The exception classes the modelled code raises or lets through. *)
Inductive pyexc : Type :=
| KeyError (key : string)
| TypeError (msg : string)
| AttributeError (name : string)
| RuntimeError (msg : string)
| ClosedResourceError
| ProtocolError (msg : string)
| HandlerException (msg : string).

(** The outcome of a Python computation: a value, or a raised exception. *)
Inductive res (A : Type) : Type :=
| Ok (a : A)
| Exc (e : pyexc).
Arguments Ok {A} a.
Arguments Exc {A} e.

(** A Python statement sequence over a state [S]: side effects performed
    before a raise stay in the state, as they do in Python. *)
Definition PyM (S A : Type) : Type := S -> res A * S.

Section Monad.
Context {S : Type}.

Definition ret {A} (a : A) : PyM S A := fun s => (Ok a, s).

Definition bind {A B} (c : PyM S A) (k : A -> PyM S B) : PyM S B :=
  fun s => match c s with
           | (Ok a, s') => k a s'
           | (Exc e, s') => (Exc e, s')
           end.

Definition raise {A} (e : pyexc) : PyM S A := fun s => (Exc e, s).

Definition get : PyM S S := fun s => (Ok s, s).
Definition put (s : S) : PyM S unit := fun _ => (Ok tt, s).
Definition modify (f : S -> S) : PyM S unit := fun s => (Ok tt, f s).

(** A value of [res] lifted into the monad. *)
Definition lift {A} (r : res A) : PyM S A := fun s => (r, s).

(** [try: c except E: h] for the exceptions [catches] selects. *)
Definition try_except {A} (c : PyM S A) (catches : pyexc -> bool)
           (h : pyexc -> PyM S A) : PyM S A :=
  fun s => match c s with
           | (Exc e, s') => if catches e then h e s' else (Exc e, s')
           | r => r
           end.
End Monad.

Declare Scope py_scope.
Delimit Scope py_scope with py.
Notation "x <- c ;; k" := (bind c (fun x => k))
  (at level 61, c at next level, right associativity) : py_scope.
Notation "c ;; k" := (bind c (fun _ => k))
  (at level 61, right associativity) : py_scope.
Open Scope py_scope.

(** ** Python's [dict]: insertion ordered, keys unique *)

Module PyDict.
Section Dict.
Context {V : Type}.

Definition t := list (string * V).

Fixpoint get (d : t) (k : string) : option V :=
  match d with
  | [] => None
  | (k', v) :: r => if String.eqb k k' then Some v else get r k
  end.

Definition mem (d : t) (k : string) : bool :=
  match get d k with Some _ => true | None => false end.

(** [d[k] = v]: an existing key keeps its position, a new one goes last. *)
Fixpoint set (d : t) (k : string) (v : V) : t :=
  match d with
  | [] => [(k, v)]
  | (k', v') :: r => if String.eqb k k' then (k', v) :: r else (k', v') :: set r k v
  end.

(** The dict without key [k] (its first occurrence). *)
Fixpoint remove (d : t) (k : string) : t :=
  match d with
  | [] => []
  | (k', v) :: r => if String.eqb k k' then r else (k', v) :: remove r k
  end.

(** [d.pop(k)]: [None] is the [KeyError]. *)
Definition pop (d : t) (k : string) : option (V * t) :=
  match get d k with
  | Some v => Some (v, remove d k)
  | None => None
  end.

Definition keys (d : t) : list string := map fst d.
Definition values (d : t) : list V := map snd d.

(** The well-formedness of a dict: no key twice. *)
Definition wf (d : t) : Prop := NoDup (keys d).
End Dict.
Arguments t : clear implicits.
End PyDict.

(** ** String helpers *)

(** [s.endswith("_")]. *)
Definition endswith_underscore (s : string) : bool :=
  match rev (list_ascii_of_string s) with
  | c :: _ => Ascii.eqb c "_"%char
  | [] => false
  end.

(** [s[:-1]]: [s] without its last character. *)
Definition drop_last (s : string) : string :=
  string_of_list_ascii (rev (tl (rev (list_ascii_of_string s)))).

(** [s.split(sep)] for a one-character separator: the segments between the
    separators, in order, empty ones included. *)
Fixpoint split_on (sep : ascii) (s : string) : list string :=
  match s with
  | EmptyString => [EmptyString]
  | String c r =>
      match split_on sep r with
      | [] => [] (* unreachable: the result is never empty *)
      | seg :: segs => if Ascii.eqb c sep then EmptyString :: seg :: segs
                       else String c seg :: segs
      end
  end.

(** [xs[-1]] for a non-empty list; [IndexError] cannot arise on a split. *)
Definition last_seg (xs : list string) : string := last xs EmptyString.

(** ** Automation *)

Create HintDb pydict discriminated.
Create Rewrite HintDb pydict_rw.
Create Rewrite HintDb pym.

Ltac string_cases :=
  repeat match goal with
         | |- context [String.eqb ?a ?b] =>
             destruct (String.eqb_spec a b); try subst; try congruence
         | H : context [String.eqb ?a ?b] |- _ =>
             destruct (String.eqb_spec a b); try subst; try congruence
         end.

(** ** Monad laws *)

Section MonadLaws.
Context {S : Type}.

Lemma bind_ret_l {A B} (a : A) (k : A -> PyM S B) s :
  bind (ret a) k s = k a s.
Proof. reflexivity. Qed.

Lemma bind_raise {A B} e (k : A -> PyM S B) s :
  bind (raise e) k s = (Exc e, s).
Proof. reflexivity. Qed.

Lemma bind_assoc {A B C} (c : PyM S A) (f : A -> PyM S B) (g : B -> PyM S C) s :
  bind (bind c f) g s = bind c (fun a => bind (f a) g) s.
Proof. unfold bind. destruct (c s) as [[a|e] s']; reflexivity. Qed.

Lemma bind_lift_ok {A B} (a : A) (k : A -> PyM S B) s :
  bind (lift (Ok a)) k s = k a s.
Proof. reflexivity. Qed.

Lemma bind_lift_exc {A B} e (k : A -> PyM S B) s :
  bind (lift (Exc e)) k s = (Exc e, s).
Proof. reflexivity. Qed.

Lemma bind_get {B} (k : S -> PyM S B) s : bind get k s = k s s.
Proof. reflexivity. Qed.

Lemma bind_modify {B} f (k : unit -> PyM S B) s : bind (modify f) k s = k tt (f s).
Proof. reflexivity. Qed.

(** The two outcomes of a bind, as an inversion lemma. *)
Lemma bind_inv {A B} (c : PyM S A) (k : A -> PyM S B) s r s' :
  bind c k s = (r, s') ->
  (exists a s1, c s = (Ok a, s1) /\ k a s1 = (r, s')) \/
  (exists e, c s = (Exc e, s') /\ r = Exc e).
Proof.
  unfold bind. destruct (c s) as [[a|e] s1]; intros H; [left; eauto | right].
  inversion H; eauto.
Qed.
End MonadLaws.
#[export] Hint Rewrite @bind_ret_l @bind_raise @bind_assoc @bind_lift_ok @bind_lift_exc @bind_get @bind_modify : pym.

(** ** Dict lemmas *)

Module PyDictFacts.
Import PyDict.
Section Facts.
Context {V : Type}.
Implicit Types (d : PyDict.t V) (k : string) (v : V).

Lemma get_set_eq d k v : get (set d k v) k = Some v.
Proof. induction d as [|[k' v'] r IH]; simpl; string_cases; simpl; string_cases. Qed.

Lemma get_set_ne d k k' v : k <> k' -> get (set d k v) k' = get d k'.
Proof. intros Hne; induction d as [|[k0 v0] r IH]; simpl; string_cases; simpl; string_cases. Qed.

Lemma keys_set_in d k v : In k (keys d) -> keys (set d k v) = keys d.
Proof.
  induction d as [|[k0 v0] r IH]; simpl; [tauto|].
  string_cases; intros [H|H]; simpl; f_equal; auto; congruence.
Qed.

Lemma keys_set_notin d k v : ~ In k (keys d) -> keys (set d k v) = keys d ++ [k].
Proof.
  induction d as [|[k0 v0] r IH]; simpl; [reflexivity|].
  string_cases; intros H; [tauto|]. simpl. f_equal; auto.
Qed.

Lemma get_in_keys d k v : get d k = Some v -> In k (keys d).
Proof.
  induction d as [|[k0 v0] r IH]; simpl; [discriminate|].
  destruct (String.eqb_spec k k0); auto.
Qed.

Lemma get_notin d k : ~ In k (keys d) -> get d k = None.
Proof.
  induction d as [|[k0 v0] r IH]; simpl; [reflexivity|].
  destruct (String.eqb_spec k k0); intros H; [subst; tauto|auto].
Qed.

Lemma in_keys_get d k : In k (keys d) -> exists v, get d k = Some v.
Proof.
  induction d as [|[k0 v0] r IH]; simpl; [tauto|].
  destruct (String.eqb_spec k k0); intros [H|H]; eauto; congruence.
Qed.

Lemma mem_get d k : mem d k = true <-> exists v, get d k = Some v.
Proof.
  unfold mem; destruct (get d k); split; intros H; eauto; try discriminate.
  destruct H; discriminate.
Qed.

Lemma get_remove_ne d k k' : k <> k' -> get (remove d k) k' = get d k'.
Proof.
  intros Hne; induction d as [|[k0 v0] r IH]; simpl; [reflexivity|].
  destruct (String.eqb_spec k k0); simpl.
  - subst. destruct (String.eqb_spec k' k0); congruence.
  - destruct (String.eqb_spec k' k0); congruence.
Qed.

Lemma get_remove_eq d k : wf d -> get (remove d k) k = None.
Proof.
  unfold wf; induction d as [|[k0 v0] r IH]; simpl; [reflexivity|].
  intros Hnd; inversion Hnd; subst.
  destruct (String.eqb_spec k k0); simpl.
  - subst. apply get_notin; assumption.
  - destruct (String.eqb_spec k k0); [contradiction|auto].
Qed.

Lemma keys_remove_incl d k x : In x (keys (remove d k)) -> In x (keys d).
Proof.
  induction d as [|[k0 v0] r IH]; simpl; [tauto|].
  destruct (String.eqb_spec k k0); simpl; intuition.
Qed.

Lemma wf_set d k v : wf d -> wf (set d k v).
Proof.
  unfold wf; intros H.
  destruct (in_dec string_dec k (keys d)) as [Hi|Hi].
  - rewrite keys_set_in; assumption.
  - rewrite keys_set_notin by assumption.
    apply NoDup_app; auto using NoDup_cons, NoDup_nil.
    intros x Hx [Hy|[]]; subst; contradiction.
Qed.

Lemma wf_remove d k : wf d -> wf (remove d k).
Proof.
  unfold wf; induction d as [|[k0 v0] r IH]; simpl; intros H; [exact H|].
  inversion H; subst. string_cases; simpl; auto.
  constructor; auto. intros Hin; apply keys_remove_incl in Hin; contradiction.
Qed.

Lemma pop_some d k v d' : pop d k = Some (v, d') -> get d k = Some v /\ d' = remove d k.
Proof. unfold pop; destruct (get d k); intros H; inversion H; auto. Qed.

Lemma pop_none d k : pop d k = None <-> get d k = None.
Proof. unfold pop; destruct (get d k); split; congruence. Qed.

Lemma length_remove_in d k : In k (keys d) -> S (length (remove d k)) = length d.
Proof.
  induction d as [|[k0 v0] r IH]; simpl; [tauto|].
  string_cases; intros [H|H]; simpl; try congruence; f_equal; auto.
Qed.

Lemma length_set_in d k v : In k (keys d) -> length (set d k v) = length d.
Proof.
  induction d as [|[k0 v0] r IH]; simpl; [tauto|].
  string_cases; intros [H|H]; simpl; try congruence; f_equal; auto.
Qed.

Lemma length_set_notin d k v : ~ In k (keys d) -> length (set d k v) = S (length d).
Proof.
  induction d as [|[k0 v0] r IH]; simpl; [reflexivity|].
  string_cases; intros H; [tauto|]. simpl. f_equal. auto.
Qed.

Lemma get_In d k v : get d k = Some v -> In (k, v) d.
Proof.
  induction d as [|[k0 v0] r IH]; simpl; [discriminate|].
  destruct (String.eqb_spec k k0); intros H; [inversion H; subst; left; reflexivity|right; auto].
Qed.

Lemma In_get d k v : wf d -> In (k, v) d -> get d k = Some v.
Proof.
  unfold wf; induction d as [|[k0 v0] r IH]; simpl; [tauto|].
  intros Hnd [H|H]; inversion Hnd; subst.
  - inversion H; subst. rewrite String.eqb_refl. reflexivity.
  - destruct (String.eqb_spec k k0); [|auto].
    subst. exfalso. apply H2. apply (in_map fst) in H. exact H.
Qed.

Lemma in_set d k v k' v' :
  wf d -> In (k', v') (set d k v) <-> (k' = k /\ v' = v) \/ (k' <> k /\ In (k', v') d).
Proof.
  unfold wf; induction d as [|[k0 v0] r IH]; simpl; intros Hnd.
  - split; [intros [H|[]]; inversion H; auto|intros [[-> ->]|[_ []]]; left; reflexivity].
  - inversion Hnd; subst. destruct (String.eqb_spec k k0).
    + subst. simpl. split.
      * intros [H|H]; [inversion H; auto|].
        right. split; [|right; exact H]. intros ->. apply H1. apply (in_map fst) in H. exact H.
      * intros [[-> ->]|[Hne [H|H]]]; [left; reflexivity|inversion H; congruence|right; exact H].
    + simpl. rewrite IH by assumption. split.
      * intros [H|[H|H]]; [inversion H; subst; right; split; auto|left; exact H|right; tauto].
      * intros [H|[Hne [H|H]]]; [right; left; exact H|left; exact H|right; right; auto].
Qed.

Lemma in_remove d k k' v' :
  wf d -> In (k', v') (remove d k) <-> k' <> k /\ In (k', v') d.
Proof.
  unfold wf; induction d as [|[k0 v0] r IH]; simpl; intros Hnd; [tauto|].
  inversion Hnd; subst. destruct (String.eqb_spec k k0).
  - subst. split.
    + intros H. split; [|right; exact H]. intros ->. apply H1. apply (in_map fst) in H. exact H.
    + intros [Hne [H|H]]; [inversion H; congruence|exact H].
  - simpl. rewrite IH by assumption. split.
    + intros [H|[Hne H]]; [inversion H; subst; split; auto|split; auto].
    + intros [Hne [H|H]]; [left; exact H|right; auto].
Qed.

Lemma set_set d k v1 v2 : set (set d k v1) k v2 = set d k v2.
Proof.
  induction d as [|[k0 v0] r IH]; simpl.
  - rewrite String.eqb_refl. reflexivity.
  - destruct (String.eqb_spec k k0); simpl.
    + subst. rewrite String.eqb_refl. reflexivity.
    + destruct (String.eqb_spec k k0); [contradiction|]. rewrite IH. reflexivity.
Qed.

Lemma values_set_notin d k v : ~ In k (keys d) -> values (set d k v) = values d ++ [v].
Proof.
  induction d as [|[k0 v0] r IH]; simpl; [reflexivity|].
  destruct (String.eqb_spec k k0); intros H; [subst; tauto|]. simpl. f_equal. auto.
Qed.

Lemma in_values_set d k v x : In x (values (set d k v)) -> x = v \/ In x (values d).
Proof.
  induction d as [|[k0 v0] r IH]; simpl; [intuition|].
  destruct (String.eqb_spec k k0); simpl; intuition.
Qed.

Lemma in_values_remove d k x : In x (values (remove d k)) -> In x (values d).
Proof.
  induction d as [|[k0 v0] r IH]; simpl; [intuition|].
  destruct (String.eqb_spec k k0); simpl; intuition.
Qed.

Lemma in_values_keys d x : In x (values d) <-> exists k, In (k, x) d.
Proof.
  unfold values. rewrite in_map_iff. split.
  - intros [[k y] [<- H]]. exists k. exact H.
  - intros [k H]. exists (k, x). split; [reflexivity|exact H].
Qed.

Lemma in_keys_remove d k k' : wf d -> In k' (keys (remove d k)) <-> k' <> k /\ In k' (keys d).
Proof.
  intros Hwf. unfold keys. rewrite !in_map_iff. split.
  - intros [[a v] [Ha Hin]]; simpl in Ha; subst. apply in_remove in Hin as [Hne Hin]; [|exact Hwf].
    split; [exact Hne|exists (k', v); auto].
  - intros [Hne [[a v] [Ha Hin]]]; simpl in Ha; subst. exists (k', v). split; [reflexivity|].
    apply in_remove; auto.
Qed.

Lemma in_values_remove_or d k x :
  wf d -> In x (values d) -> In x (values (remove d k)) \/ get d k = Some x.
Proof.
  intros Hwf Hx. apply in_values_keys in Hx as [k' Hk'].
  destruct (String.eqb_spec k' k) as [->|Hne].
  - right. apply In_get; assumption.
  - left. apply in_values_keys. exists k'. apply in_remove; auto.
Qed.

Lemma in_values_set_iff d k v x :
  wf d -> In x (values (set d k v)) <-> x = v \/ exists k', k' <> k /\ In (k', x) d.
Proof.
  intros Hwf. rewrite in_values_keys. split.
  - intros [k' Hin]. apply (in_set d k v k' x Hwf) in Hin as [[-> ->]|[Hne Hin]];
      [left; reflexivity|right; eauto].
  - intros [->|[k' [Hne Hin]]]; [exists k; apply in_set; auto|exists k'; apply in_set; auto].
Qed.

Lemma set_notin d k v : ~ In k (keys d) -> set d k v = d ++ [(k, v)].
Proof.
  induction d as [|[k0 v0] r IH]; simpl; [reflexivity|].
  destruct (String.eqb_spec k k0); intros H; [subst; tauto|]. f_equal. auto.
Qed.

Lemma in_keys_set d k v x : In x (keys (set d k v)) <-> x = k \/ In x (keys d).
Proof.
  destruct (in_dec string_dec k (keys d)) as [Hi|Hi].
  - rewrite keys_set_in by exact Hi. split; [auto|intros [->|H]; auto].
  - rewrite keys_set_notin by exact Hi. rewrite in_app_iff. simpl. intuition (subst; auto).
Qed.
End Facts.
End PyDictFacts.
Export PyDictFacts.

#[export] Hint Rewrite @PyDictFacts.get_set_eq : pydict_rw.
#[export] Hint Rewrite @PyDictFacts.get_set_ne @PyDictFacts.get_remove_ne using congruence : pydict_rw.
#[export] Hint Resolve PyDictFacts.wf_set PyDictFacts.wf_remove PyDictFacts.get_in_keys : pydict.

(** Two pairs with the same first component in a list whose first
    components are distinct are equal. *)
Lemma nodup_fst_unique {A B} (l : list (A * B)) a b c :
  NoDup (map fst l) -> In (a, b) l -> In (a, c) l -> b = c.
Proof.
  induction l as [|[a0 b0] r IH]; simpl; [tauto|].
  intros Hnd Hb Hc; inversion Hnd; subst.
  destruct Hb as [Hb|Hb], Hc as [Hc|Hc].
  - inversion Hb; inversion Hc; subst; reflexivity.
  - inversion Hb; subst. exfalso. apply H1. apply (in_map fst) in Hc. exact Hc.
  - inversion Hc; subst. exfalso. apply H1. apply (in_map fst) in Hb. exact Hb.
  - auto.
Qed.

(** A filter that keeps nothing rejects every element. *)
Lemma filter_length_zero {A} (p : A -> bool) l x :
  length (filter p l) = 0 -> In x l -> p x = false.
Proof.
  intros Hz Hx. destruct (p x) eqn:Hp; [|reflexivity].
  assert (Hin : In x (filter p l)) by (apply filter_In; auto).
  destruct (filter p l); [destruct Hin|discriminate].
Qed.

(** Distinct first components, and a second component never shared by two
    first components: the second components are distinct. *)
Lemma NoDup_snd {A B} (l : list (A * B)) :
  NoDup (map fst l) -> (forall a c b, In (a, b) l -> In (c, b) l -> a = c) -> NoDup (map snd l).
Proof.
  induction l as [|[a b] r IH]; simpl; intros Hnd Hu; [constructor|]. inversion Hnd; subst.
  constructor.
  - intros Hin. apply in_map_iff in Hin as [[c b'] [Hb Hin]]; simpl in Hb; subst.
    assert (a = c) by (eapply Hu; [left; reflexivity|right; exact Hin]). subst.
    apply H1. apply (in_map fst) in Hin. exact Hin.
  - apply IH; [exact H2|]. intros a' c' b' H1' H2'. eapply Hu; right; eauto.
Qed.

Lemma NoDup_map_filter {A B} (f : A -> B) (p : A -> bool) l :
  NoDup (map f l) -> NoDup (map f (filter p l)).
Proof.
  induction l as [|a r IH]; simpl; [auto|]. intros Hnd; inversion Hnd; subst.
  destruct (p a); simpl; auto. constructor; auto.
  intros Hin. apply H1. apply in_map_iff in Hin as [x [Hx Hin]]. apply filter_In in Hin as [Hin _].
  rewrite <- Hx. apply in_map. exact Hin.
Qed.

(** A filter that rejects every element keeps nothing. *)
Lemma filter_all_false {A} (p : A -> bool) l :
  (forall x, In x l -> p x = false) -> filter p l = [].
Proof.
  induction l as [|a r IH]; simpl; intros H; [reflexivity|].
  rewrite (H a (or_introl eq_refl)). apply IH. intros x Hx. apply H. right. exact Hx.
Qed.

(** A list without duplicates whose elements all equal [x] has at most one. *)
Lemma NoDup_all_eq_length {A} (l : list A) x :
  NoDup l -> (forall y, In y l -> y = x) -> length l <= 1.
Proof.
  intros Hnd Hall. destruct l as [|a [|b r]]; simpl; [lia|lia|exfalso].
  inversion Hnd; subst. apply H1. left.
  rewrite (Hall a (or_introl eq_refl)), (Hall b (or_intror (or_introl eq_refl))). reflexivity.
Qed.

(** ** String helper lemmas *)

Lemma split_on_nonempty sep s : split_on sep s <> [].
Proof.
  induction s as [|c r IH]; simpl; [discriminate|].
  destruct (split_on sep r) as [|seg segs]; [contradiction|].
  destruct (Ascii.eqb c sep); discriminate.
Qed.
