(* ===== verification/PyValue.v ===== *)
(** Python runtime values as the modelled code manipulates them: [None],
    booleans, integers (Python [int] and the protocol's [float] fields alike;
    the code never computes with them), strings, lists, string-keyed dicts
    (the decoded JSON objects) and dataclass instances.  A dataclass is its
    name and its fields with their defaults; [dc_init] is the [__init__]
    that [@dataclass] generates, with CPython's argument binding and its
    [TypeError]s.  Attribute access, subscription, truth value and
    iteration are the Python operations the code applies to these values. *)

From Stdlib Require Import String List ZArith Bool.
From S2P Require Import Prelude.
Import ListNotations.

Inductive pyval : Type :=
| VNone
| VBool (b : bool)
| VInt (z : Z)
| VStr (s : string)
| VList (xs : list pyval)
| VDict (d : list (string * pyval))
| VObj (cls : string) (fields : list (string * pyval)).

(** The induction principle that sees through the lists of a value. *)
Section PyvalInd.
Variable P : pyval -> Prop.
Hypothesis HNone : P VNone.
Hypothesis HBool : forall b, P (VBool b).
Hypothesis HInt : forall z, P (VInt z).
Hypothesis HStr : forall s, P (VStr s).
Hypothesis HList : forall xs, Forall P xs -> P (VList xs).
Hypothesis HDict : forall d, Forall (fun kv => P (snd kv)) d -> P (VDict d).
Hypothesis HObj : forall c fs, Forall (fun kv => P (snd kv)) fs -> P (VObj c fs).

Fixpoint pyval_ind' (v : pyval) : P v :=
  match v with
  | VNone => HNone
  | VBool b => HBool b
  | VInt z => HInt z
  | VStr s => HStr s
  | VList xs =>
      HList xs ((fix go (xs : list pyval) : Forall P xs :=
                   match xs with
                   | [] => Forall_nil _
                   | x :: r => Forall_cons _ (pyval_ind' x) (go r)
                   end) xs)
  | VDict d =>
      HDict d ((fix go (d : list (string * pyval)) : Forall (fun kv => P (snd kv)) d :=
                  match d with
                  | [] => Forall_nil _
                  | (k, x) :: r => Forall_cons (P := fun kv => P (snd kv)) (k, x) (pyval_ind' x) (go r)
                  end) d)
  | VObj c fs =>
      HObj c fs ((fix go (d : list (string * pyval)) : Forall (fun kv => P (snd kv)) d :=
                    match d with
                    | [] => Forall_nil _
                    | (k, x) :: r => Forall_cons (P := fun kv => P (snd kv)) (k, x) (pyval_ind' x) (go r)
                    end) fs)
  end.
End PyvalInd.

Definition is_none (v : pyval) : bool := match v with VNone => true | _ => false end.

(** [hasattr(v, "to_json")], [is_dataclass(v)]: the value is a
    [BidiObject] instance (every dataclass of the code is one). *)
Definition is_obj (v : pyval) : bool := match v with VObj _ _ => true | _ => false end.

(** [isinstance(v, C)] for a dataclass [C] named [c]. *)
Definition isinstance (v : pyval) (c : string) : bool :=
  match v with VObj c' _ => String.eqb c' c | _ => false end.

(** ** Dataclasses and their generated [__init__] *)

(** The annotations of the fields, as the [typing] module writes them:
    [str], [int], [float], [bool], [Literal[...]] of strings,
    [Optional[t]], [List[t]], [Union[...]] and a dataclass by its name.
    [TAny] stands for a class of a module that is not under src/
    ([browsing_context.BrowsingContext], [script.StackTrace]). *)
Inductive pytype : Type :=
| TAny
| TStr
| TInt
| TFloat
| TBool
| TLit (ss : list string)
| TOpt (t : pytype)
| TList (t : pytype)
| TUnion (ts : list pytype)
| TClass (c : string).

(** A field [name: type] or [name: type = default] of a dataclass. *)
Record field := mk_field { f_name : string; f_default : option pyval; f_type : pytype }.
Record dataclass := mk_dc { dc_name : string; dc_fields : list field }.

Definition required (n : string) (t : pytype) : field := mk_field n None t.
Definition optional (n : string) (t : pytype) (d : pyval) : field := mk_field n (Some d) t.

Definition dc_names (c : dataclass) : list string := map f_name (dc_fields c).

(** Keyword arguments after the positional ones, as CPython binds them:
    an unknown name or a name already bound is a [TypeError]. *)
Fixpoint bind_kwargs (names : list string) (bound : PyDict.t pyval)
         (kwargs : list (string * pyval)) : res (PyDict.t pyval) :=
  match kwargs with
  | [] => Ok bound
  | (k, v) :: r =>
      if negb (existsb (String.eqb k) names)
      then Exc (TypeError ("__init__() got an unexpected keyword argument " ++ k))
      else if PyDict.mem bound k
      then Exc (TypeError ("__init__() got multiple values for argument " ++ k))
      else bind_kwargs names (PyDict.set bound k v) r
  end%string.

(** Every field takes its bound value, else its default, else the call
    is missing a required argument. *)
Fixpoint fill_fields (fs : list field) (bound : PyDict.t pyval) : res (list (string * pyval)) :=
  match fs with
  | [] => Ok []
  | f :: r =>
      match PyDict.get bound (f_name f), f_default f with
      | Some v, _ | None, Some v =>
          match fill_fields r bound with
          | Ok vs => Ok ((f_name f, v) :: vs)
          | Exc e => Exc e
          end
      | None, None => Exc (TypeError ("__init__() missing required argument " ++ f_name f)%string)
      end
  end.

(** A call [C(args..., kw=...)] of the dataclass [C]. *)
Definition dc_init (c : dataclass) (args : list pyval) (kwargs : list (string * pyval)) : res pyval :=
  let names := dc_names c in
  let positional := combine (firstn (length args) names) args in
  match bind_kwargs names positional kwargs with
  | Exc e => Exc e
  | Ok bound =>
      if Nat.ltb (length names) (length args)
      then Exc (TypeError "__init__() takes fewer positional arguments"%string)
      else match fill_fields (dc_fields c) bound with
           | Ok vs => Ok (VObj (dc_name c) vs)
           | Exc e => Exc e
           end
  end.

(** ** Operations on values *)

(** [o.name] *)
Definition getattr (v : pyval) (name : string) : res pyval :=
  match v with
  | VObj _ fs => match PyDict.get fs name with
                 | Some x => Ok x
                 | None => Exc (AttributeError name)
                 end
  | _ => Exc (AttributeError name)
  end.

(** [d[k]] on a string key *)
Definition getitem (v : pyval) (k : string) : res pyval :=
  match v with
  | VDict d => match PyDict.get d k with
               | Some x => Ok x
               | None => Exc (KeyError k)
               end
  | _ => Exc (TypeError "object is not subscriptable"%string)
  end.

(** [bool(v)]: a dataclass without [__bool__] or [__len__] is true. *)
Definition truthy (v : pyval) : bool :=
  match v with
  | VNone => false
  | VBool b => b
  | VInt z => negb (Z.eqb z 0)
  | VStr s => negb (String.eqb s EmptyString)
  | VList xs => negb (Nat.eqb (length xs) 0)
  | VDict d => negb (Nat.eqb (length d) 0)
  | VObj _ _ => true
  end.

(** [iter(v)] for [for x in v]: a list yields its items, a dict its keys,
    a string its characters; [None], numbers and dataclasses are not
    iterable. *)
Definition py_iter (v : pyval) : res (list pyval) :=
  match v with
  | VList xs => Ok xs
  | VDict d => Ok (map (fun kv => VStr (fst kv)) d)
  | VStr s => Ok (map (fun c => VStr (String c EmptyString)) (list_ascii_of_string s))
  | _ => Exc (TypeError "object is not iterable"%string)
  end.

(** A call of [C] with the entries of [v] as keywords; [v] must be a mapping. *)
Definition dc_init_kw (c : dataclass) (v : pyval) : res pyval :=
  match v with
  | VDict d => dc_init c [] d
  | _ => Exc (TypeError "argument after ** must be a mapping"%string)
  end.

(** ** Conformance of a value to an annotation

    What a static checker reading the annotations promises of a value (the
    runtime never checks them).  [classes] are the dataclasses a [TClass]
    name can denote.  An instance conforms to its class when its fields are
    the class's fields in declaration order and each value conforms to its
    field's annotation; [float] admits the integers, as PEP 484 says. *)
Section Typing.
Variable classes : list dataclass.

Definition find_class (c : string) : option dataclass :=
  find (fun d => String.eqb (dc_name d) c) classes.

Fixpoint has_type (v : pyval) (t : pytype) {struct v} : bool :=
  let fix all_elems (xs : list pyval) (t : pytype) : bool :=
    match xs with
    | [] => true
    | x :: r => has_type x t && all_elems r t
    end in
  let fix all_fields (fs : list (string * pyval)) (ann : list field) : bool :=
    match fs, ann with
    | [], [] => true
    | (n, x) :: r, f :: ann' => String.eqb n (f_name f) && has_type x (f_type f) && all_fields r ann'
    | _, _ => false
    end in
  let fix on_type (t : pytype) : bool :=
    let fix any_of (ts : list pytype) : bool :=
      match ts with
      | [] => false
      | t' :: r => on_type t' || any_of r
      end in
    match t with
    | TAny => true
    | TStr => match v with VStr _ => true | _ => false end
    | TInt | TFloat => match v with VInt _ => true | _ => false end
    | TBool => match v with VBool _ => true | _ => false end
    | TLit ss => match v with VStr s => existsb (String.eqb s) ss | _ => false end
    | TOpt t' => is_none v || on_type t'
    | TList t' => match v with VList xs => all_elems xs t' | _ => false end
    | TUnion ts => any_of ts
    | TClass c =>
        match v, find_class c with
        | VObj c' fs, Some d => String.eqb c' c && all_fields fs (dc_fields d)
        | _, _ => false
        end
    end in
  on_type t.
End Typing.

(** ** Lemmas on dataclass construction *)

Lemma fill_fields_names fs bound vs :
  fill_fields fs bound = Ok vs -> map fst vs = map f_name fs.
Proof.
  revert vs; induction fs as [|f r IH]; simpl; intros vs H; [inversion H; reflexivity|].
  destruct (PyDict.get bound (f_name f)) as [v|], (f_default f) as [d|];
    try discriminate;
    destruct (fill_fields r bound) as [vs'|e] eqn:E; inversion H; subst; simpl; f_equal; auto.
Qed.

(** A successful construction has exactly the class's fields, in order. *)
Lemma dc_init_fields c args kwargs o :
  dc_init c args kwargs = Ok o ->
  exists fs, o = VObj (dc_name c) fs /\ map fst fs = dc_names c.
Proof.
  unfold dc_init. destruct (bind_kwargs _ _ _) as [bound|e]; [|discriminate].
  destruct (Nat.ltb _ _); [discriminate|].
  destruct (fill_fields _ _) as [vs|e] eqn:E; intros H; inversion H; subst.
  eexists; split; [reflexivity|]. apply fill_fields_names in E. exact E.
Qed.

Lemma existsb_eqb_in k names : existsb (String.eqb k) names = true <-> In k names.
Proof.
  rewrite existsb_exists. split.
  - intros [x [Hx Heq]]. apply String.eqb_eq in Heq. subst. exact Hx.
  - intros H. exists k. split; [exact H|apply String.eqb_refl].
Qed.

(** A keyword that is not a field makes the call raise [TypeError], whatever
    the other keywords are. *)
Lemma bind_kwargs_unknown names kw : forall bound k,
  In k (map fst kw) -> ~ In k names ->
  exists msg, bind_kwargs names bound kw = Exc (TypeError msg).
Proof.
  induction kw as [|[k0 v] r IH]; intros bound k Hk Hn; simpl in *; [contradiction|].
  destruct (existsb (String.eqb k0) names) eqn:Ee; simpl; [|eauto].
  destruct (PyDict.mem bound k0); [eauto|].
  destruct Hk as [->|Hk]; [apply existsb_eqb_in in Ee; contradiction|eauto].
Qed.

Lemma dc_init_unknown_kw c kw k :
  In k (map fst kw) -> ~ In k (dc_names c) -> exists msg, dc_init c [] kw = Exc (TypeError msg).
Proof.
  intros Hk Hn. unfold dc_init. simpl.
  destruct (bind_kwargs_unknown (dc_names c) kw [] k Hk Hn) as [msg ->]. eauto.
Qed.

(** A keyword the binding accepts keeps its value to the end. *)
Lemma bind_kwargs_keep names kw : forall bound b k v,
  bind_kwargs names bound kw = Ok b -> PyDict.get bound k = Some v -> PyDict.get b k = Some v.
Proof.
  induction kw as [|[k0 v0] r IH]; intros bound b k v H Hg; simpl in H; [injection H as <-; exact Hg|].
  destruct (negb _); [discriminate|]. destruct (PyDict.mem bound k0) eqn:Hm; [discriminate|].
  apply (IH _ _ _ _ H). rewrite PyDictFacts.get_set_ne; [exact Hg|].
  intros ->. unfold PyDict.mem in Hm. rewrite Hg in Hm. discriminate.
Qed.

Lemma bind_kwargs_get names kw : forall bound b k v,
  bind_kwargs names bound kw = Ok b -> PyDict.get kw k = Some v -> PyDict.get b k = Some v.
Proof.
  induction kw as [|[k0 v0] r IH]; intros bound b k v H Hg; simpl in Hg; [discriminate|].
  simpl in H. destruct (negb _); [discriminate|]. destruct (PyDict.mem bound k0); [discriminate|].
  destruct (String.eqb_spec k k0) as [->|Hne].
  - injection Hg as <-. apply (bind_kwargs_keep _ _ _ _ _ _ H). apply PyDictFacts.get_set_eq.
  - exact (IH _ _ _ _ H Hg).
Qed.

(** A field takes the value bound to its name. *)
Lemma fill_fields_get fs bound vs k v :
  fill_fields fs bound = Ok vs -> PyDict.get bound k = Some v -> In k (map f_name fs) ->
  PyDict.get vs k = Some v.
Proof.
  revert vs; induction fs as [|f r IH]; intros vs H Hg Hin; simpl in *; [destruct Hin|].
  destruct (PyDict.get bound (f_name f)) as [v'|] eqn:Hb, (f_default f) as [d|];
    try discriminate; destruct (fill_fields r bound) as [vs'|e] eqn:E; try discriminate;
    injection H as <-; simpl;
    (destruct (String.eqb_spec k (f_name f)) as [Heq|Hne]; [subst; congruence|]);
    (apply IH; [reflexivity|exact Hg|destruct Hin as [Hin|Hin]; [congruence|exact Hin]]).
Qed.

(** A call of [C] with the keywords [kw] stores in each field the value
    [kw] gives it: it does not convert nested values. *)
Lemma dc_init_kw_get c kw o k v :
  dc_init_kw c (VDict kw) = Ok o -> PyDict.get kw k = Some v -> In k (dc_names c) -> getattr o k = Ok v.
Proof.
  unfold dc_init_kw, dc_init. simpl. destruct (bind_kwargs _ [] kw) as [b|e] eqn:Eb; [|discriminate].
  destruct (fill_fields (dc_fields c) b) as [vs|e] eqn:Ef; [|discriminate].
  intros H Hg Hin. injection H as <-. simpl.
  rewrite (fill_fields_get _ _ _ _ _ Ef (bind_kwargs_get _ _ _ _ _ _ Eb Hg) Hin). reflexivity.
Qed.
