(* ===== verification/Bidi.v ===== *)
(** The message model of common/bidi/bidi.py: [BidiObject.to_json] (a
    dataclass to its wire dict: [None] fields dropped, nested dataclasses
    and dataclasses directly inside a list or dict encoded, a trailing [_]
    stripped from field names), [BidiObject.from_json] (the class called with the entries of [json] as keyword arguments),
    [BidiEvent.from_json] (the [params] field decoded by its annotated
    class) and [BidiCommand.cmd] (the generator that yields the encoded
    command and returns what is sent back).  The theorems give [to_json] on
    every object as a map over its fields, the round trip [from_json] after
    [to_json] on the objects where it holds, and where it does not. *)

From Stdlib Require Import String List ZArith Bool Lia.
From S2P Require Import Prelude PyValue.
Import ListNotations.

Module Bidi.

(** [field.name[:-1] if field.name.endswith("_") else field.name] *)
Definition strip_key (name : string) : string :=
  if endswith_underscore name then drop_last name else name.

(** [BidiObject.to_json]: the loop over [fields(self)] with the dict
    [json] as accumulator; an element of a list or dict field is encoded
    when it has a [to_json] method, i.e. when it is a dataclass. *)
Fixpoint to_json (v : pyval) : pyval :=
  match v with
  | VObj _ fs =>
      VDict ((fix go (fs : list (string * pyval)) (json : PyDict.t pyval) : PyDict.t pyval :=
                match fs with
                | [] => json
                | (name, value) :: rest =>
                    match value with
                    | VNone => go rest json
                    | VObj _ _ => go rest (PyDict.set json (strip_key name) (to_json value))
                    | VList xs =>
                        go rest (PyDict.set json (strip_key name)
                          (VList ((fix gl (xs : list pyval) : list pyval :=
                                     match xs with
                                     | [] => []
                                     | x :: r => (if is_obj x then to_json x else x) :: gl r
                                     end) xs)))
                    | VDict d =>
                        go rest (PyDict.set json (strip_key name)
                          (VDict ((fix gd (d : list (string * pyval)) : list (string * pyval) :=
                                     match d with
                                     | [] => []
                                     | (k, x) :: r => (k, if is_obj x then to_json x else x) :: gd r
                                     end) d)))
                    | _ => go rest (PyDict.set json (strip_key name) value)
                    end
                end) fs [])
  | _ => v
  end.

(** [v.to_json() if hasattr(v, "to_json") else v] *)
Definition enc_elem (x : pyval) : pyval := if is_obj x then to_json x else x.

(** The value a non-[None] field is encoded to. *)
Definition enc_field (x : pyval) : pyval :=
  match x with
  | VObj _ _ => to_json x
  | VList xs => VList (map enc_elem xs)
  | VDict d => VDict (map (fun kv => (fst kv, enc_elem (snd kv))) d)
  | _ => x
  end.

(** [cls.from_json(json)] calls the class with the entries of [json] as keywords: no decoding of nested values. *)
Definition from_json (c : dataclass) (json : pyval) : res pyval := dc_init_kw c json.

(** [BidiEvent.from_json]: [params] is decoded by the class annotated for
    it ([get_type_hints(cls)["params"]]), then [cls(params)]. *)
Definition event_from_json (ev params_cls : dataclass) (json : pyval) : res pyval :=
  match from_json params_cls json with
  | Ok p => dc_init ev [p] []
  | Exc e => Exc e
  end.

(** [BidiCommand.cmd]: the value the generator yields; the value sent
    back into it is the value it returns. *)
Definition cmd (command : pyval) : pyval := to_json command.

(** ** [to_json] as a map over the fields *)

Definition json_step (json : PyDict.t pyval) (f : string * pyval) : PyDict.t pyval :=
  if is_none (snd f) then json else PyDict.set json (strip_key (fst f)) (enc_field (snd f)).

Lemma enc_list_map xs :
  (fix gl (xs : list pyval) : list pyval :=
     match xs with [] => [] | x :: r => (if is_obj x then to_json x else x) :: gl r end) xs
  = map enc_elem xs.
Proof. induction xs as [|x r IH]; simpl; [reflexivity|]. rewrite IH. reflexivity. Qed.

Lemma enc_dict_map (d : list (string * pyval)) :
  (fix gd (d : list (string * pyval)) : list (string * pyval) :=
     match d with [] => [] | (k, x) :: r => (k, if is_obj x then to_json x else x) :: gd r end) d
  = map (fun kv => (fst kv, enc_elem (snd kv))) d.
Proof. induction d as [|[k x] r IH]; simpl; [reflexivity|]. rewrite IH. reflexivity. Qed.

(** The accumulator loop of [to_json] is a left fold of [json_step]. *)
Lemma to_json_fold c fs :
  to_json (VObj c fs) = VDict (fold_left json_step fs []).
Proof.
  simpl. f_equal. generalize (@nil (string * pyval)) at 2 3 as json.
  induction fs as [|[n x] r IH]; intros json; simpl; [reflexivity|].
  destruct x; simpl; rewrite ?enc_list_map, ?enc_dict_map; apply IH.
Qed.

(** The non-[None] fields of an object, encoded, under their wire keys. *)
Definition wire_fields (fs : list (string * pyval)) : list (string * pyval) :=
  map (fun f => (strip_key (fst f), enc_field (snd f))) (filter (fun f => negb (is_none (snd f))) fs).

Lemma fold_json_step_fresh fs json :
  NoDup (PyDict.keys json ++ PyDict.keys (wire_fields fs)) ->
  fold_left json_step fs json = json ++ wire_fields fs.
Proof.
  revert json; induction fs as [|[n x] r IH]; intros json Hnd; simpl.
  - rewrite app_nil_r. reflexivity.
  - unfold wire_fields in *; simpl in *. unfold json_step at 2; simpl.
    destruct (is_none x); simpl in *; [apply IH; exact Hnd|].
    assert (Hs : PyDict.set json (strip_key n) (enc_field x) = json ++ [(strip_key n, enc_field x)]).
    { clear -Hnd. induction json as [|[k v] j IHj]; simpl in *; [reflexivity|].
      inversion Hnd; subst. destruct (String.eqb_spec (strip_key n) k).
      - subst. exfalso. apply H1. apply in_or_app. right. left. reflexivity.
      - f_equal. apply IHj. exact H2. }
    rewrite Hs, IH, <- app_assoc; [reflexivity|].
    unfold PyDict.keys in *. rewrite map_app, <- app_assoc. simpl. exact Hnd.
Qed.

(** When the wire keys of the non-[None] fields are distinct, [to_json]
    is the list of those fields, in declaration order, under their names
    with a trailing [_] stripped, each value encoded. *)
Lemma to_json_wire c fs :
  NoDup (PyDict.keys (wire_fields fs)) ->
  to_json (VObj c fs) = VDict (wire_fields fs).
Proof.
  intros Hnd. rewrite to_json_fold, fold_json_step_fresh; [reflexivity|exact Hnd].
Qed.

Lemma keys_fold_json_step fs : forall acc k,
  In k (PyDict.keys (fold_left json_step fs acc)) <->
  In k (PyDict.keys acc) \/ exists n x, In (n, x) fs /\ is_none x = false /\ k = strip_key n.
Proof.
  induction fs as [|[n x] r IH]; intros acc k; simpl.
  - split; [auto|intros [H|[? [? [[] _]]]]; exact H].
  - rewrite IH. unfold json_step; simpl. destruct (is_none x) eqn:Hx.
    + split.
      * intros [H|[n' [x' [Hin [Hn Hk]]]]]; [auto|right; exists n', x'; auto].
      * intros [H|[n' [x' [[Hin|Hin] [Hn Hk]]]]]; [auto| |right; exists n', x'; auto].
        inversion Hin; subst. congruence.
    + rewrite PyDictFacts.in_keys_set. split.
      * intros [[->|H]|[n' [x' [Hin [Hn Hk]]]]]; [right; exists n, x; auto|auto|right; exists n', x'; auto].
      * intros [H|[n' [x' [[Hin|Hin] [Hn Hk]]]]]; [auto| |right; exists n', x'; auto].
        inversion Hin; subst. left; left; reflexivity.
Qed.

(** C15: [to_json] drops exactly the fields that are [None] (and only
    those: [False], [0] and [""] are kept), and writes every other field
    under its name with a trailing [_] stripped. *)
Theorem to_json_keys c fs k :
  match to_json (VObj c fs) with
  | VDict d => In k (PyDict.keys d) <->
               exists n x, In (n, x) fs /\ is_none x = false /\ k = strip_key n
  | _ => False
  end.
Proof.
  rewrite to_json_fold. rewrite keys_fold_json_step. simpl. split; [intros [[]|H]; exact H|auto].
Qed.

(** ** The round trip [from_json] after [to_json] *)

(** A field and its value that survive the round trip: the name has no
    trailing [_], a [None] value is the field's default, and any other
    value is left as it is by the encoding (no dataclass inside). *)
Definition flat_field (f : field) (nx : string * pyval) : Prop :=
  f_name f = fst nx /\ endswith_underscore (f_name f) = false /\
  (if is_none (snd nx) then f_default f = Some VNone else enc_field (snd nx) = snd nx).

Definition non_none (nx : string * pyval) : bool := negb (is_none (snd nx)).

Lemma bind_kwargs_fresh names kw : forall bound,
  (forall k, In k (PyDict.keys kw) -> In k names) ->
  NoDup (PyDict.keys bound ++ PyDict.keys kw) ->
  bind_kwargs names bound kw = Ok (bound ++ kw).
Proof.
  induction kw as [|[k v] r IH]; intros bound Hin Hnd; simpl; [rewrite app_nil_r; reflexivity|].
  assert (Hk : In k names) by (apply Hin; left; reflexivity).
  apply existsb_eqb_in in Hk. rewrite Hk. simpl.
  assert (Hnk : ~ In k (PyDict.keys bound)).
  { intros H. apply NoDup_remove_2 in Hnd. apply Hnd, in_or_app. left. exact H. }
  assert (Hm : PyDict.mem bound k = false).
  { unfold PyDict.mem. rewrite PyDictFacts.get_notin by exact Hnk. reflexivity. }
  rewrite Hm, PyDictFacts.set_notin by exact Hnk. rewrite IH, <- app_assoc; [reflexivity| |].
  - intros k' H'. apply Hin. right. exact H'.
  - unfold PyDict.keys in *. rewrite map_app, <- app_assoc. exact Hnd.
Qed.

Lemma get_filter_non_none fs n :
  PyDict.wf fs ->
  PyDict.get (filter non_none fs) n =
  match PyDict.get fs n with Some x => if is_none x then None else Some x | None => None end.
Proof.
  unfold PyDict.wf; induction fs as [|[k x] r IH]; simpl; intros Hnd; [reflexivity|].
  inversion Hnd; subst. unfold non_none at 1; simpl.
  destruct (String.eqb_spec n k) as [->|Hne].
  - destruct (is_none x); simpl; [|rewrite String.eqb_refl; reflexivity].
    rewrite IH by assumption. rewrite PyDictFacts.get_notin by assumption. reflexivity.
  - destruct (is_none x); simpl; [auto|]. destruct (String.eqb_spec n k); [contradiction|auto].
Qed.

Lemma fill_fields_flat fields fs' kw fs :
  Forall2 flat_field fields fs' ->
  (forall n x, In (n, x) fs' -> PyDict.get fs n = Some x) ->
  PyDict.wf fs -> kw = filter non_none fs ->
  fill_fields fields kw = Ok fs'.
Proof.
  intros HF. induction HF as [|f [n x] fr r [Hn [_ Hx]] HF IH]; intros Hg Hwf ->; simpl; [reflexivity|].
  simpl in Hn. subst n. rewrite get_filter_non_none, (Hg (f_name f) x) by (auto; left; reflexivity).
  rewrite (IH (fun n' x' H' => Hg n' x' (or_intror H')) Hwf eq_refl).
  simpl in Hx. destruct (is_none x) eqn:Hnx.
  - rewrite Hx. destruct x; try discriminate. reflexivity.
  - reflexivity.
Qed.

(** C12: decoding what [to_json] encodes gives the object back, for an
    object of a dataclass with distinct field names, none ending in [_],
    whose [None] fields default to [None] and whose other fields hold no
    dataclass. *)
Theorem from_json_to_json c fs :
  Forall2 flat_field (dc_fields c) fs -> NoDup (dc_names c) ->
  from_json c (to_json (VObj (dc_name c) fs)) = Ok (VObj (dc_name c) fs).
Proof.
  intros HF Hnd.
  assert (Hnames : map fst fs = dc_names c).
  { unfold dc_names. induction HF as [|f nx fr r [Hn _] HF IH]; simpl; [reflexivity|].
    rewrite Hn, IH. reflexivity. }
  assert (Hwf : PyDict.wf fs) by (unfold PyDict.wf, PyDict.keys; rewrite Hnames; exact Hnd).
  assert (Hw : wire_fields fs = filter non_none fs).
  { unfold wire_fields. fold non_none. clear Hnames Hwf Hnd.
    induction HF as [|f [n x] fr r [Hn [Hu Hx]] HF IH]; simpl; [reflexivity|].
    unfold non_none in *; simpl in *. subst n.
    destruct (is_none x); simpl; [exact IH|]. rewrite IH. unfold strip_key. rewrite Hu, Hx. reflexivity. }
  assert (Hsub : forall k, In k (PyDict.keys (filter non_none fs)) -> In k (dc_names c)).
  { intros k Hk. unfold PyDict.keys in Hk. apply in_map_iff in Hk as [[k' x] [<- Hk]].
    apply filter_In in Hk as [Hk _]. rewrite <- Hnames. apply (in_map fst) in Hk. exact Hk. }
  assert (Hndf : NoDup (PyDict.keys (filter non_none fs))).
  { apply NoDup_map_filter. exact Hwf. }
  rewrite to_json_wire by (rewrite Hw; exact Hndf). rewrite Hw.
  unfold from_json, dc_init_kw, dc_init. simpl.
  rewrite bind_kwargs_fresh by (simpl; auto). simpl.
  erewrite fill_fields_flat; [reflexivity|exact HF| |exact Hwf|reflexivity].
  intros n x Hin. apply PyDictFacts.In_get; assumption.
Qed.

(** C13: the round trip fails for a dataclass with a field whose name ends
    in [_] (the [type_] of [UrlPatternString], [StringValue], ...): when
    the field is set, [to_json] writes it under the name without the
    underscore, which is not a parameter of the class, and decoding raises
    [TypeError].  The hypotheses are on the class alone: the object is an
    instance of it, its field names stay distinct once stripped, and no
    field is named like the stripped one. *)
Theorem from_json_to_json_underscore c fs n x :
  map fst fs = dc_names c -> NoDup (map strip_key (dc_names c)) ->
  In (n, x) fs -> is_none x = false -> endswith_underscore n = true ->
  ~ In (drop_last n) (dc_names c) ->
  exists msg, from_json c (to_json (VObj (dc_name c) fs)) = Exc (TypeError msg).
Proof.
  intros Hf Hnd Hin Hx Hu Hn.
  assert (Hw : NoDup (PyDict.keys (wire_fields fs))).
  { unfold wire_fields, PyDict.keys. rewrite map_map. simpl.
    apply (NoDup_map_filter (fun f => strip_key (fst f))).
    rewrite <- (map_map fst strip_key), Hf. exact Hnd. }
  rewrite to_json_wire by exact Hw.
  apply (dc_init_unknown_kw c (wire_fields fs) (strip_key n)).
  - unfold wire_fields. rewrite map_map. apply in_map_iff. exists (n, x).
    split; [reflexivity|]. apply filter_In. split; [exact Hin|]. simpl. rewrite Hx. reflexivity.
  - unfold strip_key. rewrite Hu. exact Hn.
Qed.

End Bidi.
