(* ===== verification/NetworkSchema.v ===== *)
(** The protocol schema of common/bidi/network.py: every dataclass of the
    module as a [dataclass] value (its name, its fields in declaration
    order and their defaults), and the low-level [Network] class whose
    methods build a command object from a parameter object and run its
    [cmd()] payload on the connection.  The connection's [execute] is a
    parameter of the section: any state and any reply. *)

From Stdlib Require Import String List ZArith Bool.
From S2P Require Import Prelude PyValue Bidi.
Import ListNotations.
Local Open Scope string_scope.

Module Schema.

(** [InterceptPhase = typing.Literal[...]] *)
Definition InterceptPhase : pytype := TLit ["beforeRequestSent"; "responseStarted"; "authRequired"].

Definition UrlPatternPattern : dataclass :=
  mk_dc "UrlPatternPattern"
    [optional "type_" (TLit ["pattern"]) (VStr "pattern");
     optional "protocol" (TOpt TStr) VNone; optional "hostname" (TOpt TStr) VNone;
     optional "port" (TOpt TStr) VNone; optional "pathname" (TOpt TStr) VNone;
     optional "search" (TOpt TStr) VNone].

Definition UrlPatternString : dataclass :=
  mk_dc "UrlPatternString" [required "pattern" TStr; optional "type_" (TLit ["string"]) (VStr "string")].

(** [UrlPattern = typing.Union[UrlPatternPattern, UrlPatternString]] *)
Definition UrlPattern : pytype := TUnion [TClass "UrlPatternPattern"; TClass "UrlPatternString"].

Definition AddInterceptParameters : dataclass :=
  mk_dc "AddInterceptParameters"
    [required "phases" (TList InterceptPhase); optional "contexts" (TOpt (TList TAny)) VNone;
     optional "urlPatterns" (TOpt (TList UrlPattern)) VNone].

Definition AddIntercept : dataclass :=
  mk_dc "AddIntercept"
    [required "params" (TClass "AddInterceptParameters");
     optional "method" (TLit ["network.addIntercept"]) (VStr "network.addIntercept")].

(** [Request = str] *)
Definition Request : pytype := TStr.

Definition StringValue : dataclass :=
  mk_dc "StringValue" [required "value" TStr; optional "type_" (TLit ["string"]) (VStr "string")].

Definition Base64Value : dataclass :=
  mk_dc "Base64Value" [required "value" TStr; optional "type_" (TLit ["base64"]) (VStr "base64")].

(** [BytesValue = typing.Union[StringValue, Base64Value]] *)
Definition BytesValue : pytype := TUnion [TClass "StringValue"; TClass "Base64Value"].

Definition CookieHeader : dataclass :=
  mk_dc "CookieHeader" [required "name" TStr; required "value" BytesValue].

Definition Header : dataclass := mk_dc "Header" [required "name" TStr; required "value" BytesValue].

Definition ContinueRequestParameters : dataclass :=
  mk_dc "ContinueRequestParameters"
    [required "request" Request; optional "body" (TOpt BytesValue) VNone;
     optional "cookies" (TOpt (TList (TClass "CookieHeader"))) VNone;
     optional "headers" (TOpt (TList (TClass "Header"))) VNone;
     optional "method" (TOpt TStr) VNone; optional "url" (TOpt TStr) VNone].

Definition ContinueRequest : dataclass :=
  mk_dc "ContinueRequest"
    [required "params" (TClass "ContinueRequestParameters");
     optional "method" (TLit ["network.continueRequest"]) (VStr "network.continueRequest")].

(** [Intercept = str] *)
Definition Intercept : pytype := TStr.

Definition RemoveInterceptParameters : dataclass :=
  mk_dc "RemoveInterceptParameters" [required "intercept" Intercept].

Definition RemoveIntercept : dataclass :=
  mk_dc "RemoveIntercept"
    [required "params" (TClass "RemoveInterceptParameters");
     optional "method" (TLit ["network.removeIntercept"]) (VStr "network.removeIntercept")].

(** [SameSite = typing.Literal["strict", "lax", "none"]] *)
Definition SameSite : pytype := TLit ["strict"; "lax"; "none"].

Definition Cookie : dataclass :=
  mk_dc "Cookie"
    [required "name" TStr; required "value" BytesValue; required "domain" TStr;
     required "path" TStr; required "size" TInt; required "httpOnly" TBool;
     required "secure" TBool; required "sameSite" SameSite; optional "expiry" (TOpt TInt) VNone].

Definition FetchTimingInfo : dataclass :=
  mk_dc "FetchTimingInfo"
    (map (fun n => required n TFloat)
       ["timeOrigin"; "requestTime"; "redirectStart"; "redirectEnd"; "fetchStart";
        "dnsStart"; "dnsEnd"; "connectStart"; "connectEnd"; "tlsStart";
        "requestStart"; "responseStart"; "responseEnd"]).

Definition RequestData : dataclass :=
  mk_dc "RequestData"
    [required "request" Request; required "url" TStr; required "method" TStr;
     required "headersSize" TInt; required "timings" (TClass "FetchTimingInfo");
     optional "headers" (TOpt (TList (TClass "Header"))) VNone;
     optional "cookies" (TOpt (TList (TClass "Cookie"))) VNone;
     optional "bodySize" (TOpt TInt) VNone].

Definition Initiator : dataclass :=
  mk_dc "Initiator"
    [required "type_" (TLit ["parser"; "script"; "preflight"; "other"]);
     optional "columnNumber" (TOpt TInt) VNone; optional "lineNumber" (TOpt TInt) VNone;
     optional "stackTrace" (TOpt TAny) VNone; optional "request" (TOpt Request) VNone].

Definition BeforeRequestSentParameters : dataclass :=
  mk_dc "BeforeRequestSentParameters"
    [required "isBlocked" TBool; required "redirectCount" TInt;
     required "request" (TClass "RequestData"); required "timestamp" TInt;
     required "initiator" (TClass "Initiator"); optional "context" (TOpt TAny) VNone;
     optional "navigation" (TOpt TAny) VNone;
     optional "intercepts" (TOpt (TList Intercept)) VNone].

(** [@event_class("network.beforeRequestSent")]: the event's name. *)
Definition BeforeRequestSent_event_class : string := "network.beforeRequestSent".

Definition BeforeRequestSent : dataclass :=
  mk_dc "BeforeRequestSent"
    [required "params" (TClass "BeforeRequestSentParameters");
     optional "method" (TLit [BeforeRequestSent_event_class]) (VStr BeforeRequestSent_event_class)].

(** The classes of the module, for the annotations that name them. *)
Definition classes : list dataclass :=
  [UrlPatternPattern; UrlPatternString; AddInterceptParameters; AddIntercept; StringValue;
   Base64Value; CookieHeader; Header; ContinueRequestParameters; ContinueRequest;
   RemoveInterceptParameters; RemoveIntercept; Cookie; FetchTimingInfo; RequestData;
   Initiator; BeforeRequestSentParameters; BeforeRequestSent].

(** [BeforeRequestSent.from_json]: the event decoder of the listener. *)
Definition decode_before_request_sent (json : pyval) : res pyval :=
  Bidi.event_from_json BeforeRequestSent BeforeRequestSentParameters json.

(** ** The low-level [Network] of common/bidi/network.py *)

Section LowLevel.
Context {S : Type} (execute : pyval -> PyM S pyval).

(** [conn.execute(C(params).cmd())] *)
Definition run_command (c : dataclass) (params : pyval) : PyM S pyval :=
  command <- lift (dc_init c [params] []) ;;
  execute (Bidi.cmd command).

Definition add_intercept (params : pyval) : PyM S pyval := run_command AddIntercept params.

Definition continue_request (params : pyval) : PyM S pyval := run_command ContinueRequest params.

(** [remove_intercept] discards the reply and returns [None]. *)
Definition remove_intercept (params : pyval) : PyM S pyval :=
  _ <- run_command RemoveIntercept params ;; ret VNone.
End LowLevel.

(** ** Construction of the command objects

    The constructors the code calls with well-formed arguments cannot
    raise: each lemma is the object the generated [__init__] builds. *)

Create Rewrite HintDb schema_rw.

Lemma init_RemoveInterceptParameters (id : string) :
  dc_init RemoveInterceptParameters [VStr id] [] =
  Ok (VObj "RemoveInterceptParameters" [("intercept", VStr id)]).
Proof. reflexivity. Qed.

Lemma init_RemoveIntercept p :
  dc_init RemoveIntercept [p] [] =
  Ok (VObj "RemoveIntercept" [("params", p); ("method", VStr "network.removeIntercept")]).
Proof. reflexivity. Qed.

Lemma init_AddIntercept p :
  dc_init AddIntercept [p] [] =
  Ok (VObj "AddIntercept" [("params", p); ("method", VStr "network.addIntercept")]).
Proof. reflexivity. Qed.

Lemma init_ContinueRequest p :
  dc_init ContinueRequest [p] [] =
  Ok (VObj "ContinueRequest" [("params", p); ("method", VStr "network.continueRequest")]).
Proof. reflexivity. Qed.

Lemma init_AddInterceptParameters phases pats :
  dc_init AddInterceptParameters [] [("phases", phases); ("urlPatterns", pats)] =
  Ok (VObj "AddInterceptParameters" [("phases", phases); ("contexts", VNone); ("urlPatterns", pats)]).
Proof. reflexivity. Qed.

#[global] Hint Rewrite init_RemoveInterceptParameters init_RemoveIntercept init_AddIntercept
  init_ContinueRequest init_AddInterceptParameters : schema_rw.

(** ** Witnesses of the message-model theorems on the schema's classes *)

Definition continue_fields : list (string * pyval) :=
  [("request", VStr "r1"); ("body", VNone); ("cookies", VNone); ("headers", VNone);
   ("method", VStr "GET"); ("url", VStr "u3")].

Lemma from_json_to_json_witness :
  Bidi.from_json ContinueRequestParameters
    (Bidi.to_json (VObj (dc_name ContinueRequestParameters) continue_fields)) =
  Ok (VObj (dc_name ContinueRequestParameters) continue_fields).
Proof.
  apply Bidi.from_json_to_json.
  - repeat constructor.
  - vm_compute. repeat constructor; simpl; intuition discriminate.
Defined.

Lemma from_json_to_json_underscore_witness :
  exists msg, Bidi.from_json UrlPatternString
    (Bidi.to_json (VObj (dc_name UrlPatternString) [("pattern", VStr "u1"); ("type_", VStr "string")])) =
  Exc (TypeError msg).
Proof.
  apply (Bidi.from_json_to_json_underscore UrlPatternString _ "type_" (VStr "string")).
  - reflexivity.
  - vm_compute. repeat constructor; simpl; intuition discriminate.
  - right. left. reflexivity.
  - reflexivity.
  - reflexivity.
  - vm_compute. intuition discriminate.
Defined.

End Schema.

(** ** The two classes of browsing_context.py (not under src/) that
    [Network.get] uses, written from the protocol's [browsingContext.navigate]. *)

Module BrowsingContext.

(** [ReadinessState = typing.Literal["none", "interactive", "complete"]] *)
Definition ReadinessState : pytype := TLit ["none"; "interactive"; "complete"].

Definition NavigateParameters : dataclass :=
  mk_dc "NavigateParameters"
    [required "context" TStr; required "url" TStr; optional "wait" (TOpt ReadinessState) VNone].

Definition Navigate : dataclass :=
  mk_dc "Navigate"
    [required "params" (TClass "NavigateParameters");
     optional "method" (TLit ["browsingContext.navigate"]) (VStr "browsingContext.navigate")].

End BrowsingContext.
