(* ===== verification/Channel.v ===== *)
(** The connection the interception manager runs on (common/bidi/cdp.py
    and session.py, which are not under src/): the type class [Channel]
    states what the manager uses of it, [execute] of a command payload with
    its reply or its error.  The event streams that [conn.listen] opens are
    kept by the manager's world (file [Intercepts]).  The payloads of
    [session_subscribe] and [session_unsubscribe] are written from the
    protocol.  [RefBrowser] is a reference remote end implementing the
    class: it hands out fresh intercept ids, forgets removed ones, rejects
    the removal of an unknown id and accepts every continuation and
    navigation. *)

From Stdlib Require Import String List ZArith Bool DecimalString.
From S2P Require Import Prelude PyValue.
Import ListNotations.
Local Open Scope string_scope.

(** What the manager needs of the connection: [await conn.execute(cmd)]
    runs the command whose payload the command's generator yields and
    answers with the reply, or raises. *)
Class Channel : Type := {
  chan_state : Type;
  chan_execute : pyval -> chan_state -> res pyval * chan_state
}.

(** The payload of [session_subscribe(event_name)]. *)
Definition session_subscribe (event_name : pyval) : pyval :=
  VDict [("method", VStr "session.subscribe"); ("params", VDict [("events", VList [event_name])])].

(** The payload of [session_unsubscribe(event_name)]. *)
Definition session_unsubscribe (event_name : pyval) : pyval :=
  VDict [("method", VStr "session.unsubscribe"); ("params", VDict [("events", VList [event_name])])].

(** The method name of a command payload, if it has one. *)
Definition payload_method (p : pyval) : option string :=
  match p with
  | VDict d => match PyDict.get d "method" with Some (VStr m) => Some m | _ => None end
  | _ => None
  end.

(** The parameters of a command payload ([{}] when absent). *)
Definition payload_params (p : pyval) : list (string * pyval) :=
  match p with
  | VDict d => match PyDict.get d "params" with Some (VDict q) => q | _ => [] end
  | _ => []
  end.

(** The event names a [session.subscribe] / [session.unsubscribe] payload
    carries in its [events] list. *)
Definition payload_events (p : pyval) : list string :=
  match PyDict.get (payload_params p) "events" with
  | Some (VList xs) => flat_map (fun x => match x with VStr e => [e] | _ => [] end) xs
  | _ => []
  end.

(** ** A reference remote end *)

Module RefBrowser.

Record state := mk_state {
  next_id : nat;
  live : list string;        (* intercept ids the remote end holds *)
  subscribed : list string   (* event names it sends *)
}.

Definition initial : state := mk_state 0 [] [].

Definition fresh_id (n : nat) : string := "intercept-" ++ NilEmpty.string_of_uint (Nat.to_uint n).

Definition execute (p : pyval) (s : state) : res pyval * state :=
  let params := payload_params p in
  match payload_method p with
  | Some "session.subscribe" =>
      (Ok (VDict []), mk_state (next_id s) (live s) (payload_events p ++ subscribed s))
  | Some "session.unsubscribe" =>
      (Ok (VDict []), mk_state (next_id s) (live s)
                        (filter (fun e => negb (existsb (String.eqb e) (payload_events p))) (subscribed s)))
  | Some "network.addIntercept" =>
      let id := fresh_id (next_id s) in
      (Ok (VDict [("intercept", VStr id)]), mk_state (S (next_id s)) (live s ++ [id]) (subscribed s))
  | Some "network.removeIntercept" =>
      match PyDict.get params "intercept" with
      | Some (VStr id) =>
          if existsb (String.eqb id) (live s)
          then (Ok (VDict []), mk_state (next_id s) (filter (fun i => negb (String.eqb i id)) (live s)) (subscribed s))
          else (Exc (ProtocolError "no such intercept"), s)
      | _ => (Exc (ProtocolError "invalid argument"), s)
      end
  | Some "network.continueRequest" => (Ok (VDict []), s)
  | Some "browsingContext.navigate" => (Ok (VDict [("navigation", VNone)]), s)
  | _ => (Exc (ProtocolError "unknown command"), s)
  end.

End RefBrowser.

#[export] Instance RefBrowserChannel : Channel := {
  chan_state := RefBrowser.state;
  chan_execute := RefBrowser.execute
}.
