(* ===== verification/Intercepts.v ===== *)
(** The interception manager of remote/network.py, class [Network].

    State: the manager's two dicts ([listeners]: event name to the event
    stream its listening task iterates; [intercepts]: intercept id to its
    event name and handler list, a [defaultdict] whose missing keys get
    [{"event_name": None, "handlers": []}]), and around it the world the
    manager runs in: the connection's state, the payloads written to the
    connection in order, the nursery's tasks (a task started with
    [start_soon] that has not run yet, or a listening loop blocked on its
    stream), the streams [conn.listen] has opened and not closed, and
    whether an exception escaped a nursery task (which cancels the
    nursery: nothing runs after it).

    Operations: one definition per method, composed as the code composes
    them ([add_request_handler] calls [add_handler], which starts the
    [add_listener] task; the loop of [add_listener] calls [handle_events],
    which calls [handle_requests] and [continue_request]; [clear_intercepts]
    calls [remove_intercept], which calls [remove_listener]). *)

From Stdlib Require Import String Ascii List ZArith Bool Lia.
From S2P Require Import Prelude PyValue Bidi NetworkSchema Channel.
Import ListNotations.
Local Open Scope string_scope.
Local Open Scope list_scope.

Module Intercepts.

(** A request handler: a Python callable from the captured request to its
    replacement; it may raise. *)
Definition handler := pyval -> res pyval.

(** A value of [self.intercepts]: [{"event_name": ..., "handlers": [...]}]. *)
Record entry := mk_entry { event_name : option string; handlers : list handler }.

(** The [defaultdict] factory of [self.intercepts]. *)
Definition default_entry : entry := mk_entry None [].

Record NetState := mk_net { listeners : PyDict.t nat; intercepts : PyDict.t entry }.

(** [Network.__init__]: both dicts empty. *)
Definition init_net : NetState := mk_net [] [].

Inductive task : Type :=
| TaskStart (ev : string)
| TaskLoop (ev : string) (stream : nat).

(** The WebDriver the [Network] was created with ([self.driver]): the
    handle of the window it reports ([driver.current_window_handle]) and
    the Chrome DevTools commands sent through it ([driver.execute_cdp_cmd],
    outside the BiDi connection). *)
Record Driver := mk_driver { current_window_handle : string; cdp_cmds : list (string * pyval) }.

Section WithChannel.
Context `{CH : Channel}.

Record World := mk_world {
  net : NetState;
  chan : chan_state;
  sent : list pyval;
  tasks : list task;
  streams : list (nat * string);
  next_stream : nat;
  crashed : option pyexc;
  driver : Driver
}.

Definition set_listeners (l : PyDict.t nat) (w : World) : World :=
  mk_world (mk_net l (intercepts (net w))) (chan w) (sent w) (tasks w) (streams w) (next_stream w) (crashed w) (driver w).
Definition set_intercepts (i : PyDict.t entry) (w : World) : World :=
  mk_world (mk_net (listeners (net w)) i) (chan w) (sent w) (tasks w) (streams w) (next_stream w) (crashed w) (driver w).
Definition set_tasks (ts : list task) (w : World) : World :=
  mk_world (net w) (chan w) (sent w) ts (streams w) (next_stream w) (crashed w) (driver w).
Definition set_streams (ss : list (nat * string)) (n : nat) (w : World) : World :=
  mk_world (net w) (chan w) (sent w) (tasks w) ss n (crashed w) (driver w).
Definition set_chan (c : chan_state) (p : pyval) (w : World) : World :=
  mk_world (net w) c (sent w ++ [p]) (tasks w) (streams w) (next_stream w) (crashed w) (driver w).
Definition set_crashed (e : option pyexc) (w : World) : World :=
  mk_world (net w) (chan w) (sent w) (tasks w) (streams w) (next_stream w) e (driver w).

Definition set_driver (d : Driver) (w : World) : World :=
  mk_world (net w) (chan w) (sent w) (tasks w) (streams w) (next_stream w) (crashed w) d.

(** The world of a fresh [Network] of driver [d] inside [set_context]. *)
Definition init_world (c : chan_state) (d : Driver) : World := mk_world init_net c [] [] [] 0 None d.

Local Notation M := (PyM World).

(** ** Primitive effects of the connection *)

(** [conn.listen(event)]: a new open stream of that event type. *)
Definition conn_listen (ev : string) : M nat :=
  fun w => (Ok (next_stream w), set_streams (streams w ++ [(next_stream w, ev)]) (S (next_stream w)) w).

(** [listener.close()] *)
Definition stream_close (s : nat) : M unit :=
  modify (fun w => set_streams (filter (fun p => negb (Nat.eqb (fst p) s)) (streams w)) (next_stream w) w).

(** [add_listener] up to its first blocking point: if no listener exists
    for the event, open a stream and register it (lines 61-64); the task
    then iterates that stream. *)
Definition add_listener_start (ev : string) : M (option nat) :=
  w <- get ;;
  if PyDict.mem (listeners (net w)) ev then ret None
  else s <- conn_listen ev ;;
       modify (fun w => set_listeners (PyDict.set (listeners (net w)) ev s) w) ;;
       ret (Some s).

(** The nursery runs its pending starts, in the order they were started. *)
Fixpoint run_starts (ts : list task) : M (list task) :=
  match ts with
  | [] => ret []
  | TaskStart ev :: r =>
      o <- add_listener_start ev ;;
      rest <- run_starts r ;;
      ret (match o with Some s => TaskLoop ev s :: rest | None => rest end)
  | t :: r => rest <- run_starts r ;; ret (t :: rest)
  end.

Definition checkpoint : M unit :=
  w <- get ;; ts <- run_starts (tasks w) ;; modify (set_tasks ts).

(** [await conn.execute(command)]: a checkpoint, then the payload goes out
    and the reply (or the error) comes back. *)
Definition conn_execute (p : pyval) : M pyval :=
  checkpoint ;;
  fun w => let '(r, c) := chan_execute p (chan w) in (r, set_chan c p w).

(** ** The methods of [Network] *)

(** [self.intercepts[key]] on the [defaultdict]: a missing key is inserted
    with the default entry. *)
Definition intercepts_getitem (key : string) : M entry :=
  w <- get ;;
  match PyDict.get (intercepts (net w)) key with
  | Some e => ret e
  | None => modify (set_intercepts (PyDict.set (intercepts (net w)) key default_entry)) ;;
            ret default_entry
  end.

Definition set_intercept (key : string) (e : entry) : M unit :=
  modify (fun w => set_intercepts (PyDict.set (intercepts (net w)) key e) w).

(** The key of [self.intercepts] an intercept id from the wire gives.  The
    protocol's ids are strings ([Intercept = str]); another value is
    outside the model and raises here. *)
Definition as_key (v : pyval) : res string :=
  match v with
  | VStr s => Ok s
  | _ => Exc (TypeError "intercept id is not a str")
  end.

(** [phase_name = event_name.split(".")[-1]], line 75. *)
Definition phase_name (ev : string) : string := last_seg (split_on "."%char ev).

(** [AddInterceptParameters(phases=[phase_name], urlPatterns=urlPatterns)], line 79. *)
Definition add_intercept_params (ev : string) (urlPatterns : pyval) : res pyval :=
  dc_init Schema.AddInterceptParameters []
    [("phases", VList [VStr (phase_name ev)]); ("urlPatterns", urlPatterns)].

(** [add_handler(event, handler, urlPatterns)], lines 73-86. *)
Definition add_handler (ev : string) (h : handler) (urlPatterns : pyval) : M string :=
  _ <- conn_execute (session_subscribe (VStr ev)) ;;
  params <- lift (add_intercept_params ev urlPatterns) ;;
  result <- Schema.add_intercept conn_execute params ;;
  iv <- lift (getitem result "intercept") ;;
  intercept <- lift (as_key iv) ;;
  e1 <- intercepts_getitem intercept ;;
  set_intercept intercept (mk_entry (Some ev) (handlers e1)) ;;
  e2 <- intercepts_getitem intercept ;;
  set_intercept intercept (mk_entry (event_name e2) (handlers e2 ++ [h])) ;;
  modify (fun w => set_tasks (tasks w ++ [TaskStart ev]) w) ;;
  ret intercept.

(** [add_request_handler(handler, urlPatterns)], lines 88-90. *)
Definition add_request_handler (h : handler) (urlPatterns : pyval) : M string :=
  add_handler Schema.BeforeRequestSent_event_class h urlPatterns.

(** [request = handler(request)] for every handler of one intercept. *)
Fixpoint run_handlers (hs : list handler) (request : pyval) : res pyval :=
  match hs with
  | [] => Ok request
  | h :: r => match h request with
              | Ok request' => run_handlers r request'
              | Exc e => Exc e
              end
  end.

(** The outer loop of [handle_requests], over [params.intercepts]. *)
Fixpoint handle_loop (ids : list pyval) (request : pyval) : M pyval :=
  match ids with
  | [] => ret request
  | i :: r =>
      key <- lift (as_key i) ;;
      e <- intercepts_getitem key ;;
      request' <- lift (run_handlers (handlers e) request) ;;
      handle_loop r request'
  end.

(** [handle_requests(params)], lines 98-103. *)
Definition handle_requests (params : pyval) : M pyval :=
  request <- lift (getattr params "request") ;;
  ids_v <- lift (getattr params "intercepts") ;;
  ids <- lift (py_iter ids_v) ;;
  handle_loop ids request.

(** [handle_events(event_params)], lines 92-96. *)
Definition handle_events (event_params : pyval) : M unit :=
  if isinstance event_params "BeforeRequestSentParameters" then
    json <- handle_requests event_params ;;
    params <- lift (dc_init_kw Schema.ContinueRequestParameters json) ;;
    _ <- Schema.continue_request conn_execute params ;;
    ret tt
  else ret tt.

(** One turn of the [async for] loop of [add_listener], lines 66-69, with
    [handle_events] as the callback. *)
Definition listener_iteration (ev_obj : pyval) : M unit :=
  request_data <- lift (getattr ev_obj "params") ;;
  blocked <- lift (getattr request_data "isBlocked") ;;
  if truthy blocked then handle_events request_data else ret tt.

(** [remove_listener(event_name)], lines 105-107. *)
Definition remove_listener (name : option string) : M unit :=
  match name with
  | None => raise (KeyError "None")
  | Some ev =>
      w <- get ;;
      match PyDict.pop (listeners (net w)) ev with
      | None => raise (KeyError ev)
      | Some (s, rest) => modify (set_listeners rest) ;; stream_close s
      end
  end.

Definition name_to_py (o : option string) : pyval :=
  match o with Some s => VStr s | None => VNone end.

Definition name_eqb (a b : option string) : bool :=
  match a, b with
  | Some x, Some y => String.eqb x y
  | None, None => true
  | _, _ => false
  end.

(** [remove_intercept(intercept)], lines 109-117. *)
Definition remove_intercept (intercept : string) : M unit :=
  params <- lift (dc_init Schema.RemoveInterceptParameters [VStr intercept] []) ;;
  _ <- Schema.remove_intercept conn_execute params ;;
  w <- get ;;
  match PyDict.pop (intercepts (net w)) intercept with
  | None => raise (KeyError intercept)
  | Some (e, rest) =>
      modify (set_intercepts rest) ;;
      let remaining := filter (fun i => name_eqb (event_name i) (event_name e)) (PyDict.values rest) in
      if Nat.eqb (length remaining) 0 then
        remove_listener (event_name e) ;;
        _ <- conn_execute (session_unsubscribe (name_to_py (event_name e))) ;;
        ret tt
      else ret tt
  end.

(** The [for] loop of [clear_intercepts] over the dict it mutates: each
    [next()] first compares the dict's size with its size when the loop
    began ([RuntimeError] if they differ), then yields the key at the
    iterator's position or stops. *)
Fixpoint clear_loop (fuel n i : nat) : M unit :=
  match fuel with
  | O => ret tt
  | S fuel' =>
      w <- get ;;
      let ks := PyDict.keys (intercepts (net w)) in
      if negb (Nat.eqb (length ks) n)
      then raise (RuntimeError "dictionary changed size during iteration")
      else match nth_error ks i with
           | None => ret tt
           | Some k => remove_intercept k ;; clear_loop fuel' n (S i)
           end
  end.

(** [clear_intercepts()], lines 119-121. *)
Definition clear_intercepts : M unit :=
  w <- get ;;
  let n := length (PyDict.keys (intercepts (net w))) in
  clear_loop (S n) n 0.

(** [get(url, wait)], lines 56-58 (named [network_get] here, [get] being
    the state monad's): a [browsingContext.navigate] of the driver's
    current window.  The navigation itself is the browser's. *)
Definition network_get (url : string) (wait : pyval) : M unit :=
  w <- get ;;
  params <- lift (dc_init BrowsingContext.NavigateParameters []
                    [("context", VStr (current_window_handle (driver w))); ("url", VStr url);
                     ("wait", wait)]) ;;
  command <- lift (dc_init BrowsingContext.Navigate [params] []) ;;
  _ <- conn_execute (Bidi.cmd command) ;;
  ret tt.

(** [disable_cache()], lines 123-125: a DevTools command through the
    driver, outside the BiDi connection; [execute_cdp_cmd] is synchronous,
    so there is no checkpoint. *)
Definition disable_cache : M unit :=
  modify (fun w => set_driver
    (mk_driver (current_window_handle (driver w))
       (cdp_cmds (driver w) ++ [("Network.setCacheDisabled", VDict [("cacheDisabled", VBool true)])])) w).

(** ** The session: the caller's calls and the nursery's tasks interleaved *)

(** The calls the caller makes of the public API. *)
Inductive call : Type :=
| CallAddRequestHandler (h : handler) (urlPatterns : pyval)
| CallRemoveIntercept (intercept : string)
| CallClearIntercepts
| CallGet (url : string) (wait : pyval)
| CallDisableCache.

Definition run_call (c : call) : M unit :=
  match c with
  | CallAddRequestHandler h p => _ <- add_request_handler h p ;; ret tt
  | CallRemoveIntercept i => remove_intercept i
  | CallClearIntercepts => clear_intercepts
  | CallGet url wait => network_get url wait
  | CallDisableCache => disable_cache
  end.

(** The tasks without the listening loop on stream [s]. *)
Definition drop_loop (s : nat) (ts : list task) : list task :=
  filter (fun t => match t with TaskLoop _ s' => negb (Nat.eqb s s') | TaskStart _ => true end) ts.

(** How one turn of a listening loop ends: normally; by
    [ClosedResourceError], which the loop's [except] turns into the end of
    the task; or by any other exception, which escapes the task and
    cancels the nursery. *)
Definition after_iteration (s : nat) (r : res unit) (w : World) : World :=
  match r with
  | Ok _ => w
  | Exc ClosedResourceError => set_tasks (drop_loop s (tasks w)) w
  | Exc e => set_crashed (Some e) w
  end.

(** The steps of a session inside [set_context]: a call of the caller
    (which may raise to the caller, who may go on); the nursery running
    the tasks started with [start_soon]; a listening loop receiving an
    event on its open stream, decoded by [BeforeRequestSent.from_json];
    a listening loop whose stream was closed ending. *)
Inductive step : World -> World -> Prop :=
| step_call c w r w' :
    crashed w = None -> run_call c w = (r, w') -> step w w'
| step_run_starts w :
    crashed w = None -> step w (snd (checkpoint w))
| step_event ev s json ev_obj w r w' :
    crashed w = None -> In (TaskLoop ev s) (tasks w) -> In (s, ev) (streams w) ->
    Schema.decode_before_request_sent json = Ok ev_obj ->
    listener_iteration ev_obj w = (r, w') ->
    step w (after_iteration s r w')
| step_closed ev s w :
    crashed w = None -> In (TaskLoop ev s) (tasks w) -> ~ In (s, ev) (streams w) ->
    step w (set_tasks (drop_loop s (tasks w)) w).

(** The worlds a session reaches from a fresh [Network]. *)
Inductive reachable : World -> Prop :=
| reach_init c d : reachable (init_world c d)
| reach_step w w' : reachable w -> step w w' -> reachable w'.

End WithChannel.

End Intercepts.
