(* ===== verification/InterceptsInv.v ===== *)
(** The registry invariant of remote/network.py and its preservation.

    [Inv] says: both dicts have distinct keys; every event name with a
    listener has a live rule (an intercept entry naming it), and every
    event name with a live rule has a listener or a started task that will
    register one; a started task's event has a live rule; the open streams
    are exactly the registered listeners (so one stream per event type) and
    their ids are distinct and below the next id; every entry names the
    [beforeRequestSent] event or nothing (the [defaultdict] placeholder).
    [Inv] holds in every reachable world (lemma [reachable_Inv]), by rule
    induction on [step], through one preservation lemma per operation. *)

From Stdlib Require Import String Ascii List Permutation ZArith Bool Lia.
From S2P Require Import Prelude PyValue Bidi NetworkSchema Channel Intercepts.
Import ListNotations.
Import Intercepts.
Local Open Scope string_scope.
Local Open Scope list_scope.

Module InterceptsInv.

(** The event names of the started tasks that have not run yet. *)
Definition starts (ts : list task) : list string :=
  flat_map (fun t => match t with TaskStart e => [e] | TaskLoop _ _ => [] end) ts.

Lemma starts_app ts1 ts2 : starts (ts1 ++ ts2) = starts ts1 ++ starts ts2.
Proof. unfold starts. apply flat_map_app. Qed.

Create HintDb inv_db discriminated.

Section Inv.
Context `{CH : Channel}.
Implicit Types (w : World).

Definition has_rule w (e : string) : Prop :=
  In (Some e) (map event_name (PyDict.values (intercepts (net w)))).

Definition lkeys w : list string := PyDict.keys (listeners (net w)).

(** The part of the invariant about listeners and streams. *)
Record LisInv w : Prop := {
  li_wf : PyDict.wf (listeners (net w));
  li_streams : forall s e, In (s, e) (streams w) <-> In (e, s) (listeners (net w));
  li_fresh : forall s e, In (s, e) (streams w) -> s < next_stream w;
  li_ids : NoDup (map fst (streams w))
}.

(** The registry invariant; [skip] names an event whose listener may
    momentarily lack a rule (inside [remove_intercept]). *)
Record InvX (skip : option string) w : Prop := {
  inv_lis : LisInv w;
  inv_wf_i : PyDict.wf (intercepts (net w));
  inv_lis_rule : forall e, In e (lkeys w) -> Some e = skip \/ has_rule w e;
  inv_rule_lis : forall e, has_rule w e -> In e (lkeys w) \/ In e (starts (tasks w));
  inv_start_rule : forall e, In e (starts (tasks w)) -> has_rule w e;
  inv_names : forall en, In en (PyDict.values (intercepts (net w))) ->
      event_name en = None \/ event_name en = Some Schema.BeforeRequestSent_event_class
}.

Definition Inv := InvX None.

(** What a step leaves alone when it only touches listeners and streams. *)
Definition lis_only w w' : Prop :=
  intercepts (net w') = intercepts (net w) /\ chan w' = chan w /\ sent w' = sent w /\
  tasks w' = tasks w /\ crashed w' = crashed w.

Lemma lis_only_refl w : lis_only w w.
Proof. repeat split. Qed.

Lemma lis_only_trans w1 w2 w3 : lis_only w1 w2 -> lis_only w2 w3 -> lis_only w1 w3.
Proof. intros (?&?&?&?&?) (?&?&?&?&?); repeat split; congruence. Qed.

(** [LisInv] reads only the listeners, the streams and the next id. *)
Lemma LisInv_ext w w' :
  listeners (net w') = listeners (net w) -> streams w' = streams w -> next_stream w' = next_stream w ->
  LisInv w -> LisInv w'.
Proof. intros Hl Hs Hn [A B C D]; constructor; rewrite ?Hl, ?Hs, ?Hn; assumption. Qed.

Lemma add_listener_start_eq ev w :
  add_listener_start ev w =
  if PyDict.mem (listeners (net w)) ev then (Ok None, w)
  else (Ok (Some (next_stream w)),
        set_listeners (PyDict.set (listeners (net w)) ev (next_stream w))
          (set_streams (streams w ++ [(next_stream w, ev)]) (S (next_stream w)) w)).
Proof. unfold add_listener_start, bind, get, ret, modify, conn_listen. destruct (PyDict.mem _ _); reflexivity. Qed.

(** [add_listener] registers a stream for [ev] unless one exists. *)
Lemma add_listener_start_lis ev w r w' :
  LisInv w -> add_listener_start ev w = (r, w') ->
  LisInv w' /\ lis_only w w' /\ In ev (lkeys w') /\
  (forall e, In e (lkeys w') <-> e = ev \/ In e (lkeys w)).
Proof.
  intros [Hwf Hs Hf Hid] H. rewrite add_listener_start_eq in H.
  destruct (PyDict.mem (listeners (net w)) ev) eqn:Hm.
  - inversion H; subst. apply PyDictFacts.mem_get in Hm as [v Hv].
    apply PyDictFacts.get_in_keys in Hv.
    split; [constructor; auto|split; [apply lis_only_refl|split; [exact Hv|]]].
    intros e; split; [tauto|intros [->|He]; auto].
  - inversion H; subst; clear H. unfold lkeys; simpl.
    assert (Hn : ~ In ev (PyDict.keys (listeners (net w)))).
    { intros Hin. apply PyDictFacts.in_keys_get in Hin as [v Hv].
      rewrite (proj2 (PyDictFacts.mem_get _ _) (ex_intro _ v Hv)) in Hm. discriminate. }
    rewrite PyDictFacts.keys_set_notin by exact Hn.
    split; [constructor|split; [repeat split|split]].
    + simpl. apply PyDictFacts.wf_set. exact Hwf.
    + intros s e; simpl. rewrite in_app_iff, PyDictFacts.in_set by exact Hwf. simpl.
      rewrite Hs. split.
      * intros [H|[H|[]]]; [right; split; [|exact H]|left; inversion H; auto].
        intros ->. apply Hn. apply (in_map fst) in H. exact H.
      * intros [[-> ->]|[_ H]]; [right; left; reflexivity|left; exact H].
    + intros s e; simpl. rewrite in_app_iff. intros [H|[H|[]]]; [apply Hf in H; lia|inversion H; lia].
    + simpl. rewrite map_app. apply NoDup_app; [exact Hid|repeat constructor; simpl; tauto|].
      intros x Hx [Hy|[]]; subst. apply in_map_iff in Hx as [[s e] [Hx Hin]].
      simpl in Hx; subst. apply Hf in Hin. lia.
    + apply in_or_app. right. left. reflexivity.
    + intros e. rewrite in_app_iff. simpl. intuition (subst; auto).
Qed.

(** The nursery's pending starts, run in order. *)
Lemma run_starts_lis ts : forall w r w',
  LisInv w -> run_starts ts w = (r, w') ->
  exists ts', r = Ok ts' /\ starts ts' = [] /\ LisInv w' /\ lis_only w w' /\
  (forall e, In e (lkeys w') <-> In e (starts ts) \/ In e (lkeys w)).
Proof.
  induction ts as [|[ev|ev s] r IH]; intros w res w' Hl H; simpl in H.
  - inversion H; subst. exists []. do 2 (split; [reflexivity|]). split; [exact Hl|]. split; [apply lis_only_refl|]. simpl; tauto.
  - unfold bind at 1 in H. destruct (add_listener_start ev w) as [o w1] eqn:E.
    pose proof (add_listener_start_lis _ _ _ _ Hl E) as (Hl1 & Ho1 & Hin1 & Hk1).
    assert (Ho : exists x, o = Ok x).
    { rewrite add_listener_start_eq in E. destruct (PyDict.mem _ _); inversion E; eauto. }
    destruct Ho as [x ->]. unfold bind in H.
    destruct (run_starts r w1) as [r2 w2] eqn:E2.
    destruct (IH _ _ _ Hl1 E2) as (ts' & -> & Hst & Hl2 & Ho2 & Hk2). inversion H; subst.
    eexists; split; [reflexivity|]. split; [destruct x; assumption|].
    split; [assumption|]. split; [eapply lis_only_trans; eauto|].
    intros e; rewrite Hk2, Hk1; simpl; intuition (subst; auto).
  - unfold bind at 1 in H. destruct (run_starts r w) as [r2 w2] eqn:E2.
    destruct (IH _ _ _ Hl E2) as (ts' & -> & Hst & Hl2 & Ho2 & Hk2). inversion H; subst.
    eexists; split; [reflexivity|]. simpl. auto.
Qed.

Lemma checkpoint_lis w r w' :
  LisInv w -> checkpoint w = (r, w') ->
  r = Ok tt /\ starts (tasks w') = [] /\ LisInv w' /\
  intercepts (net w') = intercepts (net w) /\ chan w' = chan w /\ sent w' = sent w /\
  crashed w' = crashed w /\
  (forall e, In e (lkeys w') <-> In e (starts (tasks w)) \/ In e (lkeys w)).
Proof.
  intros Hl H. unfold checkpoint, bind, get in H.
  destruct (run_starts (tasks w) w) as [r1 w1] eqn:E.
  destruct (run_starts_lis _ _ _ _ Hl E) as (ts' & -> & Hst & Hl1 & (Hi&Hc&Hs&Ht&Hx) & Hk).
  unfold modify in H. inversion H; subst. clear H.
  split; [reflexivity|]. split; [exact Hst|].
  split; [exact (LisInv_ext w1 (set_tasks ts' w1) eq_refl eq_refl eq_refl Hl1)|].
  repeat (split; [assumption|]). exact Hk.
Qed.

(** [InvX] reads the manager's dicts, the pending starts and the streams. *)
Lemma InvX_ext x w w' :
  net w' = net w -> starts (tasks w') = starts (tasks w) -> streams w' = streams w ->
  next_stream w' = next_stream w -> InvX x w -> InvX x w'.
Proof.
  intros Hn Ht Hs Hx [L Wi LR RL SR Nm].
  assert (Hr : forall e, has_rule w' e <-> has_rule w e) by (intros e; unfold has_rule; rewrite Hn; tauto).
  constructor.
  - apply (LisInv_ext w); [rewrite Hn; reflexivity|exact Hs|exact Hx|exact L].
  - rewrite Hn; exact Wi.
  - intros e He. unfold lkeys in He; rewrite Hn in He. destruct (LR e He); [left|right; apply Hr]; auto.
  - intros e He. apply Hr in He. unfold lkeys; rewrite Hn, Ht. apply RL, He.
  - intros e He. rewrite Ht in He. apply Hr, SR, He.
  - rewrite Hn. exact Nm.
Qed.

Lemma checkpoint_inv w r w' :
  Inv w -> checkpoint w = (r, w') ->
  Inv w' /\ r = Ok tt /\ starts (tasks w') = [] /\ intercepts (net w') = intercepts (net w) /\
  chan w' = chan w /\ sent w' = sent w /\ crashed w' = crashed w.
Proof.
  intros [L Wi LR RL SR Nm] H.
  destruct (checkpoint_lis _ _ _ L H) as (-> & Hst & L' & Hi & Hc & Hs & Hx & Hk).
  assert (Hr : forall e, has_rule w' e <-> has_rule w e) by (intros e; unfold has_rule; rewrite Hi; tauto).
  split; [|repeat split; assumption].
  constructor.
  - exact L'.
  - rewrite Hi; exact Wi.
  - intros e He. right. apply Hr. apply Hk in He as [He|He]; [apply SR, He|].
    destruct (LR e He) as [E|E]; [discriminate|exact E].
  - intros e He. left. apply (proj2 (Hk e)). apply Hr in He. destruct (RL e He); auto.
  - intros e He. rewrite Hst in He. destruct He.
  - rewrite Hi. exact Nm.
Qed.

(** [conn.execute]: the checkpoint, then the connection's answer; the
    payload is appended to the trace and nothing else of the manager moves. *)
Lemma conn_execute_inv p w r w' :
  Inv w -> conn_execute p w = (r, w') ->
  Inv w' /\ starts (tasks w') = [] /\ intercepts (net w') = intercepts (net w) /\
  sent w' = sent w ++ [p] /\ crashed w' = crashed w /\
  r = fst (chan_execute p (chan w)) /\ chan w' = snd (chan_execute p (chan w)).
Proof.
  intros HI H. unfold conn_execute, bind at 1 in H.
  destruct (checkpoint w) as [r1 w1] eqn:E.
  destruct (checkpoint_inv _ _ _ HI E) as (HI1 & -> & Hst & Hi & Hc & Hs & Hx).
  destruct (chan_execute p (chan w1)) as [r2 c2] eqn:Ec. inversion H; subst; clear H.
  rewrite <- Hc, Ec. simpl. split; [|repeat split; congruence].
  eapply InvX_ext; [| | | |exact HI1]; reflexivity.
Qed.

(** Replacing the intercept table by one with the same live rules keeps
    the invariant. *)
Lemma InvX_set_intercepts x w i :
  InvX x w -> PyDict.wf i ->
  (forall e, In (Some e) (map event_name (PyDict.values i)) <-> has_rule w e) ->
  (forall en, In en (PyDict.values i) ->
     event_name en = None \/ event_name en = Some Schema.BeforeRequestSent_event_class) ->
  InvX x (set_intercepts i w).
Proof.
  intros [L Wi LR RL SR Nm] Hwf Hsame Hnames.
  constructor; simpl; auto.
  - eapply LisInv_ext; [| | |exact L]; reflexivity.
  - intros e He. destruct (LR e He); [left; auto|right; apply Hsame; auto].
  - intros e He. apply RL, Hsame, He.
  - intros e He. apply Hsame, SR, He.
Qed.

(** ** Operations that preserve the invariant *)

Definition preserves {A} (c : PyM World A) : Prop :=
  forall w r w', Inv w -> c w = (r, w') -> Inv w'.

Lemma preserves_ret {A} (a : A) : preserves (ret a).
Proof. intros w r w' HI H. inversion H; subst; exact HI. Qed.

Lemma preserves_raise {A} e : preserves (@raise World A e).
Proof. intros w r w' HI H. inversion H; subst; exact HI. Qed.

Lemma preserves_lift {A} (x : res A) : preserves (lift x).
Proof. intros w r w' HI H. inversion H; subst; exact HI. Qed.

Lemma preserves_get : preserves get.
Proof. intros w r w' HI H. inversion H; subst; exact HI. Qed.

Lemma preserves_bind {A B} (c : PyM World A) (k : A -> PyM World B) :
  preserves c -> (forall a, preserves (k a)) -> preserves (bind c k).
Proof.
  intros Hc Hk w r w' HI H. unfold bind in H.
  destruct (c w) as [[a|e] w1] eqn:E.
  - eapply Hk; [eapply Hc; eauto|exact H].
  - inversion H; subst. eapply Hc; eauto.
Qed.

Lemma preserves_conn_execute p : preserves (conn_execute p).
Proof. intros w r w' HI H. eapply conn_execute_inv; eauto. Qed.

(** The [defaultdict] placeholder is not a live rule. *)
Lemma preserves_getitem key : preserves (intercepts_getitem key).
Proof.
  intros w r w' HI H. unfold intercepts_getitem, bind, get in H.
  destruct (PyDict.get (intercepts (net w)) key) as [e|] eqn:E.
  - inversion H; subst; exact HI.
  - unfold modify, ret in H; simpl in H. inversion H; subst; clear H.
    assert (Hn : ~ In key (PyDict.keys (intercepts (net w)))).
    { intros Hin. apply PyDictFacts.in_keys_get in Hin as [v Hv]. congruence. }
    apply InvX_set_intercepts; [exact HI|apply PyDictFacts.wf_set, (inv_wf_i _ _ HI)| |].
    + intros e. rewrite PyDictFacts.values_set_notin by exact Hn. rewrite map_app, in_app_iff.
      simpl. unfold has_rule. intuition discriminate.
    + intros en Hen. apply PyDictFacts.in_values_set in Hen as [->|Hen]; [left; reflexivity|].
      eapply inv_names; eauto.
Qed.

#[local] Hint Resolve preserves_ret preserves_raise preserves_lift preserves_get
  preserves_conn_execute preserves_getitem : inv_db.

(** Splits a composite operation into the pieces [inv_db] knows. *)
Ltac preserves_step :=
  match goal with
  | |- preserves (bind _ _) => apply preserves_bind; [|intro]
  | |- preserves (if ?b then _ else _) => destruct b
  | |- preserves (match ?x with _ => _ end) => destruct x
  | |- _ => solve [eauto with inv_db]
  end.
Ltac preserves_auto := repeat preserves_step.

Lemma preserves_handle_loop ids request : preserves (handle_loop ids request).
Proof. revert request; induction ids; intros; simpl; preserves_auto. Qed.
#[local] Hint Resolve preserves_handle_loop : inv_db.

(** A turn of the listening loop never breaks the invariant: it only
    reads the registry (and adds placeholders) and writes to the
    connection. *)
Lemma preserves_listener_iteration ev_obj : preserves (listener_iteration ev_obj).
Proof.
  unfold listener_iteration, handle_events, handle_requests, Schema.continue_request,
    Schema.run_command. preserves_auto.
Qed.

(** Removing one entry: the other live rules stay; the removed entry's
    event keeps a rule exactly when another entry names it. *)
Lemma InvX_remove_entry w id e rest :
  Inv w -> starts (tasks w) = [] -> PyDict.pop (intercepts (net w)) id = Some (e, rest) ->
  InvX (if Nat.eqb (length (filter (fun i => name_eqb (event_name i) (event_name e))
                                   (PyDict.values rest))) 0
        then event_name e else None)
       (set_intercepts rest w).
Proof.
  intros [L Wi LR RL SR Nm] Hst Hp. apply PyDictFacts.pop_some in Hp as [Hg ->].
  assert (Hsub : forall e', has_rule (set_intercepts (PyDict.remove (intercepts (net w)) id) w) e' ->
                            has_rule w e').
  { unfold has_rule; simpl. intros e' H. apply in_map_iff in H as [x [Hx Hin]].
    apply in_map_iff. exists x. split; [exact Hx|]. eapply PyDictFacts.in_values_remove; eauto. }
  constructor; simpl.
  - eapply LisInv_ext; [| | |exact L]; reflexivity.
  - apply PyDictFacts.wf_remove, Wi.
  - intros e' He'. destruct (LR e' He') as [E|Hr]; [discriminate|].
    unfold has_rule in Hr. apply in_map_iff in Hr as [x [Hx Hin]].
    destruct (PyDictFacts.in_values_remove_or _ id _ Wi Hin) as [Hin'|Hx'].
    + right. unfold has_rule; simpl. apply in_map_iff. eauto.
    + rewrite Hg in Hx'. inversion Hx'; subst x.
      destruct (Nat.eqb_spec (length (filter (fun i => name_eqb (event_name i) (event_name e))
                                            (PyDict.values (PyDict.remove (intercepts (net w)) id)))) 0)
        as [Hz|Hnz]; [left; symmetry; exact Hx|right].
      destruct (filter _ _) as [|y ys] eqn:Hf; [simpl in Hnz; lia|].
      assert (Hy : In y (filter (fun i => name_eqb (event_name i) (event_name e))
                                (PyDict.values (PyDict.remove (intercepts (net w)) id))))
        by (rewrite Hf; left; reflexivity).
      apply filter_In in Hy as [Hy Hyn]. rewrite Hx in Hyn.
      unfold has_rule; simpl. apply in_map_iff. exists y. split; [|exact Hy].
      destruct (event_name y) as [n|]; [simpl in Hyn; apply String.eqb_eq in Hyn; congruence|discriminate].
  - intros e' He'. apply Hsub in He'. apply RL, He'.
  - rewrite Hst. intros e' [].
  - intros en Hen. apply Nm. eapply PyDictFacts.in_values_remove; eauto.
Qed.

(** [remove_listener] on the event that lost its last rule restores the
    invariant: its stream is closed and its listener is gone. *)
Lemma remove_listener_inv ev w r w' :
  InvX (Some ev) w -> ~ has_rule w ev -> remove_listener (Some ev) w = (r, w') -> Inv w'.
Proof.
  intros [[Lwf Ls Lf Lid] Wi LR RL SR Nm] Hno H.
  unfold remove_listener in H. autorewrite with pym in H.
  destruct (PyDict.pop (listeners (net w)) ev) as [[s lrest]|] eqn:Hp.
  - autorewrite with pym in H. unfold stream_close, modify in H. inversion H; subst; clear H.
    apply PyDictFacts.pop_some in Hp as [Hg ->]. apply PyDictFacts.get_In in Hg.
    (* a listener other than [ev] has another stream *)
    assert (Hsame : forall e' s', In (e', s') (listeners (net w)) -> (s' = s <-> e' = ev)).
    { intros e' s' Hin. split; intros Heq; subst.
      - apply Ls in Hin. apply Ls in Hg. symmetry. eapply nodup_fst_unique; eauto.
      - eapply nodup_fst_unique; [exact Lwf|exact Hin|exact Hg]. }
    constructor; [constructor| | | | |]; simpl.
    + apply PyDictFacts.wf_remove, Lwf.
    + intros s' e'. rewrite filter_In, PyDictFacts.in_remove by exact Lwf. rewrite Ls. simpl.
      split; intros [H1 H2].
      * split; [|exact H1]. intros ->. apply Hsame in H1.
        apply Bool.negb_true_iff, Nat.eqb_neq in H2. tauto.
      * split; [exact H2|]. apply Bool.negb_true_iff, Nat.eqb_neq. intros ->.
        apply H1. exact (proj1 (Hsame _ _ H2) eq_refl).
    + intros s' e'. rewrite filter_In. intros [H1 _]. eapply Lf; eauto.
    + apply NoDup_map_filter, Lid.
    + exact Wi.
    + intros e' He'. unfold lkeys in He'; simpl in He'.
      apply PyDictFacts.in_keys_remove in He' as [Hne He']; [|exact Lwf].
      destruct (LR e' He') as [E|E]; [inversion E; contradiction|right; exact E].
    + intros e' He'. destruct (RL e' He') as [Hk|Hk]; [left|right; exact Hk].
      unfold lkeys; simpl. apply PyDictFacts.in_keys_remove; [exact Lwf|].
      split; [intros ->; contradiction|exact Hk].
    + exact SR.
    + exact Nm.
  - inversion H; subst; clear H. apply PyDictFacts.pop_none in Hp.
    constructor; [constructor| | | | |]; auto.
    intros e' He'. destruct (LR e' He') as [E|E]; [|right; exact E].
    inversion E; subst. unfold lkeys in He'. apply PyDictFacts.in_keys_get in He' as [v Hv]. congruence.
Qed.

Lemma name_eqb_some a ev : name_eqb a (Some ev) = true <-> a = Some ev.
Proof.
  destruct a as [n|]; simpl; [rewrite String.eqb_eq; split; congruence|split; discriminate].
Qed.

(** The part of [remove_intercept] between its two awaits: the pop, and
    [remove_listener] when the popped entry was the last of its event,
    from a world where the nursery has no pending start (just after an
    await of [conn.execute]). *)
Lemma remove_entry_inv w id e rest r w' :
  Inv w -> starts (tasks w) = [] -> PyDict.pop (intercepts (net w)) id = Some (e, rest) ->
  Nat.eqb (length (filter (fun i => name_eqb (event_name i) (event_name e)) (PyDict.values rest))) 0 = true ->
  remove_listener (event_name e) (set_intercepts rest w) = (r, w') -> Inv w'.
Proof.
  intros HI Hst Hp Hz H. pose proof (InvX_remove_entry _ _ _ _ HI Hst Hp) as HX. rewrite Hz in HX.
  destruct (event_name e) as [ev|] eqn:Hev; [|inversion H; subst; exact HX].
  eapply remove_listener_inv; [exact HX| |exact H].
  unfold has_rule; simpl. intros Hin. apply in_map_iff in Hin as [x [Hx Hin]].
  apply Nat.eqb_eq in Hz. eapply filter_length_zero in Hz; [|exact Hin].
  rewrite Hx in Hz. simpl in Hz. rewrite String.eqb_refl in Hz. discriminate.
Qed.

Lemma preserves_remove_intercept id : preserves (remove_intercept id).
Proof.
  intros w r w' HI H. unfold remove_intercept, Schema.remove_intercept, Schema.run_command in H.
  autorewrite with schema_rw pym in H. unfold bind at 1 in H.
  destruct (conn_execute _ w) as [[a|err] w1] eqn:E;
    [|inversion H; subst; eapply conn_execute_inv; eauto].
  destruct (conn_execute_inv _ _ _ _ HI E) as (HI1 & Hst1 & _).
  autorewrite with pym in H.
  destruct (PyDict.pop (intercepts (net w1)) id) as [[e rest]|] eqn:Hp;
    [|inversion H; subst; exact HI1].
  autorewrite with pym in H. cbn beta in H.
  destruct (Nat.eqb (length (filter _ _)) 0) eqn:Hz;
    [|pose proof (InvX_remove_entry _ _ _ _ HI1 Hst1 Hp) as HX; rewrite Hz in HX; inversion H; subst; exact HX].
  unfold bind at 1 in H.
  destruct (remove_listener (event_name e) (set_intercepts rest w1)) as [[[]|err] w3] eqn:Er;
    pose proof (remove_entry_inv _ _ _ _ _ _ HI1 Hst1 Hp Hz Er) as HI3; [|inversion H; subst; exact HI3].
  eapply preserves_bind; [apply preserves_conn_execute|intros; apply preserves_ret|exact HI3|exact H].
Qed.
#[local] Hint Resolve preserves_remove_intercept : inv_db.

Lemma preserves_clear_loop fuel n i : preserves (clear_loop fuel n i).
Proof. revert i; induction fuel; intros; simpl; preserves_auto. Qed.
#[local] Hint Resolve preserves_clear_loop : inv_db.

Lemma preserves_clear_intercepts : preserves clear_intercepts.
Proof. unfold clear_intercepts. preserves_auto. Qed.

(** The handlers an intercept id holds ([] for an id not in the table). *)
Definition old_handlers w (k : string) : list handler :=
  match PyDict.get (intercepts (net w)) k with Some e => handlers e | None => [] end.

(** Lines 83-85 of [add_handler]: the two [defaultdict] writes amount to
    one entry naming the event with the handler appended, then the
    listener task is started. *)
Lemma register_eq ev h k w :
  (e1 <- intercepts_getitem k ;;
   set_intercept k (mk_entry (Some ev) (handlers e1)) ;;
   e2 <- intercepts_getitem k ;;
   set_intercept k (mk_entry (event_name e2) (handlers e2 ++ [h])) ;;
   modify (fun w => set_tasks (tasks w ++ [TaskStart ev]) w) ;;
   ret k) w
  = (Ok k, set_tasks (tasks w ++ [TaskStart ev])
             (set_intercepts (PyDict.set (intercepts (net w)) k
                (mk_entry (Some ev) (old_handlers w k ++ [h]))) w)).
Proof.
  unfold intercepts_getitem, set_intercept, old_handlers. autorewrite with pym.
  destruct (PyDict.get (intercepts (net w)) k) eqn:E; autorewrite with pym; simpl;
    rewrite PyDictFacts.get_set_eq; autorewrite with pym; simpl;
    rewrite ?PyDictFacts.set_set; reflexivity.
Qed.

Lemma register_inv k hs w :
  Inv w ->
  Inv (set_tasks (tasks w ++ [TaskStart Schema.BeforeRequestSent_event_class])
         (set_intercepts (PyDict.set (intercepts (net w)) k
            (mk_entry (Some Schema.BeforeRequestSent_event_class) hs)) w)).
Proof.
  intros [L Wi LR RL SR Nm].
  set (ev := Schema.BeforeRequestSent_event_class).
  set (w' := set_tasks _ _).
  assert (Hr : forall e, has_rule w' e <-> e = ev \/ has_rule w e).
  { intros e. unfold has_rule; simpl. rewrite !in_map_iff. split.
    - intros [x [Hx Hin]]. apply (PyDictFacts.in_values_set_iff _ _ _ _ Wi) in Hin as [->|[k' [_ Hin]]].
      + left. simpl in Hx. congruence.
      + right. exists x. split; [exact Hx|]. apply PyDictFacts.in_values_keys. eauto.
    - intros [->|[x [Hx Hin]]].
      + exists (mk_entry (Some ev) hs). split; [reflexivity|].
        apply PyDictFacts.in_values_set_iff; [exact Wi|left; reflexivity].
      + apply PyDictFacts.in_values_keys in Hin as [k' Hin].
        destruct (String.eqb_spec k' k) as [->|Hne].
        * destruct (Nm x) as [Hn|Hn]; [apply PyDictFacts.in_values_keys; eauto|congruence|].
          exists (mk_entry (Some ev) hs). split; [simpl; unfold ev; congruence|].
          apply PyDictFacts.in_values_set_iff; [exact Wi|left; reflexivity].
        * exists x. split; [exact Hx|]. apply PyDictFacts.in_values_set_iff; [exact Wi|eauto]. }
  assert (Hs : starts (tasks w') = starts (tasks w) ++ [ev]) by (simpl; rewrite starts_app; reflexivity).
  constructor.
  - eapply LisInv_ext; [| | |exact L]; reflexivity.
  - apply PyDictFacts.wf_set, Wi.
  - intros e He. right. apply Hr. right. destruct (LR e He) as [E|E]; [discriminate|exact E].
  - intros e He. rewrite Hs, in_app_iff. apply Hr in He as [->|He]; [right; right; left; reflexivity|].
    destruct (RL e He); [left; exact H|right; left; exact H].
  - intros e He. apply Hr. rewrite Hs, in_app_iff in He. destruct He as [He|[He|[]]]; [right; apply SR, He|left; auto].
  - intros en Hen. apply (PyDictFacts.in_values_set_iff _ _ _ _ Wi) in Hen as [->|[k' [_ Hin]]];
      [right; reflexivity|apply Nm, PyDictFacts.in_values_keys; eauto].
Qed.

(** The payload of the [network.addIntercept] command [add_request_handler]
    sends: phase [beforeRequestSent], the caller's URL patterns. *)
Definition add_intercept_payload (pats : pyval) : pyval :=
  Bidi.cmd (VObj "AddIntercept"
    [("params", VObj "AddInterceptParameters"
                  [("phases", VList [VStr "beforeRequestSent"]); ("contexts", VNone);
                   ("urlPatterns", pats)]);
     ("method", VStr "network.addIntercept")]).

(** [add_request_handler] as the sequence of its outcomes: the subscribe,
    the [addIntercept] command, the id read from the reply, then the
    registration of [register_eq]. *)
Lemma add_request_handler_unfold h pats w :
  add_request_handler h pats w =
  match conn_execute (session_subscribe (VStr Schema.BeforeRequestSent_event_class)) w with
  | (Exc e, w1) => (Exc e, w1)
  | (Ok _, w1) =>
      match conn_execute (add_intercept_payload pats) w1 with
      | (Exc e, w2) => (Exc e, w2)
      | (Ok res, w2) =>
          match getitem res "intercept" with
          | Exc e => (Exc e, w2)
          | Ok iv =>
              match as_key iv with
              | Exc e => (Exc e, w2)
              | Ok k =>
                  (Ok k, set_tasks (tasks w2 ++ [TaskStart Schema.BeforeRequestSent_event_class])
                           (set_intercepts (PyDict.set (intercepts (net w2)) k
                              (mk_entry (Some Schema.BeforeRequestSent_event_class)
                                 (old_handlers w2 k ++ [h]))) w2))
              end
          end
      end
  end.
Proof.
  unfold add_request_handler, add_handler, add_intercept_params, Schema.add_intercept,
    Schema.run_command.
  autorewrite with schema_rw pym. unfold bind at 1.
  destruct (conn_execute _ w) as [[a1|err] w1]; [|reflexivity].
  autorewrite with schema_rw pym. unfold bind at 1.
  change (phase_name Schema.BeforeRequestSent_event_class) with "beforeRequestSent".
  destruct (conn_execute _ w1) as [[res|err] w2]; [|reflexivity].
  destruct (getitem res "intercept") as [iv|err]; autorewrite with pym; [|reflexivity].
  destruct (as_key iv) as [k|err]; autorewrite with pym; [|reflexivity].
  apply register_eq.
Qed.

Lemma preserves_add_request_handler h pats : preserves (add_request_handler h pats).
Proof.
  intros w r w' HI H. rewrite add_request_handler_unfold in H.
  destruct (conn_execute _ w) as [[a1|err] w1] eqn:E1;
    pose proof (proj1 (conn_execute_inv _ _ _ _ HI E1)) as HI1; [|inversion H; subst; exact HI1].
  destruct (conn_execute _ w1) as [[res|err] w2] eqn:E2;
    pose proof (proj1 (conn_execute_inv _ _ _ _ HI1 E2)) as HI2; [|inversion H; subst; exact HI2].
  destruct (getitem res "intercept") as [iv|err]; [|inversion H; subst; exact HI2].
  destruct (as_key iv) as [k|err]; inversion H; subst; [apply register_inv|]; exact HI2.
Qed.
(** [get] only sends the navigation; [disable_cache] only touches the driver. *)
Lemma preserves_network_get url wait : preserves (network_get url wait).
Proof. unfold network_get. preserves_auto. Qed.

Lemma preserves_disable_cache : preserves disable_cache.
Proof.
  intros w r w' HI H. unfold disable_cache, modify in H. injection H as _ <-.
  eapply InvX_ext; [| | | |exact HI]; reflexivity.
Qed.

#[local] Hint Resolve preserves_network_get preserves_disable_cache : inv_db.
#[local] Hint Resolve preserves_add_request_handler preserves_remove_intercept
  preserves_clear_intercepts preserves_listener_iteration : inv_db.

Lemma preserves_run_call c : preserves (run_call c).
Proof. destruct c; simpl; preserves_auto. Qed.

Lemma starts_drop_loop s ts : starts (drop_loop s ts) = starts ts.
Proof. induction ts as [|[e|e s'] r IH]; simpl; [reflexivity|f_equal; exact IH|]. destruct (negb _); simpl; exact IH. Qed.

Lemma Inv_init c d : Inv (init_world c d).
Proof.
  constructor; [constructor| | | | |]; simpl; try solve [intros; tauto | constructor].
Qed.

(** Every step of the session keeps the invariant. *)
Lemma step_inv w w' : Inv w -> step w w' -> Inv w'.
Proof.
  intros HI Hs. destruct Hs.
  - eapply preserves_run_call; eauto.
  - destruct (checkpoint w) as [r w'] eqn:E. eapply checkpoint_inv; eauto.
  - assert (HI' : Inv w') by (eapply preserves_listener_iteration; eauto).
    destruct r as [[]|[]]; simpl; try exact HI';
      (eapply InvX_ext; [| | | |exact HI']; simpl; rewrite ?starts_drop_loop; reflexivity).
  - eapply InvX_ext; [| | | |exact HI]; simpl; rewrite ?starts_drop_loop; reflexivity.
Qed.

Lemma reachable_Inv w : reachable w -> Inv w.
Proof. induction 1; [apply Inv_init|eapply step_inv; eauto]. Qed.

(** C1: in every world a session reaches, once the nursery has run the
    tasks it was asked to start, an event type has a listener exactly when
    some live interception rule names it: no listener outlives its last
    rule and no rule lacks its listener. *)
Theorem listeners_match_rules w e :
  reachable w -> starts (tasks w) = [] ->
  (PyDict.mem (listeners (net w)) e = true <-> has_rule w e).
Proof.
  intros Hr Hst. destruct (reachable_Inv w Hr) as [L Wi LR RL SR Nm].
  rewrite PyDictFacts.mem_get. split.
  - intros [s Hs]. apply PyDictFacts.get_in_keys in Hs.
    destruct (LR e Hs) as [E|E]; [discriminate|exact E].
  - intros He. destruct (RL e He) as [Hk|Hk]; [|rewrite Hst in Hk; destruct Hk].
    apply PyDictFacts.in_keys_get, Hk.
Qed.

(** C14: the open event streams of a reached world are the registered
    listeners: their event types are, without repetition, the keys of
    [self.listeners], and a stream is open for an event exactly when the
    listener entry of that event holds it.  The manager never listens twice
    to one event. *)
Theorem one_stream_per_event w :
  reachable w ->
  Permutation (map snd (streams w)) (lkeys w) /\
  (forall s e, In (s, e) (streams w) <-> PyDict.get (listeners (net w)) e = Some s).
Proof.
  intros Hr. destruct (reachable_Inv w Hr) as [[Lwf Ls Lf Lid] Wi LR RL SR Nm].
  split.
  - apply NoDup_Permutation; [|exact Lwf|].
    + apply NoDup_snd; [exact Lid|]. intros a c b Ha Hc.
      apply Ls in Ha. apply Ls in Hc. eapply nodup_fst_unique; eauto.
    + intros e. unfold lkeys, PyDict.keys. rewrite !in_map_iff. split.
      * intros [[s e'] [<- Hs]]. exists (e', s). split; [reflexivity|apply Ls, Hs].
      * intros [[e' s] [<- Hs]]. exists (s, e'). split; [reflexivity|apply Ls, Hs].
  - intros s e. rewrite Ls. split; [apply PyDictFacts.In_get, Lwf|apply PyDictFacts.get_In].
Qed.

(** C5: a listening loop that can receive an event in a reached world
    listens to an event type some live rule names: once the last rule of
    a type is removed, no event of that type is processed. *)
Theorem event_needs_rule w ev s :
  reachable w -> In (TaskLoop ev s) (tasks w) -> In (s, ev) (streams w) -> has_rule w ev.
Proof.
  intros Hr _ Hs. destruct (reachable_Inv w Hr) as [[Lwf Ls Lf Lid] Wi LR RL SR Nm].
  apply Ls in Hs. apply (in_map fst) in Hs.
  destruct (LR ev Hs) as [E|E]; [discriminate|exact E].
Qed.

(** C25: a session that has not crashed always makes progress towards its
    listeners: from every reached world the nursery's step runs the
    pending starts, after which every event with a live rule has its
    listener (spec §4.2: [addRule] ensures the listener task). *)
Theorem rules_get_listeners w :
  reachable w -> crashed w = None ->
  exists w', step w w' /\ starts (tasks w') = [] /\
    forall e, has_rule w e -> PyDict.mem (listeners (net w')) e = true.
Proof.
  intros Hr Hc. exists (snd (checkpoint w)). split; [apply step_run_starts, Hc|].
  destruct (checkpoint w) as [r w'] eqn:E. simpl.
  destruct (checkpoint_inv _ _ _ (reachable_Inv w Hr) E) as (HI' & _ & Hst & Hi & _).
  split; [exact Hst|]. intros e He.
  assert (He' : has_rule w' e) by (unfold has_rule; rewrite Hi; exact He).
  destruct (inv_rule_lis _ _ HI' e He') as [Hk|Hk]; [|rewrite Hst in Hk; destruct Hk].
  apply PyDictFacts.mem_get, PyDictFacts.in_keys_get, Hk.
Qed.

End Inv.

(** ** Witnesses, on the reference remote end *)

Section Witnesses.
#[local] Existing Instance RefBrowserChannel.

Definition identity_handler : handler := fun req => Ok req.

(** The driver of the witnesses: one window, no DevTools command sent yet. *)
Definition wit_driver : Driver := mk_driver "window-1" [].

Definition wit_w0 : World := init_world RefBrowser.initial wit_driver.
Definition wit_w1 : World := snd (run_call (CallAddRequestHandler identity_handler VNone) wit_w0).
Definition wit_w2 : World := snd (checkpoint wit_w1).

Lemma wit_w2_reachable : reachable wit_w2.
Proof.
  apply (reach_step wit_w1); [|apply step_run_starts; reflexivity].
  apply (reach_step wit_w0); [apply reach_init|].
  eapply step_call; [reflexivity|apply surjective_pairing].
Qed.

Lemma wit_w1_reachable : reachable wit_w1.
Proof.
  apply (reach_step wit_w0); [apply reach_init|].
  eapply step_call; [reflexivity|apply surjective_pairing].
Qed.

Lemma rules_get_listeners_witness :
  exists w', step wit_w1 w' /\ starts (tasks w') = [] /\
    forall e, has_rule wit_w1 e -> PyDict.mem (listeners (net w')) e = true.
Proof. apply rules_get_listeners; [exact wit_w1_reachable|reflexivity]. Defined.

Lemma listeners_match_rules_witness :
  PyDict.mem (listeners (net wit_w2)) Schema.BeforeRequestSent_event_class = true <->
  has_rule wit_w2 Schema.BeforeRequestSent_event_class.
Proof. apply listeners_match_rules; [exact wit_w2_reachable|vm_compute; reflexivity]. Defined.

Lemma event_needs_rule_witness :
  has_rule wit_w2 Schema.BeforeRequestSent_event_class.
Proof.
  apply (event_needs_rule wit_w2 Schema.BeforeRequestSent_event_class 0);
    [exact wit_w2_reachable|vm_compute; left; reflexivity|vm_compute; left; reflexivity].
Defined.

Lemma one_stream_per_event_witness :
  Permutation (map snd (streams wit_w2)) (lkeys wit_w2) /\
  (forall s e, In (s, e) (streams wit_w2) <-> PyDict.get (listeners (net wit_w2)) e = Some s).
Proof. apply one_stream_per_event. exact wit_w2_reachable. Defined.
End Witnesses.

End InterceptsInv.
