(* ===== verification/InterceptsSpec.v ===== *)
(** The behaviour of each operation of remote/network.py on each of its
    branches, errors included: what [clear_intercepts], [remove_intercept],
    [add_request_handler], [handle_requests] and [handle_events] do to the
    intercept table and which commands they write to the connection,
    stated against reference specifications ([pipeline], [lookup_all],
    [clear_outcome], [session_over]).  The frame lemmas at the top hold in any world (no invariant needed): the
    nursery's starts and [conn.execute] never touch the intercept table. *)

From Stdlib Require Import String Ascii List ZArith Bool Lia.
From S2P Require Import Prelude PyValue Bidi NetworkSchema Channel Intercepts InterceptsInv.
Import ListNotations.
Import Intercepts InterceptsInv.
Local Open Scope string_scope.
Local Open Scope list_scope.

Module InterceptsSpec.

Section Spec.
Context `{CH : Channel}.
Implicit Types (w : World).

(** ** Reference specifications *)

(** The handlers a blocked request goes through when its event lists the
    intercept ids [ids]: those of the first id in registration order, then
    those of the second, and so on; an id the table lacks contributes none. *)
Definition pipeline w (ids : list string) : list handler := flat_map (old_handlers w) ids.

(** The intercept table after the [defaultdict] lookups of [ids]: every id
    it lacks gets a placeholder entry, in lookup order. *)
Fixpoint lookup_all (d : PyDict.t entry) (ids : list string) : PyDict.t entry :=
  match ids with
  | [] => d
  | i :: r => lookup_all (if PyDict.mem d i then d else PyDict.set d i default_entry) r
  end.

(** What [clear_intercepts] does, in closed form: nothing on an empty
    table; otherwise the removal of the first intercept, and, when that
    succeeds, the [RuntimeError] of the loop's next [next()]. *)
Definition clear_outcome w : res unit * World :=
  match PyDict.keys (intercepts (net w)) with
  | [] => (Ok tt, w)
  | k :: _ =>
      match remove_intercept k w with
      | (Ok _, w1) => (Exc (RuntimeError "dictionary changed size during iteration"), w1)
      | (Exc e, w1) => (Exc e, w1)
      end
  end.

(** A world from which the session makes no step any more. *)
Definition session_over w : Prop := forall w', ~ step w w'.

(** ** Frames *)

Lemma run_starts_frame ts : forall w r w',
  run_starts ts w = (r, w') -> (exists ts', r = Ok ts') /\ lis_only w w'.
Proof.
  induction ts as [|[ev|ev s] r IH]; intros w res w' H; simpl in H.
  - inversion H; subst. split; [eauto|apply lis_only_refl].
  - unfold bind at 1 in H. destruct (add_listener_start ev w) as [o w1] eqn:E.
    assert (Ho : exists x, o = Ok x /\ lis_only w w1).
    { rewrite add_listener_start_eq in E. destruct (PyDict.mem _ _); inversion E; subst;
        (eexists; split; [reflexivity|]); [apply lis_only_refl|repeat split]. }
    destruct Ho as [x [-> Ho]]. unfold bind in H.
    destruct (run_starts r w1) as [r2 w2] eqn:E2.
    destruct (IH _ _ _ E2) as [[ts' ->] Ho2]. inversion H; subst.
    split; [eauto|eapply lis_only_trans; eauto].
  - unfold bind at 1 in H. destruct (run_starts r w) as [r2 w2] eqn:E2.
    destruct (IH _ _ _ E2) as [[ts' ->] Ho2]. inversion H; subst. split; eauto.
Qed.

(** The checkpoint never raises: the nursery's starts only open streams. *)
Lemma checkpoint_ok w : checkpoint w = (Ok tt, snd (checkpoint w)).
Proof.
  unfold checkpoint, bind, get.
  destruct (run_starts (tasks w) w) as [r w1] eqn:E.
  destruct (run_starts_frame _ _ _ _ E) as [[ts ->] _]. reflexivity.
Qed.

(** The nursery's starts leave no start pending. *)
Lemma run_starts_starts ts : forall w ts' w', run_starts ts w = (Ok ts', w') -> starts ts' = [].
Proof.
  induction ts as [|[ev|ev s] r IH]; intros w ts' w' H; simpl in H.
  - injection H as <- _. reflexivity.
  - unfold bind at 1 in H. destruct (add_listener_start ev w) as [o w1] eqn:E.
    rewrite add_listener_start_eq in E.
    destruct (PyDict.mem _ _); injection E as <- <-; unfold bind in H;
      destruct (run_starts r _) as [[rest|err] w2] eqn:E2; try discriminate;
      injection H as <- _; exact (IH _ _ _ E2).
  - unfold bind at 1 in H. destruct (run_starts r w) as [[rest|err] w2] eqn:E2; [|discriminate].
    injection H as <- _. exact (IH _ _ _ E2).
Qed.

Lemma checkpoint_starts w : starts (tasks (snd (checkpoint w))) = [].
Proof.
  unfold checkpoint, bind, get. destruct (run_starts (tasks w) w) as [r w1] eqn:E.
  destruct (run_starts_frame _ _ _ _ E) as [[ts ->] _]. exact (run_starts_starts _ _ _ _ E).
Qed.

(** With no start pending, the checkpoint changes nothing. *)
Lemma checkpoint_quiet w : starts (tasks w) = [] -> checkpoint w = (Ok tt, w).
Proof.
  intros H. unfold checkpoint, bind, get.
  assert (Hq : forall ts, starts ts = [] -> run_starts ts w = (Ok ts, w)).
  { induction ts as [|[ev|ev s] r IH]; simpl; intros Hs; [reflexivity|discriminate|].
    unfold bind. rewrite IH by exact Hs. reflexivity. }
  rewrite Hq by exact H. destruct w; reflexivity.
Qed.

Lemma conn_execute_quiet p w : starts (tasks w) = [] ->
  conn_execute p w = (fst (chan_execute p (chan w)), set_chan (snd (chan_execute p (chan w))) p w).
Proof.
  intros H. unfold conn_execute. unfold bind at 1. rewrite checkpoint_quiet by exact H.
  destruct (chan_execute p (chan w)); reflexivity.
Qed.

(** What [conn.execute] leaves of the nursery: the tasks, listeners and
    streams of its checkpoint, and no pending start. *)
Lemma conn_execute_nursery p w r w' : conn_execute p w = (r, w') ->
  tasks w' = tasks (snd (checkpoint w)) /\ listeners (net w') = listeners (net (snd (checkpoint w))) /\
  streams w' = streams (snd (checkpoint w)) /\ starts (tasks w') = [].
Proof.
  unfold conn_execute. unfold bind at 1. rewrite checkpoint_ok. cbv beta.
  destruct (chan_execute p (chan (snd (checkpoint w)))) eqn:E. intros H. injection H as _ <-.
  simpl. pose proof (checkpoint_starts w). auto.
Qed.

(** [conn.execute] in any world: the payload goes out, the connection
    answers, and the intercept table and the crash flag do not move. *)
Lemma conn_execute_frame p w r w' :
  conn_execute p w = (r, w') ->
  intercepts (net w') = intercepts (net w) /\ sent w' = sent w ++ [p] /\
  crashed w' = crashed w /\ r = fst (chan_execute p (chan w)) /\
  chan w' = snd (chan_execute p (chan w)).
Proof.
  intros H. unfold conn_execute, checkpoint in H. autorewrite with pym in H.
  unfold bind at 1 in H. destruct (run_starts (tasks w) w) as [r1 w1] eqn:E.
  destruct (run_starts_frame _ _ _ _ E) as [[ts ->] (Hi & Hc & Hs & Ht & Hx)].
  autorewrite with pym in H. simpl in H.
  destruct (chan_execute p (chan w1)) as [r2 c2] eqn:Ec. injection H as <- <-.
  simpl. rewrite <- Hc, Ec. repeat split; simpl; congruence.
Qed.

Lemma remove_listener_frame n w r w' :
  remove_listener n w = (r, w') ->
  intercepts (net w') = intercepts (net w) /\ sent w' = sent w /\ crashed w' = crashed w.
Proof.
  destruct n as [ev|]; simpl; autorewrite with pym; [|intros H; inversion H; subst; auto].
  destruct (PyDict.pop (listeners (net w)) ev) as [[s rest]|]; autorewrite with pym;
    unfold stream_close, modify; intros H; inversion H; subst; auto.
Qed.

(** The payload [remove_intercept(id)] writes to the connection. *)
Definition remove_intercept_payload (id : string) : pyval :=
  Bidi.cmd (VObj "RemoveIntercept"
    [("params", VObj "RemoveInterceptParameters" [("intercept", VStr id)]);
     ("method", VStr "network.removeIntercept")]).

(** Runs [remove_intercept] up to its table lookup: the remote removal is
    always sent first. *)
Lemma remove_intercept_unfold k w :
  remove_intercept k w =
  match conn_execute (remove_intercept_payload k) w with
  | (Exc e, w1) => (Exc e, w1)
  | (Ok _, w1) =>
      match PyDict.pop (intercepts (net w1)) k with
      | None => (Exc (KeyError k), w1)
      | Some (e, rest) =>
          (if Nat.eqb (length (filter (fun i => name_eqb (event_name i) (event_name e))
                                      (PyDict.values rest))) 0
           then remove_listener (event_name e) ;;
                _ <- conn_execute (session_unsubscribe (name_to_py (event_name e))) ;;
                ret tt
           else ret tt) (set_intercepts rest w1)
      end
  end.
Proof.
  unfold remove_intercept, Schema.remove_intercept, Schema.run_command.
  autorewrite with schema_rw pym. unfold bind at 1.
  destruct (conn_execute _ w) as [[a|e] w1]; [|reflexivity].
  autorewrite with pym. destruct (PyDict.pop _ _) as [[e rest]|]; reflexivity.
Qed.

(** A successful [remove_intercept] removed an id that was in the table,
    and only it. *)
Lemma remove_intercept_ok k w u w' :
  remove_intercept k w = (Ok u, w') ->
  exists e, PyDict.get (intercepts (net w)) k = Some e /\
            intercepts (net w') = PyDict.remove (intercepts (net w)) k.
Proof.
  intros H. rewrite remove_intercept_unfold in H.
  destruct (conn_execute _ w) as [[a|err] w1] eqn:E; [|discriminate].
  destruct (conn_execute_frame _ _ _ _ E) as (Hi1 & _).
  destruct (PyDict.pop (intercepts (net w1)) k) as [[e rest]|] eqn:Hp; [|discriminate].
  apply PyDictFacts.pop_some in Hp as [Hg ->]. rewrite Hi1 in Hg.
  exists e. split; [exact Hg|].
  destruct (Nat.eqb _ 0); [|inversion H; simpl; rewrite Hi1; reflexivity].
  unfold bind at 1 in H. destruct (remove_listener _ _) as [[[]|err] w3] eqn:Er; [|discriminate].
  destruct (remove_listener_frame _ _ _ _ Er) as (Hi3 & _).
  unfold bind at 1 in H. destruct (conn_execute _ w3) as [[b|err] w4] eqn:E4; [|discriminate].
  destruct (conn_execute_frame _ _ _ _ E4) as (Hi4 & _).
  inversion H; subst. rewrite Hi4, Hi3. simpl. rewrite Hi1. reflexivity.
Qed.

(** C4: [clear_intercepts] on each of its branches.  On an empty table it
    does nothing; otherwise it removes the first intercept and then the
    [for] loop over [self.intercepts], whose size has changed, raises
    [RuntimeError]: only the first intercept is ever removed. *)
Theorem clear_intercepts_spec w : clear_intercepts w = clear_outcome w.
Proof.
  unfold clear_intercepts, clear_outcome. autorewrite with pym. simpl. autorewrite with pym.
  rewrite Nat.eqb_refl. simpl.
  destruct (PyDict.keys (intercepts (net w))) as [|k ks] eqn:Hk; simpl; [reflexivity|].
  unfold bind at 1. destruct (remove_intercept k w) as [[u|e] w1] eqn:E; [|reflexivity].
  destruct (remove_intercept_ok _ _ _ _ E) as [en [Hg Hi]].
  autorewrite with pym. rewrite Hi.
  assert (Hlen : length (PyDict.keys (PyDict.remove (intercepts (net w)) k)) = length ks).
  { assert (Hin : In k (PyDict.keys (intercepts (net w)))) by (rewrite Hk; left; reflexivity).
    pose proof (PyDictFacts.length_remove_in _ _ Hin) as L.
    assert (L2 : length (PyDict.keys (intercepts (net w))) = S (length ks)) by (rewrite Hk; reflexivity).
    unfold PyDict.keys in *. rewrite length_map in *. lia. }
  simpl. rewrite Hlen. destruct (Nat.eqb_spec (length ks) (S (length ks))); [lia|reflexivity].
Qed.

(** C8: removing an id the local table does not hold sends
    [network.removeIntercept] all the same, first; when the remote end
    accepts it the call then raises [KeyError] for the id (the
    [self.intercepts.pop]), otherwise it raises the remote end's error;
    either way the table is left as it was. *)
Theorem remove_intercept_unknown k w :
  PyDict.get (intercepts (net w)) k = None ->
  exists w', remove_intercept k w =
    (Exc (match fst (chan_execute (remove_intercept_payload k) (chan w)) with
          | Ok _ => KeyError k
          | Exc e => e
          end), w') /\
    intercepts (net w') = intercepts (net w) /\
    sent w' = sent w ++ [remove_intercept_payload k].
Proof.
  intros Hg. rewrite remove_intercept_unfold.
  destruct (conn_execute _ w) as [r w1] eqn:E.
  destruct (conn_execute_frame _ _ _ _ E) as (Hi1 & Hs1 & _ & Hr1 & _). rewrite <- Hr1.
  exists w1. destruct r as [a|err]; [|auto].
  rewrite Hi1. replace (PyDict.pop (intercepts (net w)) k) with (@None (entry * PyDict.t entry))
    by (symmetry; apply PyDictFacts.pop_none, Hg).
  auto.
Qed.

(** The event of the popped entry has no other rule left exactly when no
    remaining entry names it. *)
Lemma no_other_rule d ev :
  length (filter (fun i => name_eqb (event_name i) (Some ev)) (PyDict.values d)) = 0 <->
  ~ In (Some ev) (map event_name (PyDict.values d)).
Proof.
  split.
  - intros Hz Hin. apply in_map_iff in Hin as [x [Hx Hin]].
    eapply filter_length_zero in Hz; [|exact Hin]. rewrite Hx in Hz. simpl in Hz.
    rewrite String.eqb_refl in Hz. discriminate.
  - intros Hn. rewrite filter_all_false; [reflexivity|]. intros x Hx.
    destruct (name_eqb (event_name x) (Some ev)) eqn:E; [|reflexivity].
    apply name_eqb_some in E. exfalso. apply Hn. rewrite <- E. apply in_map, Hx.
Qed.

(** C16: removing a registered rule, in a consistent world with no
    listener start pending and a remote end that accepts the removal,
    pops the rule and then branches on whether another rule names its
    event: if one does, nothing else happens (the listener and its stream
    stay, no unsubscribe); if none does, the event's listener is popped,
    its stream closed, and [session.unsubscribe] for the event is sent
    after [network.removeIntercept], the call returning the remote end's
    answer to it. *)
Theorem remove_intercept_known k e ev w a :
  Inv w -> starts (tasks w) = [] ->
  PyDict.get (intercepts (net w)) k = Some e -> event_name e = Some ev ->
  fst (chan_execute (remove_intercept_payload k) (chan w)) = Ok a ->
  exists r w', remove_intercept k w = (r, w') /\
    intercepts (net w') = PyDict.remove (intercepts (net w)) k /\
    (has_rule w' ev ->
       r = Ok tt /\ listeners (net w') = listeners (net w) /\ streams w' = streams w /\
       sent w' = sent w ++ [remove_intercept_payload k]) /\
    (~ has_rule w' ev -> exists s,
       PyDict.get (listeners (net w)) ev = Some s /\
       listeners (net w') = PyDict.remove (listeners (net w)) ev /\
       streams w' = filter (fun p => negb (Nat.eqb (fst p) s)) (streams w) /\
       sent w' = sent w ++ [remove_intercept_payload k; session_unsubscribe (VStr ev)] /\
       r = match fst (chan_execute (session_unsubscribe (VStr ev))
                        (snd (chan_execute (remove_intercept_payload k) (chan w)))) with
           | Ok _ => Ok tt
           | Exc x => Exc x
           end).
Proof.
  intros HI Hq Hg He Ha. rewrite remove_intercept_unfold, conn_execute_quiet by exact Hq. rewrite Ha.
  cbv beta iota.
  replace (PyDict.pop _ k) with (Some (e, PyDict.remove (intercepts (net w)) k))
    by (unfold PyDict.pop; simpl; rewrite Hg; reflexivity).
  rewrite He.
  destruct (Nat.eqb _ 0) eqn:Hz.
  - apply Nat.eqb_eq, no_other_rule in Hz.
    assert (Hr : has_rule w ev).
    { unfold has_rule. rewrite <- He. apply in_map. apply PyDictFacts.in_values_keys.
      exists k. apply PyDictFacts.get_In, Hg. }
    destruct (inv_rule_lis _ _ HI ev Hr) as [Hk|Hk]; [|rewrite Hq in Hk; destruct Hk].
    apply PyDictFacts.in_keys_get in Hk as [s Hs].
    unfold bind at 1, remove_listener, bind at 1, get, PyDict.pop at 1. simpl. rewrite Hs.
    unfold bind at 1, modify, stream_close, bind at 1, modify. simpl.
    rewrite conn_execute_quiet by exact Hq. simpl.
    destruct (fst (chan_execute (session_unsubscribe (VStr ev)) _)) as [u|x] eqn:Eu; simpl;
      (do 2 eexists; split; [reflexivity|]; simpl; split; [reflexivity|];
       split; [intros Hn; contradiction|]; intros _; exists s;
       split; [first [exact Hs|reflexivity]|]; split; [reflexivity|]; split; [reflexivity|];
       rewrite <- app_assoc; split; reflexivity).
  - do 2 eexists. split; [reflexivity|]. simpl. split; [reflexivity|].
    split; [intros _; auto|]. intros Hn. exfalso. unfold has_rule in Hn. simpl in Hn.
    apply no_other_rule in Hn. rewrite Hn in Hz. discriminate.
Qed.

(** C35: an intercept id that only has a [defaultdict] placeholder (one
    [handle_requests] inserted for an id the client never registered)
    cannot be removed cleanly: [remove_intercept] sends the removal, pops
    the placeholder, finds no other entry without an event name, and
    calls [remove_listener(None)], whose [self.listeners.pop(None)] raises
    [KeyError]; the entry is gone, the listeners are untouched and no
    [session.unsubscribe] is sent. *)
Theorem remove_intercept_placeholder k e w a :
  starts (tasks w) = [] ->
  PyDict.get (intercepts (net w)) k = Some e -> event_name e = None ->
  (forall e', In e' (PyDict.values (PyDict.remove (intercepts (net w)) k)) -> event_name e' <> None) ->
  fst (chan_execute (remove_intercept_payload k) (chan w)) = Ok a ->
  exists w', remove_intercept k w = (Exc (KeyError "None"), w') /\
    intercepts (net w') = PyDict.remove (intercepts (net w)) k /\
    listeners (net w') = listeners (net w) /\
    sent w' = sent w ++ [remove_intercept_payload k].
Proof.
  intros Hq Hg He Hothers Ha. rewrite remove_intercept_unfold, conn_execute_quiet by exact Hq. rewrite Ha.
  cbv beta iota.
  replace (PyDict.pop _ k) with (Some (e, PyDict.remove (intercepts (net w)) k))
    by (unfold PyDict.pop; simpl; rewrite Hg; reflexivity).
  rewrite He.
  replace (filter _ (PyDict.values (PyDict.remove (intercepts (net w)) k))) with (@nil entry).
  - simpl. eexists. split; [reflexivity|]. auto.
  - symmetry. apply filter_all_false. intros x Hx.
    destruct (event_name x) eqn:E; [reflexivity|]. exfalso. exact (Hothers x Hx E).
Qed.

(** C6: a successful [add_request_handler] writes, in this order, a
    [session.subscribe] for [network.beforeRequestSent] (whether or not the
    session is already subscribed) and the [network.addIntercept] command;
    the id the remote end returned then names an entry of the event with
    the handler appended to those the id already had, and a listener task
    for the event is started. *)
Theorem add_request_handler_ok h pats w k w' :
  add_request_handler h pats w = (Ok k, w') ->
  intercepts (net w') =
    PyDict.set (intercepts (net w)) k
      (mk_entry (Some Schema.BeforeRequestSent_event_class) (old_handlers w k ++ [h])) /\
  sent w' = sent w ++ [session_subscribe (VStr Schema.BeforeRequestSent_event_class);
                       add_intercept_payload pats] /\
  In Schema.BeforeRequestSent_event_class (starts (tasks w')).
Proof.
  intros H. rewrite add_request_handler_unfold in H.
  destruct (conn_execute _ w) as [[a1|err] w1] eqn:E1; [|discriminate].
  destruct (conn_execute_frame _ _ _ _ E1) as (Hi1 & Hs1 & _).
  destruct (conn_execute _ w1) as [[res|err] w2] eqn:E2; [|discriminate].
  destruct (conn_execute_frame _ _ _ _ E2) as (Hi2 & Hs2 & _).
  destruct (getitem res "intercept") as [iv|err]; [|discriminate].
  destruct (as_key iv) as [k'|err]; inversion H; subst; clear H. simpl.
  unfold old_handlers. rewrite Hi2, Hi1, Hs2, Hs1, <- app_assoc.
  split; [reflexivity|split; [reflexivity|]].
  rewrite starts_app. apply in_or_app. right. left. reflexivity.
Qed.

(** ** The handler pipeline *)

Lemma run_handlers_app hs1 hs2 request :
  run_handlers (hs1 ++ hs2) request =
  match run_handlers hs1 request with
  | Ok r => run_handlers hs2 r
  | Exc e => Exc e
  end.
Proof.
  revert request; induction hs1 as [|h r IH]; intros request; simpl; [reflexivity|].
  destruct (h request); [apply IH|reflexivity].
Qed.

Lemma handle_loop_known ids request w :
  (forall i, In i ids -> PyDict.get (intercepts (net w)) i <> None) ->
  handle_loop (map VStr ids) request w = (run_handlers (pipeline w ids) request, w).
Proof.
  unfold pipeline. revert request; induction ids as [|i r IH]; intros request Hk; simpl; [reflexivity|].
  autorewrite with pym. unfold intercepts_getitem. autorewrite with pym.
  unfold old_handlers at 1.
  destruct (PyDict.get (intercepts (net w)) i) as [e|] eqn:Hg; [|exfalso; eapply Hk; [left; reflexivity|exact Hg]].
  autorewrite with pym. rewrite run_handlers_app.
  destruct (run_handlers (handlers e) request) as [r'|err]; autorewrite with pym; [|reflexivity].
  apply IH. intros j Hj. apply Hk. right. exact Hj.
Qed.

(** C3: the pipeline of [handle_requests]: when every intercept id of the
    event names an entry of the table, the request goes through the
    handlers of the first id in registration order, then those of the
    second, and so on (the first exception stops it), and the table is left
    as it was. *)
Theorem handle_requests_order w params request ids :
  getattr params "request" = Ok request ->
  getattr params "intercepts" = Ok (VList (map VStr ids)) ->
  (forall i, In i ids -> PyDict.get (intercepts (net w)) i <> None) ->
  handle_requests params w = (run_handlers (pipeline w ids) request, w).
Proof.
  intros Hr Hi Hk. unfold handle_requests. rewrite Hr, Hi. autorewrite with pym.
  apply handle_loop_known, Hk.
Qed.

Lemma handle_loop_cons i r request :
  handle_loop (i :: r) request =
  (key <- lift (as_key i) ;; e <- intercepts_getitem key ;;
   request' <- lift (run_handlers (handlers e) request) ;; handle_loop r request').
Proof. reflexivity. Qed.

Lemma set_intercepts_twice d1 d2 w :
  set_intercepts d1 (set_intercepts d2 w) = set_intercepts d1 w.
Proof. reflexivity. Qed.

Lemma set_intercepts_same w : set_intercepts (intercepts (net w)) w = w.
Proof. destruct w as [[l i] c s t st n cr d]. reflexivity. Qed.

Lemma pipeline_placeholder w i ids :
  PyDict.get (intercepts (net w)) i = None ->
  pipeline (set_intercepts (PyDict.set (intercepts (net w)) i default_entry) w) ids = pipeline w ids.
Proof.
  intros Hg. unfold pipeline. apply flat_map_ext. intros j. unfold old_handlers; simpl.
  destruct (String.eqb_spec i j) as [<-|Hne].
  - rewrite PyDictFacts.get_set_eq, Hg. reflexivity.
  - rewrite PyDictFacts.get_set_ne by exact Hne. reflexivity.
Qed.

(** The outer loop of [handle_requests] against the reference: when the
    pipeline returns, the loop returns the same request and the table has
    gained the placeholders of [lookup_all]. *)
Lemma handle_loop_lookup ids : forall request w r,
  run_handlers (pipeline w ids) request = Ok r ->
  handle_loop (map VStr ids) request w =
  (Ok r, set_intercepts (lookup_all (intercepts (net w)) ids) w).
Proof.
  induction ids as [|i rest IH]; intros request w r Hp; simpl in *.
  - injection Hp as <-. rewrite set_intercepts_same. reflexivity.
  - autorewrite with pym. unfold intercepts_getitem. autorewrite with pym.
    unfold pipeline in Hp; simpl in Hp. rewrite run_handlers_app in Hp.
    unfold PyDict.mem, old_handlers in *.
    destruct (PyDict.get (intercepts (net w)) i) as [e|] eqn:Hg; autorewrite with pym.
    + destruct (run_handlers (handlers e) request) as [r1|err]; [|discriminate].
      autorewrite with pym. apply IH, Hp.
    + simpl. autorewrite with pym. rewrite (IH request _ r); [reflexivity|].
      rewrite pipeline_placeholder by exact Hg. exact Hp.
Qed.

(** C9: [handle_requests] is the reference pipeline, and it writes to the
    table: every intercept id of the event that the table lacks gets a
    placeholder entry ([{"event_name": None, "handlers": []}]) through the
    [defaultdict] lookup, instead of being skipped. *)
Theorem handle_requests_inserts_placeholder w params request ids r :
  getattr params "request" = Ok request ->
  getattr params "intercepts" = Ok (VList (map VStr ids)) ->
  run_handlers (pipeline w ids) request = Ok r ->
  handle_requests params w =
  (Ok r, set_intercepts (lookup_all (intercepts (net w)) ids) w).
Proof.
  intros Hr Hi Hp. unfold handle_requests. rewrite Hr, Hi. autorewrite with pym.
  change (py_iter (VList (map VStr ids))) with (@Ok (list pyval) (map VStr ids)).
  autorewrite with pym. apply handle_loop_lookup, Hp.
Qed.

Lemma mem_notin_keys (d : PyDict.t entry) i : PyDict.mem d i = false -> ~ In i (PyDict.keys d).
Proof.
  intros Hm Hin. apply PyDictFacts.in_keys_get in Hin as [v Hv]. unfold PyDict.mem in Hm.
  rewrite Hv in Hm. discriminate.
Qed.

(** The placeholders of [lookup_all]: at most one per id looked up, and
    none when every id is known. *)
Lemma lookup_all_length d ids :
  length d <= length (lookup_all d ids) <= length d + length ids /\
  (length (lookup_all d ids) = length d <-> forall i, In i ids -> PyDict.mem d i = true).
Proof.
  revert d; induction ids as [|i r IH]; intros d; simpl.
  - split; [lia|tauto].
  - destruct (PyDict.mem d i) eqn:Hm.
    + destruct (IH d) as [Hb Hiff]. split; [lia|]. rewrite Hiff.
      split; [intros H j [<-|Hj]; auto|intros H j Hj; apply H; auto].
    + destruct (IH (PyDict.set d i default_entry)) as [Hb _].
      rewrite PyDictFacts.length_set_notin in Hb by (apply mem_notin_keys, Hm).
      split; [lia|]. split; [lia|intros H; rewrite (H i (or_introl eq_refl)) in Hm; discriminate].
Qed.

(** A lookup through the [defaultdict] never changes an entry it finds. *)
Lemma lookup_all_keeps d ids k v : PyDict.get d k = Some v -> PyDict.get (lookup_all d ids) k = Some v.
Proof.
  revert d; induction ids as [|i r IH]; intros d H; simpl; [exact H|]. apply IH.
  destruct (PyDict.mem d i) eqn:Hm; [exact H|]. rewrite PyDictFacts.get_set_ne; [exact H|].
  intros ->. unfold PyDict.mem in Hm. rewrite H in Hm. discriminate.
Qed.

(** C26: the [defaultdict] leak is bounded: an event whose handlers
    return keeps every entry of the intercept table as it was, grows the
    table by at most the number of intercept ids it names, and leaves
    its size unchanged exactly when every id it names is known. *)
Theorem handle_requests_growth_bound w params request ids r :
  getattr params "request" = Ok request ->
  getattr params "intercepts" = Ok (VList (map VStr ids)) ->
  run_handlers (pipeline w ids) request = Ok r ->
  exists w', handle_requests params w = (Ok r, w') /\
    (forall k v, PyDict.get (intercepts (net w)) k = Some v -> PyDict.get (intercepts (net w')) k = Some v) /\
    length (intercepts (net w)) <= length (intercepts (net w')) <= length (intercepts (net w)) + length ids /\
    (length (intercepts (net w')) = length (intercepts (net w)) <->
     forall i, In i ids -> PyDict.mem (intercepts (net w)) i = true).
Proof.
  intros Hr Hi Hp. exists (set_intercepts (lookup_all (intercepts (net w)) ids) w). split.
  - unfold handle_requests. rewrite Hr, Hi. autorewrite with pym.
    change (py_iter (VList (map VStr ids))) with (@Ok (list pyval) (map VStr ids)).
    autorewrite with pym. apply handle_loop_lookup, Hp.
  - simpl. split; [intros k v; apply lookup_all_keeps|apply lookup_all_length].
Qed.

(** ** [handle_events] *)

(** The pipeline of a request no handler applies to returns the captured
    [RequestData] dict, which [ContinueRequestParameters] rejects. *)
Lemma handle_events_unhandled w params d ids :
  isinstance params "BeforeRequestSentParameters" = true ->
  getattr params "request" = Ok (VDict d) ->
  getattr params "intercepts" = Ok (VList (map VStr ids)) ->
  pipeline w ids = [] ->
  In "headersSize" (PyDict.keys d) ->
  exists msg w', handle_events params w = (Exc (TypeError msg), w') /\ sent w' = sent w.
Proof.
  intros Hc Hr Hi Hh Hk. unfold handle_events. rewrite Hc. unfold handle_requests.
  rewrite Hr, Hi. autorewrite with pym. change (py_iter (VList (map VStr ids))) with (@Ok (list pyval) (map VStr ids)).
  autorewrite with pym.
  unfold bind at 1. rewrite (handle_loop_lookup ids (VDict d) w (VDict d)) by (rewrite Hh; reflexivity).
  destruct (dc_init_unknown_kw Schema.ContinueRequestParameters d "headersSize") as [msg Hm];
    [exact Hk|simpl; intuition discriminate|].
  unfold dc_init_kw. rewrite Hm. autorewrite with pym. eauto.
Qed.

(** C2: a blocked request no handler applies to (every intercept id of the
    event is unknown to the table, or holds no handler) is never
    continued: the pipeline hands back the captured [RequestData] dict,
    whose [headersSize] key [ContinueRequestParameters] does not accept,
    so the call raises [TypeError] before any [continueRequest] is sent. *)
Theorem handle_events_no_handler_no_continue w params d ids :
  isinstance params "BeforeRequestSentParameters" = true ->
  getattr params "request" = Ok (VDict d) ->
  getattr params "intercepts" = Ok (VList (map VStr ids)) ->
  pipeline w ids = [] ->
  In "headersSize" (PyDict.keys d) ->
  exists msg w', handle_events params w = (Exc (TypeError msg), w') /\ sent w' = sent w.
Proof. exact (handle_events_unhandled w params d ids). Qed.

(** A handler that raises ends [handle_events] with its exception. *)
Lemma handle_events_exc w params request ids err :
  isinstance params "BeforeRequestSentParameters" = true ->
  getattr params "request" = Ok request ->
  getattr params "intercepts" = Ok (VList (map VStr ids)) ->
  (forall i, In i ids -> PyDict.get (intercepts (net w)) i <> None) ->
  run_handlers (pipeline w ids) request = Exc err ->
  handle_events params w = (Exc err, w).
Proof.
  intros Hc Hr Hi Hk Hx. unfold handle_events, handle_requests. rewrite Hc, Hr, Hi.
  autorewrite with pym. change (py_iter (VList (map VStr ids))) with (@Ok (list pyval) (map VStr ids)).
  autorewrite with pym. unfold bind at 1. rewrite (handle_loop_known ids request w Hk), Hx. reflexivity.
Qed.

(** C7: when a handler raises, the exception leaves [handle_events]: the
    remaining handlers do not run and no [continueRequest] is sent for the
    request, whose state is left as it was. *)
Theorem handle_events_handler_raises w params request ids err :
  isinstance params "BeforeRequestSentParameters" = true ->
  getattr params "request" = Ok request ->
  getattr params "intercepts" = Ok (VList (map VStr ids)) ->
  (forall i, In i ids -> PyDict.get (intercepts (net w)) i <> None) ->
  run_handlers (pipeline w ids) request = Exc err ->
  handle_events params w = (Exc err, w).
Proof. exact (handle_events_exc w params request ids err). Qed.

(** The payload of the [network.continueRequest] command for parameters [p]. *)
Definition continue_request_payload (p : pyval) : pyval :=
  Bidi.cmd (VObj "ContinueRequest" [("params", p); ("method", VStr "network.continueRequest")]).

(** The continuation [handle_events] sends for the handlers' dict. *)
Lemma handle_events_sends w params request ids d p :
  isinstance params "BeforeRequestSentParameters" = true ->
  getattr params "request" = Ok request ->
  getattr params "intercepts" = Ok (VList (map VStr ids)) ->
  (forall i, In i ids -> PyDict.get (intercepts (net w)) i <> None) ->
  run_handlers (pipeline w ids) request = Ok (VDict d) ->
  dc_init_kw Schema.ContinueRequestParameters (VDict d) = Ok p ->
  exists r w', handle_events params w = (r, w') /\
    sent w' = sent w ++ [continue_request_payload p] /\
    intercepts (net w') = intercepts (net w) /\
    r = match fst (chan_execute (continue_request_payload p) (chan w)) with
        | Ok _ => Ok tt | Exc e => Exc e end.
Proof.
  intros Hc Hr Hi Hk Hx Hp. unfold handle_events, handle_requests. rewrite Hc, Hr, Hi.
  autorewrite with pym. change (py_iter (VList (map VStr ids))) with (@Ok (list pyval) (map VStr ids)).
  autorewrite with pym. unfold bind at 1. rewrite (handle_loop_known ids request w Hk), Hx. rewrite Hp.
  unfold Schema.continue_request, Schema.run_command. autorewrite with schema_rw pym.
  unfold bind at 1. destruct (conn_execute _ w) as [r1 w1] eqn:E.
  destruct (conn_execute_frame _ _ _ _ E) as (Hi1 & Hs1 & _ & Hr1 & _).
  unfold continue_request_payload. rewrite <- Hr1.
  destruct r1; eexists; eexists; (split; [reflexivity|]); auto.
Qed.

(** C10: when the handlers return a dict [ContinueRequestParameters]
    accepts, exactly one [continueRequest] carrying it is sent, the table
    is left as it was, and the outcome is the connection's answer. *)
Theorem handle_events_continue w params request ids d p :
  isinstance params "BeforeRequestSentParameters" = true ->
  getattr params "request" = Ok request ->
  getattr params "intercepts" = Ok (VList (map VStr ids)) ->
  (forall i, In i ids -> PyDict.get (intercepts (net w)) i <> None) ->
  run_handlers (pipeline w ids) request = Ok (VDict d) ->
  dc_init_kw Schema.ContinueRequestParameters (VDict d) = Ok p ->
  exists r w', handle_events params w = (r, w') /\
    sent w' = sent w ++ [continue_request_payload p] /\
    intercepts (net w') = intercepts (net w) /\
    r = match fst (chan_execute (continue_request_payload p) (chan w)) with
        | Ok _ => Ok tt | Exc e => Exc e end.
Proof. exact (handle_events_sends w params request ids d p). Qed.

(** A turn of a listening loop on a blocked event is [handle_events] of
    its parameters. *)
Lemma listener_iteration_blocked ev_obj params w :
  getattr ev_obj "params" = Ok params -> getattr params "isBlocked" = Ok (VBool true) ->
  listener_iteration ev_obj w = handle_events params w.
Proof.
  intros Hp Hb. unfold listener_iteration. rewrite Hp. autorewrite with pym. rewrite Hb.
  autorewrite with pym. reflexivity.
Qed.

(** An exception other than [ClosedResourceError] ending a turn cancels
    the nursery, and a cancelled session makes no step. *)
Lemma after_iteration_crash s e w :
  e <> ClosedResourceError -> after_iteration s (Exc e) w = set_crashed (Some e) w.
Proof. intros Hne. destruct e; simpl; congruence. Qed.

Lemma crashed_session_over e w : session_over (set_crashed (Some e) w).
Proof. intros w'' H. inversion H; simpl in *; discriminate. Qed.

(** C11: a handler that raises (any exception but [ClosedResourceError])
    while a listening loop handles a blocked event whose intercepts are
    registered cancels the whole session: the loop's step leaves the
    nursery crashed with the handler's exception, and from there the
    session makes no step at all, neither a call of the caller nor a turn
    of another loop. *)
Theorem listener_exception_cancels_session w ev s json ev_obj params request ids err :
  crashed w = None -> In (TaskLoop ev s) (tasks w) -> In (s, ev) (streams w) ->
  Schema.decode_before_request_sent json = Ok ev_obj ->
  getattr ev_obj "params" = Ok params -> getattr params "isBlocked" = Ok (VBool true) ->
  isinstance params "BeforeRequestSentParameters" = true ->
  getattr params "request" = Ok request ->
  getattr params "intercepts" = Ok (VList (map VStr ids)) ->
  (forall i, In i ids -> PyDict.get (intercepts (net w)) i <> None) ->
  run_handlers (pipeline w ids) request = Exc err -> err <> ClosedResourceError ->
  step w (set_crashed (Some err) w) /\ session_over (set_crashed (Some err) w).
Proof.
  intros Hc Ht Hs Hd Hp Hb Hi Hr Hids Hk Hx Hne.
  assert (Hl : listener_iteration ev_obj w = (Exc err, w)).
  { rewrite (listener_iteration_blocked _ _ _ Hp Hb). exact (handle_events_exc _ _ _ _ _ Hi Hr Hids Hk Hx). }
  split; [rewrite <- (after_iteration_crash s err w Hne); eapply step_event; eauto|].
  apply crashed_session_over.
Qed.

(** C36: a [continueRequest] the remote end rejects (a request it no
    longer holds, a malformed continuation: any error but
    [ClosedResourceError]) cancels the whole session, like a raising
    handler: the turn of the listening loop sends the continuation, its
    exception escapes [add_listener], and the session makes no step
    afterwards (spec §5: a failed continuation does not stop the
    dispatcher). *)
Theorem continue_error_cancels_session w ev s json ev_obj params request ids d p e :
  crashed w = None -> In (TaskLoop ev s) (tasks w) -> In (s, ev) (streams w) ->
  Schema.decode_before_request_sent json = Ok ev_obj ->
  getattr ev_obj "params" = Ok params -> getattr params "isBlocked" = Ok (VBool true) ->
  isinstance params "BeforeRequestSentParameters" = true ->
  getattr params "request" = Ok request ->
  getattr params "intercepts" = Ok (VList (map VStr ids)) ->
  (forall i, In i ids -> PyDict.get (intercepts (net w)) i <> None) ->
  run_handlers (pipeline w ids) request = Ok (VDict d) ->
  dc_init_kw Schema.ContinueRequestParameters (VDict d) = Ok p ->
  fst (chan_execute (continue_request_payload p) (chan w)) = Exc e -> e <> ClosedResourceError ->
  exists w', sent w' = sent w ++ [continue_request_payload p] /\
    step w (set_crashed (Some e) w') /\ session_over (set_crashed (Some e) w').
Proof.
  intros Hc Ht Hs Hd Hp Hb Hi Hr Hids Hk Hx Hpc Hrem Hne.
  destruct (handle_events_sends w params request ids d p Hi Hr Hids Hk Hx Hpc) as (r & w' & E & Hsent & _ & Hres).
  rewrite Hrem in Hres. subst r. exists w'. split; [exact Hsent|].
  split; [|apply crashed_session_over].
  rewrite <- (after_iteration_crash s e w' Hne). eapply step_event; eauto.
  rewrite (listener_iteration_blocked _ _ _ Hp Hb). exact E.
Qed.

(** What a raising [add_request_handler] leaves: the table, the trace up to
    the failing command, and the nursery of its first checkpoint. *)
Lemma add_request_handler_exc_frame h pats w e w' :
  add_request_handler h pats w = (Exc e, w') ->
  intercepts (net w') = intercepts (net w) /\
  (sent w' = sent w ++ [session_subscribe (VStr Schema.BeforeRequestSent_event_class)] \/
   sent w' = sent w ++ [session_subscribe (VStr Schema.BeforeRequestSent_event_class);
                        add_intercept_payload pats]) /\
  tasks w' = tasks (snd (checkpoint w)) /\
  listeners (net w') = listeners (net (snd (checkpoint w))) /\
  starts (tasks w') = [].
Proof.
  intros H. rewrite add_request_handler_unfold in H.
  destruct (conn_execute _ w) as [[a1|err] w1] eqn:E1;
    destruct (conn_execute_frame _ _ _ _ E1) as (Hi1 & Hs1 & _);
    destruct (conn_execute_nursery _ _ _ _ E1) as (Ht1 & Hl1 & _ & Hq1);
    [|injection H as _ <-; auto 6].
  assert (Hw : forall r2 w2, conn_execute (add_intercept_payload pats) w1 = (r2, w2) ->
    intercepts (net w2) = intercepts (net w) /\
    sent w2 = sent w ++ [session_subscribe (VStr Schema.BeforeRequestSent_event_class); add_intercept_payload pats] /\
    tasks w2 = tasks (snd (checkpoint w)) /\ listeners (net w2) = listeners (net (snd (checkpoint w))) /\
    starts (tasks w2) = []).
  { intros r2 w2 E2. destruct (conn_execute_frame _ _ _ _ E2) as (Hi2 & Hs2 & _).
    destruct (conn_execute_nursery _ _ _ _ E2) as (Ht2 & Hl2 & _ & Hq2).
    rewrite checkpoint_quiet in Ht2, Hl2 by exact Hq1. simpl in Ht2, Hl2.
    rewrite Hi2, Hi1, Hs2, Hs1, <- app_assoc, Ht2, Hl2, Ht1, Hl1. auto using checkpoint_starts. }
  destruct (Hw _ _ (surjective_pairing (conn_execute (add_intercept_payload pats) w1)))
    as (Hi2 & Hs2 & Ht2 & Hl2 & Hq2).
  destruct (conn_execute _ w1) as [[res|err] w2]; simpl in Hi2, Hs2, Ht2, Hl2, Hq2;
    [|injection H as _ <-; auto 6].
  destruct (getitem res "intercept") as [iv|err]; [|injection H as _ <-; auto 6].
  destruct (as_key iv) as [k|err]; [discriminate|injection H as _ <-; auto 6].
Qed.

(** C17: when [add_request_handler] raises (the remote end rejects the
    intercept, or answers without an id), the table is as it was, no
    listener task is started or pending (the tasks and listeners are those
    the nursery's own checkpoint left), and the [session.subscribe] it
    sent first is not undone: the session stays subscribed to an event no
    rule names. *)
Theorem add_request_handler_error h pats w e w' :
  add_request_handler h pats w = (Exc e, w') ->
  intercepts (net w') = intercepts (net w) /\
  (sent w' = sent w ++ [session_subscribe (VStr Schema.BeforeRequestSent_event_class)] \/
   sent w' = sent w ++ [session_subscribe (VStr Schema.BeforeRequestSent_event_class);
                        add_intercept_payload pats]) /\
  tasks w' = tasks (snd (checkpoint w)) /\
  listeners (net w') = listeners (net (snd (checkpoint w))) /\
  starts (tasks w') = [].
Proof. exact (add_request_handler_exc_frame h pats w e w'). Qed.

End Spec.

(** ** Scenarios and witnesses, on the reference remote end *)

Section Witnesses.
#[local] Existing Instance RefBrowserChannel.

(** The number of payloads of the trace with the given method. *)
Definition count_method (m : string) (l : list pyval) : nat :=
  length (filter (fun p => match payload_method p with Some m' => String.eqb m m' | None => false end) l).

Definition url_pattern (u : string) : pyval :=
  VList [VObj "UrlPatternString" [("pattern", VStr u); ("type_", VStr "string")]].

(** The handler of the repository's test: it redirects to [u3]. *)
Definition redirect_handler : handler :=
  fun params => match getitem params "request" with
                | Ok r => Ok (VDict [("request", r); ("url", VStr "u3")])
                | Exc e => Exc e
                end.

Definition failing_handler : handler := fun _ => Exc (HandlerException "boom").

Definition sc1 : World := snd (run_call (CallAddRequestHandler redirect_handler (url_pattern "u1")) wit_w0).
Definition sc2 : World := snd (run_call (CallAddRequestHandler redirect_handler (url_pattern "u2")) sc1).
Definition sc3 : World := snd (run_call (CallRemoveIntercept "intercept-1") sc2).
Definition sc4 : World := snd (run_call (CallRemoveIntercept "intercept-0") sc3).

(** Two rules share [beforeRequestSent]; removing one leaves the
    listener in place and sends no unsubscribe; removing the second closes
    the listener's stream and sends exactly one [session.unsubscribe]
    (while each registration sent its own [session.subscribe]). *)
Example two_rules_teardown :
  PyDict.keys (listeners (net sc3)) = [Schema.BeforeRequestSent_event_class] /\
  count_method "session.unsubscribe" (sent sc3) = 0 /\
  listeners (net sc4) = [] /\ streams sc4 = [] /\ intercepts (net sc4) = [] /\
  count_method "session.unsubscribe" (sent sc4) = 1 /\
  count_method "session.subscribe" (sent sc4) = 2.
Proof. vm_compute. repeat split. Qed.

(** The captured request of a decoded [beforeRequestSent] event: the raw
    [RequestData] dict, since [from_json] does not decode nested values. *)
Definition req_dict : pyval :=
  VDict [("request", VStr "r1"); ("url", VStr "u1"); ("method", VStr "GET");
         ("headersSize", VInt 0); ("timings", VDict [])].

(** A blocked [beforeRequestSent] event's [params] on the wire, for
    request [r] to [url], naming the intercepts [ids]. *)
Definition blocked (r url : string) (ids : list string) : pyval :=
  VDict [("isBlocked", VBool true); ("redirectCount", VInt 0);
         ("request", VDict [("request", VStr r); ("url", VStr url); ("method", VStr "GET");
                            ("headersSize", VInt 0); ("timings", VDict [])]);
         ("timestamp", VInt 0); ("initiator", VDict [("type", VStr "other")]);
         ("intercepts", VList (map VStr ids))].

Definition event_params (ids : list string) : pyval :=
  VObj "BeforeRequestSentParameters"
    [("isBlocked", VBool true); ("redirectCount", VInt 0); ("request", req_dict);
     ("timestamp", VInt 0); ("initiator", VDict [("type", VStr "other")]); ("context", VNone);
     ("navigation", VNone); ("intercepts", VList (map VStr ids))].

Definition wr : World := snd (checkpoint sc1).
Definition wf_ : World := snd (checkpoint (snd (run_call (CallAddRequestHandler failing_handler VNone) wit_w0))).

Lemma handle_requests_order_witness :
  handle_requests (event_params ["intercept-0"]) wr =
  (run_handlers (pipeline wr ["intercept-0"]) req_dict, wr).
Proof.
  apply handle_requests_order; [reflexivity|reflexivity|].
  intros i [<-|[]]. vm_compute. discriminate.
Defined.

Lemma handle_events_no_handler_no_continue_witness :
  exists msg w', handle_events (event_params ["intercept-9"]) wit_w2 = (Exc (TypeError msg), w') /\
                 sent w' = sent wit_w2.
Proof.
  apply (handle_events_no_handler_no_continue wit_w2 _
           [("request", VStr "r1"); ("url", VStr "u1"); ("method", VStr "GET");
            ("headersSize", VInt 0); ("timings", VDict [])] ["intercept-9"]);
    [reflexivity|reflexivity|reflexivity|vm_compute; reflexivity|vm_compute; tauto].
Defined.

Lemma handle_events_handler_raises_witness :
  handle_events (event_params ["intercept-0"]) wf_ = (Exc (HandlerException "boom"), wf_).
Proof.
  apply (handle_events_handler_raises wf_ _ req_dict ["intercept-0"]);
    [reflexivity|reflexivity|reflexivity| |vm_compute; reflexivity].
  intros i [<-|[]]. vm_compute. discriminate.
Defined.

Lemma handle_events_continue_witness :
  exists r w', handle_events (event_params ["intercept-0"]) wr = (r, w') /\
    sent w' = sent wr ++ [continue_request_payload
      (VObj "ContinueRequestParameters"
         [("request", VStr "r1"); ("body", VNone); ("cookies", VNone); ("headers", VNone);
          ("method", VNone); ("url", VStr "u3")])] /\
    intercepts (net w') = intercepts (net wr) /\
    r = match fst (chan_execute (continue_request_payload
      (VObj "ContinueRequestParameters"
         [("request", VStr "r1"); ("body", VNone); ("cookies", VNone); ("headers", VNone);
          ("method", VNone); ("url", VStr "u3")])) (chan wr)) with
        | Ok _ => Ok tt | Exc e => Exc e end.
Proof.
  apply (handle_events_continue wr _ req_dict ["intercept-0"]
           [("request", VStr "r1"); ("url", VStr "u3")]);
    [reflexivity|reflexivity|reflexivity| |vm_compute; reflexivity|vm_compute; reflexivity].
  intros i [<-|[]]. vm_compute. discriminate.
Defined.

Lemma handle_requests_inserts_placeholder_witness :
  handle_requests (event_params ["intercept-9"]) wit_w2 =
  (Ok req_dict, set_intercepts (lookup_all (intercepts (net wit_w2)) ["intercept-9"]) wit_w2).
Proof. apply (handle_requests_inserts_placeholder wit_w2 _ req_dict); [reflexivity|reflexivity|vm_compute; reflexivity]. Defined.

Lemma handle_requests_growth_bound_witness :
  exists w', handle_requests (event_params ["intercept-9"; "intercept-0"]) wr = (Ok (VDict [("request", VStr "r1"); ("url", VStr "u3")]), w') /\
    (forall k v, PyDict.get (intercepts (net wr)) k = Some v -> PyDict.get (intercepts (net w')) k = Some v) /\
    length (intercepts (net wr)) <= length (intercepts (net w')) <= length (intercepts (net wr)) + length ["intercept-9"; "intercept-0"] /\
    (length (intercepts (net w')) = length (intercepts (net wr)) <->
     forall i, In i ["intercept-9"; "intercept-0"] -> PyDict.mem (intercepts (net wr)) i = true).
Proof.
  apply (handle_requests_growth_bound wr _ req_dict); [reflexivity|reflexivity|vm_compute; reflexivity].
Defined.

(** Two rules; the world once the nursery has run the second start. *)
Definition wq : World := snd (checkpoint sc2).

Definition wq_entry : entry :=
  match PyDict.get (intercepts (net wq)) "intercept-1" with Some e => e | None => default_entry end.

Lemma wq_reachable : reachable wq.
Proof.
  apply (reach_step sc2); [|apply step_run_starts; vm_compute; reflexivity].
  apply (reach_step sc1); [|eapply step_call; [vm_compute; reflexivity|apply surjective_pairing]].
  apply (reach_step wit_w0); [apply reach_init|eapply step_call; [reflexivity|apply surjective_pairing]].
Qed.

Lemma remove_intercept_known_witness :
  exists r w', remove_intercept "intercept-1" wq = (r, w') /\
    intercepts (net w') = PyDict.remove (intercepts (net wq)) "intercept-1" /\
    (has_rule w' Schema.BeforeRequestSent_event_class ->
       r = Ok tt /\ listeners (net w') = listeners (net wq) /\ streams w' = streams wq /\
       sent w' = sent wq ++ [remove_intercept_payload "intercept-1"]) /\
    (~ has_rule w' Schema.BeforeRequestSent_event_class -> exists s,
       PyDict.get (listeners (net wq)) Schema.BeforeRequestSent_event_class = Some s /\
       listeners (net w') = PyDict.remove (listeners (net wq)) Schema.BeforeRequestSent_event_class /\
       streams w' = filter (fun p => negb (Nat.eqb (fst p) s)) (streams wq) /\
       sent w' = sent wq ++ [remove_intercept_payload "intercept-1";
                            session_unsubscribe (VStr Schema.BeforeRequestSent_event_class)] /\
       r = match fst (chan_execute (session_unsubscribe (VStr Schema.BeforeRequestSent_event_class))
                        (snd (chan_execute (remove_intercept_payload "intercept-1") (chan wq)))) with
           | Ok _ => Ok tt
           | Exc x => Exc x
           end).
Proof.
  apply (remove_intercept_known "intercept-1" wq_entry Schema.BeforeRequestSent_event_class wq (VDict []));
    [apply reachable_Inv, wq_reachable|vm_compute; reflexivity|vm_compute; reflexivity
    |vm_compute; reflexivity|vm_compute; reflexivity].
Defined.

(** A loop whose rule's only handler raises, and the blocked event it gets. *)
Definition wf_json : pyval := blocked "r1" "u1" ["intercept-0"].
Definition wf_ev : pyval := match Schema.decode_before_request_sent wf_json with Ok v => v | Exc _ => VNone end.
Definition wf_params : pyval := match getattr wf_ev "params" with Ok v => v | Exc _ => VNone end.
Definition wf_request : pyval := match getattr wf_params "request" with Ok v => v | Exc _ => VNone end.

Lemma listener_exception_cancels_session_witness :
  step wf_ (set_crashed (Some (HandlerException "boom")) wf_) /\
  session_over (set_crashed (Some (HandlerException "boom")) wf_).
Proof.
  apply (listener_exception_cancels_session wf_ Schema.BeforeRequestSent_event_class 0 wf_json wf_ev
           wf_params wf_request ["intercept-0"]); try (vm_compute; reflexivity).
  - vm_compute. left. reflexivity.
  - vm_compute. left. reflexivity.
  - intros i [<-|[]]. vm_compute. discriminate.
  - discriminate.
Defined.

Lemma add_request_handler_ok_witness :
  let r := add_request_handler redirect_handler (url_pattern "u2") wr in
  intercepts (net (snd r)) =
    PyDict.set (intercepts (net wr)) "intercept-1"
      (mk_entry (Some Schema.BeforeRequestSent_event_class) (old_handlers wr "intercept-1" ++ [redirect_handler])) /\
  sent (snd r) = sent wr ++ [session_subscribe (VStr Schema.BeforeRequestSent_event_class);
                             add_intercept_payload (url_pattern "u2")] /\
  In Schema.BeforeRequestSent_event_class (starts (tasks (snd r))).
Proof.
  intros r. apply (add_request_handler_ok redirect_handler (url_pattern "u2") wr "intercept-1").
  assert (E : fst r = Ok "intercept-1") by (vm_compute; reflexivity).
  rewrite <- E. apply surjective_pairing.
Defined.


End Witnesses.

(** A remote end that rejects every intercept (e.g. an invalid URL pattern). *)
Definition RejectingRemote : Channel := {|
  chan_state := unit;
  chan_execute := fun p s =>
    match payload_method p with
    | Some "network.addIntercept" => (Exc (ProtocolError "invalid url pattern"), s)
    | _ => (Ok (VDict []), s)
    end
|}.

Lemma add_request_handler_error_witness :
  let w := @init_world RejectingRemote tt wit_driver in
  let r := add_request_handler redirect_handler (url_pattern "u1") w in
  intercepts (net (snd r)) = intercepts (net w) /\
  (sent (snd r) = sent w ++ [session_subscribe (VStr Schema.BeforeRequestSent_event_class)] \/
   sent (snd r) = sent w ++ [session_subscribe (VStr Schema.BeforeRequestSent_event_class);
                             add_intercept_payload (url_pattern "u1")]) /\
  tasks (snd r) = tasks (snd (checkpoint w)) /\
  listeners (net (snd r)) = listeners (net (snd (checkpoint w))) /\
  starts (tasks (snd r)) = [].
Proof.
  intros w r. apply (add_request_handler_error redirect_handler (url_pattern "u1") w
                       (ProtocolError "invalid url pattern")).
  assert (E : fst r = Exc (ProtocolError "invalid url pattern")) by (vm_compute; reflexivity).
  rewrite <- E. apply surjective_pairing.
Defined.

(** A remote end that accepts the removal of an id the client never
    registered: the pop of [remove_intercept] raises [KeyError]. *)
Lemma remove_intercept_unknown_witness :
  (match fst (@chan_execute RejectingRemote (remove_intercept_payload "intercept-7")
                (chan (@init_world RejectingRemote tt wit_driver))) with
   | Ok _ => KeyError "intercept-7"
   | Exc e => e
   end) = KeyError "intercept-7" /\
  exists w', remove_intercept "intercept-7" (@init_world RejectingRemote tt wit_driver) =
    (Exc (match fst (@chan_execute RejectingRemote (remove_intercept_payload "intercept-7")
                       (chan (@init_world RejectingRemote tt wit_driver))) with
          | Ok _ => KeyError "intercept-7"
          | Exc e => e
          end), w') /\
    intercepts (net w') = intercepts (net (@init_world RejectingRemote tt wit_driver)) /\
    sent w' = sent (@init_world RejectingRemote tt wit_driver) ++ [remove_intercept_payload "intercept-7"].
Proof. split; [reflexivity|]. apply remove_intercept_unknown. reflexivity. Defined.

(** An id the remote end accepts to remove while the client only holds a
    [defaultdict] placeholder for it. *)
Definition placeholder_world : @World RejectingRemote :=
  set_intercepts [("intercept-9", default_entry)] (@init_world RejectingRemote tt wit_driver).

Lemma remove_intercept_placeholder_witness :
  exists w', remove_intercept "intercept-9" placeholder_world = (Exc (KeyError "None"), w') /\
    intercepts (net w') = PyDict.remove (intercepts (net placeholder_world)) "intercept-9" /\
    listeners (net w') = listeners (net placeholder_world) /\
    sent w' = sent placeholder_world ++ [remove_intercept_payload "intercept-9"].
Proof.
  apply (remove_intercept_placeholder "intercept-9" default_entry placeholder_world (VDict []));
    [reflexivity|reflexivity|reflexivity|simpl; tauto|reflexivity].
Defined.

(** The reference remote end, except that it rejects every
    [continueRequest] (as for a request it no longer holds). *)
Definition StaleRemote : Channel := {|
  chan_state := RefBrowser.state;
  chan_execute := fun p s =>
    match payload_method p with
    | Some "network.continueRequest" => (Exc (ProtocolError "no such request"), s)
    | _ => RefBrowser.execute p s
    end
|}.

Section Stale.
#[local] Existing Instance StaleRemote.

Definition st_w : World :=
  snd (checkpoint (snd (run_call (CallAddRequestHandler redirect_handler (url_pattern "u1"))
                          (init_world RefBrowser.initial wit_driver)))).
Definition st_json : pyval := blocked "r1" "u1" ["intercept-0"].
Definition st_ev : pyval := match Schema.decode_before_request_sent st_json with Ok v => v | Exc _ => VNone end.
Definition st_params : pyval := match getattr st_ev "params" with Ok v => v | Exc _ => VNone end.
Definition st_request : pyval := match getattr st_params "request" with Ok v => v | Exc _ => VNone end.
Definition st_d : PyDict.t pyval := [("request", VStr "r1"); ("url", VStr "u3")].
Definition st_p : pyval :=
  match dc_init_kw Schema.ContinueRequestParameters (VDict st_d) with Ok v => v | Exc _ => VNone end.

Lemma continue_error_cancels_session_witness :
  exists w', sent w' = sent st_w ++ [continue_request_payload st_p] /\
    step st_w (set_crashed (Some (ProtocolError "no such request")) w') /\
    session_over (set_crashed (Some (ProtocolError "no such request")) w').
Proof.
  apply (continue_error_cancels_session st_w Schema.BeforeRequestSent_event_class 0 st_json st_ev
           st_params st_request ["intercept-0"] st_d st_p); try (vm_compute; reflexivity).
  - vm_compute. left. reflexivity.
  - vm_compute. left. reflexivity.
  - intros i [<-|[]]. vm_compute. discriminate.
  - discriminate.
Defined.

End Stale.

End InterceptsSpec.
