(* ===== verification/SchemaTyping.v ===== *)
(** The annotations of common/bidi/network.py against the values the code
    builds and decodes.  [well_typed v] says that an instance conforms to
    the annotations of its own class (a static checker's promise; Python
    does not check them at run time).  The parameters [add_handler] builds
    conform whenever the caller's URL patterns do; the continuation the
    repository's test handler returns conforms; but the parameters that
    [BeforeRequestSent.from_json] decodes never do, because [from_json]
    leaves the nested [request] a dict where a [RequestData] is annotated. *)

From Stdlib Require Import String List ZArith Bool.
From S2P Require Import Prelude PyValue Bidi NetworkSchema Channel Intercepts InterceptsInv InterceptsSpec.
Import ListNotations.
Import Intercepts InterceptsSpec.
Local Open Scope string_scope.
Local Open Scope list_scope.

Module SchemaTyping.

(** An instance conforms to the annotations of its class. *)
Definition well_typed (v : pyval) : bool :=
  match v with
  | VObj c _ => has_type Schema.classes v (TClass c)
  | _ => false
  end.

(** The parameters of [network.addIntercept] that [add_handler] builds for
    the [beforeRequestSent] event. *)
Lemma add_intercept_params_eq pats :
  add_intercept_params Schema.BeforeRequestSent_event_class pats =
  Ok (VObj "AddInterceptParameters"
        [("phases", VList [VStr "beforeRequestSent"]); ("contexts", VNone); ("urlPatterns", pats)]).
Proof. reflexivity. Qed.

(** Field by field: a decoded [BeforeRequestSentParameters] is an object
    of the class with its eight fields in declaration order. *)
Lemma decode_params_shape json ev :
  Schema.decode_before_request_sent json = Ok ev ->
  exists p, getattr ev "params" = Ok p /\
    exists x1 x2 x3 x4 x5 x6 x7 x8,
      p = VObj "BeforeRequestSentParameters"
            [("isBlocked", x1); ("redirectCount", x2); ("request", x3); ("timestamp", x4);
             ("initiator", x5); ("context", x6); ("navigation", x7); ("intercepts", x8)].
Proof.
  unfold Schema.decode_before_request_sent, Bidi.event_from_json.
  destruct (Bidi.from_json _ json) as [p|e] eqn:Hp; [|discriminate].
  intros H. injection H as <-. exists p. split; [reflexivity|].
  unfold Bidi.from_json, dc_init_kw in Hp. destruct json; try discriminate.
  apply dc_init_fields in Hp as [fs [-> Hn]].
  do 8 (destruct fs as [|[? ?] fs]; [discriminate|]; injection Hn as -> Hn).
  destruct fs; [|discriminate]. repeat eexists.
Qed.

(** C18: the [AddInterceptParameters] that [add_request_handler] builds
    conform to their annotations whenever the caller's [urlPatterns] do
    ([Optional[List[UrlPattern]]]): in particular its phase, the last
    segment of ["network.beforeRequestSent"], is an [InterceptPhase]. *)
Theorem add_intercept_params_typed pats :
  has_type Schema.classes pats (TOpt (TList Schema.UrlPattern)) = true ->
  exists p, add_intercept_params Schema.BeforeRequestSent_event_class pats = Ok p /\
            well_typed p = true.
Proof.
  intros Hp. rewrite add_intercept_params_eq. eexists. split; [reflexivity|].
  cbn. rewrite Hp. reflexivity.
Qed.

(** C19: the parameters [BeforeRequestSent.from_json] decodes from a wire
    event never conform to their class: [from_json] does not decode nested
    values, so the [request] field holds the wire dict itself where a
    [RequestData] is annotated. *)
Theorem decoded_params_ill_typed jd d ev :
  PyDict.get jd "request" = Some (VDict d) ->
  Schema.decode_before_request_sent (VDict jd) = Ok ev ->
  exists p, getattr ev "params" = Ok p /\ getattr p "request" = Ok (VDict d) /\ well_typed p = false.
Proof.
  intros Hr Hd.
  destruct (decode_params_shape _ _ Hd) as [p [Hp (x1 & x2 & x3 & x4 & x5 & x6 & x7 & x8 & Ep)]].
  assert (Hreq : getattr p "request" = Ok (VDict d)).
  { unfold Schema.decode_before_request_sent, Bidi.event_from_json in Hd.
    destruct (Bidi.from_json _ (VDict jd)) as [p0|e] eqn:Hp0; [|discriminate].
    injection Hd as <-. simpl in Hp. injection Hp as ->.
    apply (dc_init_kw_get _ _ _ _ _ Hp0 Hr). apply existsb_eqb_in. reflexivity. }
  exists p. split; [exact Hp|]. split; [exact Hreq|].
  subst p. injection Hreq as ->. cbn. rewrite !andb_false_r. reflexivity.
Qed.

(** C20: the handler of the repository's test turns a captured request
    whose id is a string into a dict that [ContinueRequestParameters]
    accepts, and the parameters built from it conform to their
    annotations. *)
Theorem redirect_handler_continue_typed d r :
  PyDict.get d "request" = Some (VStr r) ->
  exists j p, redirect_handler (VDict d) = Ok j /\
    dc_init_kw Schema.ContinueRequestParameters j = Ok p /\ well_typed p = true.
Proof.
  intros Hr. unfold redirect_handler. cbn [getitem]. rewrite Hr.
  do 2 eexists. split; [reflexivity|]. split; reflexivity.
Qed.

(** ** Witnesses *)

Lemma add_intercept_params_typed_witness :
  exists p, add_intercept_params Schema.BeforeRequestSent_event_class (url_pattern "u1") = Ok p /\
            well_typed p = true.
Proof. apply add_intercept_params_typed. reflexivity. Defined.

(** The [params] of a blocked [beforeRequestSent] event on the wire. *)
Definition wire_jd : PyDict.t pyval :=
  [("isBlocked", VBool true); ("redirectCount", VInt 0); ("request", req_dict);
   ("timestamp", VInt 0); ("initiator", VDict [("type", VStr "other")]);
   ("intercepts", VList [VStr "intercept-0"])].

Definition req_fields : PyDict.t pyval := match req_dict with VDict d => d | _ => [] end.

Definition wire_ev : pyval :=
  match Schema.decode_before_request_sent (VDict wire_jd) with Ok v => v | Exc _ => VNone end.

Lemma decoded_params_ill_typed_witness :
  exists p, getattr wire_ev "params" = Ok p /\ getattr p "request" = Ok (VDict req_fields) /\
            well_typed p = false.
Proof. apply (decoded_params_ill_typed wire_jd req_fields wire_ev); vm_compute; reflexivity. Defined.

Lemma redirect_handler_continue_typed_witness :
  exists j p, redirect_handler (VDict [("request", VStr "r1"); ("url", VStr "u1")]) = Ok j /\
    dc_init_kw Schema.ContinueRequestParameters j = Ok p /\ well_typed p = true.
Proof. apply (redirect_handler_continue_typed _ "r1"). reflexivity. Defined.

End SchemaTyping.
