(* ===== verification/ClearLoop.v ===== *)
(** The [for] loop of [clear_intercepts] (remote/network.py, lines 119-121)
    without fuel.  [iter_clear n i w r w'] is CPython's semantics of
    iterating a dict of [n] keys from position [i] while the body removes
    entries: every [next()] first compares the dict's size with [n]
    ([RuntimeError] if it changed), then yields the key at position [i] or
    ends the loop.  The model [clear_loop] runs the same loop on fuel; the
    adequacy theorem shows that [n - i + 1] units of fuel (what
    [clear_intercepts] gives it) never cut a run short, so the fuel is an
    artefact of the model and the loop terminates.  The bound shows what
    this means for the caller: one call removes at most one intercept. *)

From Stdlib Require Import String List ZArith Bool Lia.
From S2P Require Import Prelude PyValue Bidi NetworkSchema Channel Intercepts InterceptsInv InterceptsSpec.
Import ListNotations.
Import Intercepts InterceptsSpec.
Local Open Scope string_scope.
Local Open Scope list_scope.

Module ClearLoop.

Section Loop.
Context `{CH : Channel}.
Implicit Types (w : World).

(** The message of the [RuntimeError] of a dict resized during iteration. *)
Definition size_changed : pyexc := RuntimeError "dictionary changed size during iteration".

(** The big-step semantics of the loop, from position [i] of a dict that
    had [n] keys when the loop began. *)
Inductive iter_clear (n : nat) : nat -> World -> res unit -> World -> Prop :=
| iter_changed i w :
    length (PyDict.keys (intercepts (net w))) <> n ->
    iter_clear n i w (Exc size_changed) w
| iter_stop i w :
    length (PyDict.keys (intercepts (net w))) = n ->
    nth_error (PyDict.keys (intercepts (net w))) i = None ->
    iter_clear n i w (Ok tt) w
| iter_raise i w k e w1 :
    length (PyDict.keys (intercepts (net w))) = n ->
    nth_error (PyDict.keys (intercepts (net w))) i = Some k ->
    remove_intercept k w = (Exc e, w1) ->
    iter_clear n i w (Exc e) w1
| iter_next i w k u w1 r w2 :
    length (PyDict.keys (intercepts (net w))) = n ->
    nth_error (PyDict.keys (intercepts (net w))) i = Some k ->
    remove_intercept k w = (Ok u, w1) ->
    iter_clear n (S i) w1 r w2 ->
    iter_clear n i w r w2.

(** The ids a run removed from the table. *)
Definition removed w w' : list string :=
  filter (fun k => negb (PyDict.mem (intercepts (net w')) k)) (PyDict.keys (intercepts (net w))).

Lemma nth_error_lt {A} (l : list A) i x : nth_error l i = Some x -> i < length l.
Proof. intros H. apply nth_error_Some. congruence. Qed.

Lemma clear_loop_sound fuel : forall n i w r w',
  n - i < fuel -> clear_loop fuel n i w = (r, w') -> iter_clear n i w r w'.
Proof.
  induction fuel as [|fuel IH]; intros n i w r w' Hf H; [lia|].
  simpl in H. autorewrite with pym in H.
  destruct (Nat.eqb_spec (length (PyDict.keys (intercepts (net w)))) n) as [Hn|Hn];
    simpl in H; [|injection H as <- <-; apply iter_changed, Hn].
  destruct (nth_error _ i) as [k|] eqn:Hk; [|injection H as <- <-; apply iter_stop; auto].
  unfold bind in H. destruct (remove_intercept k w) as [[u|e] w1] eqn:Er.
  - apply (iter_next _ _ _ k u w1); auto. apply IH; [|exact H].
    apply nth_error_lt in Hk. lia.
  - injection H as <- <-. eapply iter_raise; eauto.
Qed.

Lemma clear_loop_complete n i w r w' :
  iter_clear n i w r w' -> forall fuel, n - i < fuel -> clear_loop fuel n i w = (r, w').
Proof.
  induction 1 as [i w Hn|i w Hn Hk|i w k e w1 Hn Hk Er|i w k u w1 r w2 Hn Hk Er _ IH];
    intros [|fuel] Hf; try lia; simpl; autorewrite with pym.
  - destruct (Nat.eqb_spec (length (PyDict.keys (intercepts (net w)))) n); [contradiction|reflexivity].
  - rewrite Hn, Nat.eqb_refl. simpl. rewrite Hk. reflexivity.
  - rewrite Hn, Nat.eqb_refl. simpl. rewrite Hk. unfold bind. rewrite Er. reflexivity.
  - rewrite Hn, Nat.eqb_refl. simpl. rewrite Hk. unfold bind. rewrite Er.
    apply IH. apply nth_error_lt in Hk. lia.
Qed.

(** Every run the loop can make after one successful removal raises: the
    dict has lost a key, so its size is no longer [n]. *)
Lemma iter_clear_after_removal n i w r w' :
  length (PyDict.keys (intercepts (net w))) < n -> iter_clear n i w r w' ->
  r = Exc size_changed /\ w' = w.
Proof. intros Hl H. inversion H; subst; [auto|lia..]. Qed.

(** Whatever its outcome, [remove_intercept k] leaves the table as it was
    or without [k]. *)
Lemma remove_intercept_table k w r w' :
  remove_intercept k w = (r, w') ->
  intercepts (net w') = intercepts (net w) \/
  intercepts (net w') = PyDict.remove (intercepts (net w)) k.
Proof.
  intros H. destruct r as [u|e]; [right; apply remove_intercept_ok in H as [_ [_ ->]]; reflexivity|].
  rewrite remove_intercept_unfold in H.
  destruct (conn_execute _ w) as [[a|err] w1] eqn:E;
    destruct (conn_execute_frame _ _ _ _ E) as (Hi1 & _); [|injection H as _ <-; left; exact Hi1].
  destruct (PyDict.pop (intercepts (net w1)) k) as [[en rest]|] eqn:Hp;
    [|injection H as _ <-; left; exact Hi1].
  apply PyDictFacts.pop_some in Hp as [_ ->]. rewrite Hi1 in *. right.
  destruct (Nat.eqb _ 0); [|injection H as _ <-; reflexivity].
  unfold bind at 1 in H. destruct (remove_listener _ _) as [[[]|err] w3] eqn:Er;
    destruct (remove_listener_frame _ _ _ _ Er) as (Hi3 & _); [|injection H as _ <-; exact Hi3].
  unfold bind at 1 in H. destruct (conn_execute _ w3) as [[b|err] w4] eqn:E4;
    destruct (conn_execute_frame _ _ _ _ E4) as (Hi4 & _); injection H as _ <-; rewrite Hi4; exact Hi3.
Qed.

Lemma removed_same w w' :
  intercepts (net w') = intercepts (net w) -> removed w w' = [].
Proof.
  intros Hi. unfold removed. rewrite Hi. apply filter_all_false.
  intros k Hk. apply PyDictFacts.in_keys_get in Hk as [v Hv].
  unfold PyDict.mem. rewrite Hv. reflexivity.
Qed.

Lemma removed_one w w' k :
  PyDict.wf (intercepts (net w)) ->
  intercepts (net w') = PyDict.remove (intercepts (net w)) k -> length (removed w w') <= 1.
Proof.
  intros Hwf Hi. unfold removed. rewrite Hi.
  assert (Hall : forall j, In j (filter (fun j => negb (PyDict.mem (PyDict.remove (intercepts (net w)) k) j))
                                     (PyDict.keys (intercepts (net w)))) -> j = k).
  { intros j Hj. apply filter_In in Hj as [Hj Hm].
    destruct (String.eqb_spec j k) as [->|Hne]; [reflexivity|exfalso].
    apply PyDictFacts.in_keys_get in Hj as [v Hv].
    unfold PyDict.mem in Hm. rewrite PyDictFacts.get_remove_ne, Hv in Hm by congruence.
    discriminate. }
  apply NoDup_all_eq_length with (x := k); [apply NoDup_filter, Hwf|exact Hall].
Qed.

(** The loop terminates and its fuel is adequate: from any world it
    has a run, and with more fuel than the [n - i] keys left to visit the
    fuelled model computes exactly the runs of the unbounded semantics.
    [clear_intercepts] gives [n + 1], so nothing it computes is an
    artefact of running out of fuel. *)
Lemma clear_loop_adequate n i w :
  (exists r w', iter_clear n i w r w') /\
  forall fuel r w', n - i < fuel -> (clear_loop fuel n i w = (r, w') <-> iter_clear n i w r w').
Proof.
  split.
  - destruct (clear_loop (S (n - i)) n i w) as [r w'] eqn:E.
    exists r, w'. eapply clear_loop_sound; [|exact E]. lia.
  - intros fuel r w' Hf. split; [apply clear_loop_sound, Hf|].
    intros H. exact (clear_loop_complete _ _ _ _ _ H _ Hf).
Qed.

(** C21: one call of [clear_intercepts] removes at most one intercept from
    a well-formed table, whatever its size: after the first removal the
    iteration raises.  (The method is meant to remove them all.) *)
Theorem clear_removes_at_most_one w r w' :
  PyDict.wf (intercepts (net w)) -> clear_intercepts w = (r, w') -> length (removed w w') <= 1.
Proof.
  intros Hwf H. unfold clear_intercepts in H. autorewrite with pym in H.
  apply clear_loop_sound in H; [|lia].
  inversion H as [? ? Hn|? ? Hn Hk|? ? k e w1 Hn Hk Er|? ? k u w1 r' w2 Hn Hk Er Hrest]; subst;
    [rewrite removed_same; simpl; auto..| |].
  - destruct (remove_intercept_table _ _ _ _ Er) as [Hi|Hi];
      [rewrite removed_same by exact Hi; simpl; lia|exact (removed_one _ _ _ Hwf Hi)].
  - apply remove_intercept_ok in Er as [en [Hg Hi]].
    assert (Hin : In k (PyDict.keys (intercepts (net w)))) by (eapply nth_error_In; eauto).
    assert (Hl : length (PyDict.keys (intercepts (net w1))) < length (PyDict.keys (intercepts (net w)))).
    { rewrite Hi. pose proof (PyDictFacts.length_remove_in _ _ Hin) as L.
      unfold PyDict.keys in *. rewrite !length_map in *. lia. }
    destruct (iter_clear_after_removal _ _ _ _ _ Hl Hrest) as [_ ->].
    exact (removed_one _ _ _ Hwf Hi).
Qed.

End Loop.

(** ** Witnesses, on the reference remote end *)

Section Witnesses.
#[local] Existing Instance RefBrowserChannel.

Lemma clear_removes_at_most_one_witness :
  PyDict.wf (intercepts (net sc2)) /\ length (removed sc2 (snd (clear_intercepts sc2))) <= 1.
Proof.
  assert (Hwf : PyDict.wf (intercepts (net sc2))) by (vm_compute; repeat constructor; simpl; intuition discriminate).
  split; [exact Hwf|].
  apply (clear_removes_at_most_one sc2 (fst (clear_intercepts sc2))); [exact Hwf|apply surjective_pairing].
Defined.

End Witnesses.

End ClearLoop.
