(* ===== verification/TestScenario.v ===== *)
(** The caller's side of a session: [Network.get] and the replay of the
    repository's test (src/py/test/selenium/webdriver/common/
    bidi_network_tests.py, [test_request_handler]) as a run of the session.

    A script is a sequence of actions: a call of the public API, or a
    blocked [network.beforeRequestSent] event that the browser pushes
    while a navigation is in flight (the browser's choice of which
    requests to block is not modelled: the script says which intercepts
    an event names).  [run_action] executes an action the way [step] does;
    [run_script_reachable] shows that a script run from a fresh [Network]
    is a run of the session, so the invariants of [InterceptsInv] hold
    along it.  The replay checks what the test checks at the protocol
    level: each intercepted navigation is continued to [u3], the page the
    handler redirects to, and the teardown leaves nothing behind. *)

From Stdlib Require Import String List ZArith Bool Lia.
From S2P Require Import Prelude PyValue Bidi NetworkSchema Channel Intercepts InterceptsInv InterceptsSpec.
Import ListNotations.
Import Intercepts InterceptsInv InterceptsSpec.
Local Open Scope string_scope.
Local Open Scope list_scope.

Module TestScenario.

Section Script.
Context `{CH : Channel}.
Implicit Types (w : World).

(** The payload of [Navigate(NavigateParameters(context, url, wait)).cmd()]. *)
Definition navigate_payload (context url : string) (wait : pyval) : pyval :=
  Bidi.cmd (VObj "Navigate"
    [("params", VObj "NavigateParameters" [("context", VStr context); ("url", VStr url); ("wait", wait)]);
     ("method", VStr "browsingContext.navigate")]).

(** An action of a script. *)
Inductive action : Type :=
| ACall (c : call)
| AEvent (json : pyval).

(** The listening loop that receives the next event: the first loop of
    the nursery whose stream is open. *)
Fixpoint live_loop (ts : list task) (ss : list (nat * string)) : option (string * nat) :=
  match ts with
  | [] => None
  | TaskLoop ev s :: r =>
      if existsb (fun p => Nat.eqb (fst p) s && String.eqb (snd p) ev) ss then Some (ev, s)
      else live_loop r ss
  | TaskStart _ :: r => live_loop r ss
  end.

(** One action: a call runs to completion; an event is delivered to the
    live loop (decoded by [BeforeRequestSent.from_json]) and handled by
    one turn of it; an event nobody listens to is dropped.  A crashed
    session does nothing more. *)
Definition run_action (a : action) w : World :=
  match crashed w with
  | Some _ => w
  | None =>
      match a with
      | ACall c => snd (run_call c w)
      | AEvent json =>
          match live_loop (tasks w) (streams w), Schema.decode_before_request_sent json with
          | Some (_, s), Ok ev_obj =>
              let '(r, w') := listener_iteration ev_obj w in after_iteration s r w'
          | _, _ => w
          end
      end
  end.

Definition run_script (acts : list action) w : World := fold_left (fun w a => run_action a w) acts w.

Lemma live_loop_sound ts ss ev s :
  live_loop ts ss = Some (ev, s) -> In (TaskLoop ev s) ts /\ In (s, ev) ss.
Proof.
  induction ts as [|[e|e s'] r IH]; simpl; [discriminate| |].
  - intros H. destruct (IH H). auto.
  - destruct (existsb _ ss) eqn:E.
    + intros H. injection H as <- <-. split; [left; reflexivity|].
      apply existsb_exists in E as [[n e'] [Hin He]]. simpl in He.
      apply andb_true_iff in He as [Hn He]. apply Nat.eqb_eq in Hn. apply String.eqb_eq in He.
      subst. exact Hin.
    + intros H. destruct (IH H). auto.
Qed.

(** Every action is a step of the session, or changes nothing. *)
Lemma run_action_step a w : run_action a w = w \/ step w (run_action a w).
Proof.
  unfold run_action. destruct (crashed w) eqn:Hc; [left; reflexivity|].
  destruct a as [c|json].
  - right. eapply step_call; [exact Hc|apply surjective_pairing].
  - destruct (live_loop _ _) as [[ev s]|] eqn:Hl; [|left; reflexivity].
    destruct (Schema.decode_before_request_sent json) as [ev_obj|e] eqn:Hd; [|left; reflexivity].
    destruct (live_loop_sound _ _ _ _ Hl) as [Ht Hs].
    destruct (listener_iteration ev_obj w) as [r w'] eqn:Hi. right.
    eapply step_event; eauto.
Qed.

(** A script run from a reachable world stays among the reachable worlds. *)
Lemma run_script_reachable acts : forall w, reachable w -> reachable (run_script acts w).
Proof.
  induction acts as [|a r IH]; intros w Hw; simpl; [exact Hw|].
  apply IH. destruct (run_action_step a w) as [E|E]; [rewrite E; exact Hw|].
  eapply reach_step; eauto.
Qed.

Lemma init_NavigateParameters ctx url wait :
  dc_init BrowsingContext.NavigateParameters [] [("context", VStr ctx); ("url", VStr url); ("wait", wait)] =
  Ok (VObj "NavigateParameters" [("context", VStr ctx); ("url", VStr url); ("wait", wait)]).
Proof. reflexivity. Qed.

Lemma init_Navigate p :
  dc_init BrowsingContext.Navigate [p] [] =
  Ok (VObj "Navigate" [("params", p); ("method", VStr "browsingContext.navigate")]).
Proof. reflexivity. Qed.

(** C22: [get(url, wait)] sends exactly one command, the
    [browsingContext.navigate] of the driver's current window to [url]
    with [wait], leaves the intercept table as it was, and answers what the
    connection answers. *)
Theorem network_get_navigates url wait w :
  exists w', network_get url wait w =
    (match fst (chan_execute (navigate_payload (current_window_handle (driver w)) url wait) (chan w)) with
     | Ok _ => Ok tt
     | Exc e => Exc e
     end, w') /\
    sent w' = sent w ++ [navigate_payload (current_window_handle (driver w)) url wait] /\
    intercepts (net w') = intercepts (net w).
Proof.
  unfold network_get. autorewrite with pym. rewrite init_NavigateParameters.
  autorewrite with pym. rewrite init_Navigate.
  autorewrite with pym. unfold bind at 1.
  destruct (conn_execute _ w) as [r w1] eqn:E.
  destruct (conn_execute_frame _ _ _ _ E) as (Hi & Hs & _ & Hr & _).
  unfold navigate_payload. rewrite <- Hr.
  destruct r; eexists; (split; [reflexivity|]); auto.
Qed.

End Script.

(** ** The test, replayed on the reference remote end *)

Section Replay.
#[local] Existing Instance RefBrowserChannel.

(** [test_request_handler], lines 41-56: two rules, the navigations with
    the events the browser blocks while they are in flight (those whose
    URL a live rule's pattern matches), the removal of each rule. *)
Definition test_script : list action :=
  [ACall (CallAddRequestHandler redirect_handler (url_pattern "u1"));
   ACall (CallAddRequestHandler redirect_handler (url_pattern "u2"));
   ACall (CallGet "u1" (VStr "complete")); AEvent (blocked "r1" "u1" ["intercept-0"]);
   ACall (CallGet "u2" (VStr "complete")); AEvent (blocked "r2" "u2" ["intercept-1"]);
   ACall (CallRemoveIntercept "intercept-1");
   ACall (CallGet "u2" (VStr "complete"));
   ACall (CallGet "u1" (VStr "complete")); AEvent (blocked "r4" "u1" ["intercept-0"]);
   ACall (CallRemoveIntercept "intercept-0");
   ACall (CallGet "u1" (VStr "complete"))].

Definition test_end : World := run_script test_script wit_w0.

(** The [(request, url)] of every [continueRequest] of a trace. *)
Definition continued (tr : list pyval) : list (pyval * pyval) :=
  flat_map (fun p =>
    match payload_method p with
    | Some "network.continueRequest" =>
        match PyDict.get (payload_params p) "request", PyDict.get (payload_params p) "url" with
        | Some r, Some u => [(r, u)]
        | _, _ => []
        end
    | _ => []
    end) tr.

(** The methods of a trace, in order. *)
Definition methods (tr : list pyval) : list string :=
  flat_map (fun p => match payload_method p with Some m => [m] | None => [] end) tr.

(** The replay of [test_request_handler] is a run of the session that
    continues each intercepted request, under its own id, to [u3] (the
    page whose title the test asserts), sends the commands below in this
    order, and ends with no rule, no listener, no open stream and no
    crash. *)
Example test_request_handler_replay :
  reachable test_end /\
  continued (sent test_end) =
    [(VStr "r1", VStr "u3"); (VStr "r2", VStr "u3"); (VStr "r4", VStr "u3")] /\
  methods (sent test_end) =
    ["session.subscribe"; "network.addIntercept"; "session.subscribe"; "network.addIntercept";
     "browsingContext.navigate"; "network.continueRequest";
     "browsingContext.navigate"; "network.continueRequest";
     "network.removeIntercept"; "browsingContext.navigate";
     "browsingContext.navigate"; "network.continueRequest";
     "network.removeIntercept"; "session.unsubscribe"; "browsingContext.navigate"] /\
  intercepts (net test_end) = [] /\ listeners (net test_end) = [] /\
  streams test_end = [] /\ crashed test_end = None.
Proof.
  split; [apply run_script_reachable, reach_init|].
  vm_compute. repeat split.
Qed.

Lemma network_get_navigates_witness :
  exists w', network_get "u1" (VStr "complete") wit_w0 =
    (match fst (chan_execute (navigate_payload "window-1" "u1" (VStr "complete")) (chan wit_w0)) with
     | Ok _ => Ok tt
     | Exc e => Exc e
     end, w') /\
    sent w' = sent wit_w0 ++ [navigate_payload "window-1" "u1" (VStr "complete")] /\
    intercepts (net w') = intercepts (net wit_w0).
Proof. exact (network_get_navigates "u1" (VStr "complete") wit_w0). Defined.

End Replay.

End TestScenario.
