(* ===== verification/Registry.v ===== *)
(** The interception registry of the specification (spec §3, §4.2) and
    its refinement by remote/network.py.

    The abstract state [AbsReg] is what the specification talks about:
    the live rules, each a rule id with its event type, and the active
    subscriptions, the event types the session has asked the remote end to
    send.  Its operations are [add_rule] (store the rule, subscribe to its
    event if it is not yet), [remove_rule] (delete the rule, unsubscribe
    when no other rule shares its event) and [clear_all].  The abstraction
    [abs] reads the rules from [self.intercepts] and the subscriptions from
    the trace of commands sent ([subscribed], the remote end's view).

    [run_calls_refine]: every call of the public API that returns normally
    moves the abstract state by the matching operation of the
    specification (navigation and the cache command leave it alone).
    [calls_keep_subscriptions_in_sync]: hence, along every sequence of
    calls that all return normally, the active subscriptions are exactly
    the event types of the live rules (spec §8).  The errors are where the
    code leaves the specification: [subscription_without_rule] shows that
    from any reachable session without a rule, a raising
    [add_request_handler] leaves the session subscribed with no rule.  [failed_call_rules] bounds what a failing call does to the
    rules ([fail_step]: nothing, or the one removal it had made). *)

From Stdlib Require Import String List ZArith Bool Lia.
From S2P Require Import Prelude PyValue Bidi NetworkSchema Channel Intercepts InterceptsInv InterceptsSpec ClearLoop TestScenario.
Import ListNotations.
Import Intercepts InterceptsInv InterceptsSpec ClearLoop TestScenario.
Local Open Scope string_scope.
Local Open Scope list_scope.

Module Registry.

(** ** The abstract registry *)

Definition add_event (subs : list string) (e : string) : list string :=
  if existsb (String.eqb e) subs then subs else subs ++ [e].

Definition remove_event (subs : list string) (e : string) : list string :=
  filter (fun x => negb (String.eqb x e)) subs.

(** What a command does to the remote end's subscriptions. *)
Definition apply_payload (subs : list string) (p : pyval) : list string :=
  match payload_method p with
  | Some "session.subscribe" => fold_left add_event (payload_events p) subs
  | Some "session.unsubscribe" => fold_left remove_event (payload_events p) subs
  | _ => subs
  end.

(** The subscriptions a trace of commands leaves. *)
Definition subscribed (tr : list pyval) : list string := fold_left apply_payload tr [].

Record AbsReg := mk_abs { rules : list (string * option string); active : list string }.

(** [addRule]: the rule under the remote-assigned id [k]; its event is
    subscribed if it was not. *)
Definition add_rule (k ev : string) (a : AbsReg) : AbsReg :=
  mk_abs (PyDict.set (rules a) k (Some ev)) (add_event (active a) ev).

(** [removeRule]: the rule goes; its event is unsubscribed when no other
    rule names it. *)
Definition remove_rule (k : string) (a : AbsReg) : AbsReg :=
  match PyDict.get (rules a) k with
  | None => a
  | Some ev =>
      let rest := PyDict.remove (rules a) k in
      if existsb (fun r => name_eqb (snd r) ev) rest then mk_abs rest (active a)
      else mk_abs rest (match ev with Some e => remove_event (active a) e | None => active a end)
  end.

(** [clearAll]: every rule removed. *)
Definition clear_all (a : AbsReg) : AbsReg :=
  fold_left (fun a k => remove_rule k a) (PyDict.keys (rules a)) a.

(** The operation of the specification each call performs. *)
Inductive abs_step : call -> AbsReg -> AbsReg -> Prop :=
| abs_add h pats k a : abs_step (CallAddRequestHandler h pats) a (add_rule k Schema.BeforeRequestSent_event_class a)
| abs_remove k a : abs_step (CallRemoveIntercept k) a (remove_rule k a)
| abs_clear a : abs_step CallClearIntercepts a (clear_all a)
| abs_get url wait a : abs_step (CallGet url wait) a a
| abs_cache a : abs_step CallDisableCache a a.

(** What a call that raises may have done to the rules: nothing; for
    [removeRule k], the deletion of [k] (the failure came after the local
    pop, in the teardown); for [clearAll], the deletion of the first rule
    of the sweep and no other. *)
Inductive fail_step : call -> list (string * option string) -> list (string * option string) -> Prop :=
| fail_none c r : fail_step c r r
| fail_remove k r : fail_step (CallRemoveIntercept k) r (PyDict.remove r k)
| fail_clear k ks r : PyDict.keys r = k :: ks -> fail_step CallClearIntercepts r (PyDict.remove r k).

(** The abstract invariant: distinct rule ids, every rule of the one event
    type the code registers, and the subscriptions exactly the events of
    the rules. *)
Record AbsInv (a : AbsReg) : Prop := {
  ai_ids : NoDup (PyDict.keys (rules a));
  ai_event : forall k x, In (k, x) (rules a) -> x = Some Schema.BeforeRequestSent_event_class;
  ai_sync : forall e, In e (active a) <-> In (Some e) (map snd (rules a))
}.

(** ** Lemmas on the abstract operations *)

Lemma subscribed_app tr ps : subscribed (tr ++ ps) = fold_left apply_payload ps (subscribed tr).
Proof. unfold subscribed. apply fold_left_app. Qed.

Lemma in_add_event subs e x : In x (add_event subs e) <-> x = e \/ In x subs.
Proof.
  unfold add_event. destruct (existsb (String.eqb e) subs) eqn:E.
  - apply existsb_exists in E as [y [Hy Hey]]. apply String.eqb_eq in Hey. subst y.
    split; [auto|intros [->|H]; auto].
  - rewrite in_app_iff. simpl. split; intros [H|H]; intuition.
Qed.

Lemma in_remove_event subs e x : In x (remove_event subs e) <-> In x subs /\ x <> e.
Proof.
  unfold remove_event. rewrite filter_In, negb_true_iff.
  destruct (String.eqb_spec x e); split; intros [H1 H2]; try discriminate; auto; contradiction.
Qed.

Lemma in_map_snd_set (d : list (string * option string)) k v x :
  PyDict.wf d ->
  In x (map snd (PyDict.set d k v)) <-> x = v \/ exists k', k' <> k /\ In (k', x) d.
Proof.
  intros Hwf. rewrite in_map_iff. split.
  - intros [[k' y] [<- Hin]]. simpl. apply (PyDictFacts.in_set _ _ _ _ _ Hwf) in Hin as [[-> ->]|[Hne Hin]];
      [left; reflexivity|right; eauto].
  - intros [->|[k' [Hne Hin]]].
    + exists (k, v). split; [reflexivity|]. apply PyDictFacts.in_set; [exact Hwf|left; auto].
    + exists (k', x). split; [reflexivity|]. apply PyDictFacts.in_set; [exact Hwf|right; auto].
Qed.

Lemma add_rule_inv k a : AbsInv a -> AbsInv (add_rule k Schema.BeforeRequestSent_event_class a).
Proof.
  intros [Hid Hev Hs]. constructor; simpl.
  - apply PyDictFacts.wf_set, Hid.
  - intros k' x Hin. apply (PyDictFacts.in_set _ _ _ _ _ Hid) in Hin as [[_ ->]|[_ Hin]];
      [reflexivity|eapply Hev; eauto].
  - intros e. rewrite in_add_event, in_map_snd_set by exact Hid. rewrite Hs.
    split.
    + intros [->|He]; [left; reflexivity|].
      apply in_map_iff in He as [[k' y] [Hy Hin]]. simpl in Hy. subst y.
      destruct (String.eqb_spec k' k) as [->|Hne]; [left; apply Hev in Hin; congruence|right; eauto].
    + intros [He|[k' [_ Hin]]]; [left; congruence|right; apply in_map_iff; exists (k', Some e); auto].
Qed.

(** In a table whose rules are all of the one event type, an event has a
    rule exactly when it is that type and the table is not empty. *)
Lemma in_snd_all_brs (d : list (string * option string)) e :
  (forall k x, In (k, x) d -> x = Some Schema.BeforeRequestSent_event_class) ->
  In (Some e) (map snd d) <-> e = Schema.BeforeRequestSent_event_class /\ d <> [].
Proof.
  intros Hall. rewrite in_map_iff. split.
  - intros [[k y] [Hy Hin]]. simpl in Hy. subst y. pose proof (Hall _ _ Hin) as E. injection E as ->.
    split; [reflexivity|]. intros ->. destruct Hin.
  - intros [-> Hne]. destruct d as [|[k y] r]; [contradiction|].
    exists (k, y). split; [simpl; apply (Hall k y); left; reflexivity|left; reflexivity].
Qed.

Lemma remove_rule_inv k a : AbsInv a -> AbsInv (remove_rule k a).
Proof.
  intros HA. destruct HA as [Hid Hev Hs]. unfold remove_rule.
  destruct (PyDict.get (rules a) k) as [ev|] eqn:Hg; [|constructor; auto].
  assert (Hev' : ev = Some Schema.BeforeRequestSent_event_class) by (eapply Hev, PyDictFacts.get_In; eauto).
  subst ev.
  assert (Hne : rules a <> []) by (intros E; rewrite E in Hg; discriminate).
  assert (Hid' : NoDup (PyDict.keys (PyDict.remove (rules a) k))) by (apply PyDictFacts.wf_remove, Hid).
  assert (Hev2 : forall k' x, In (k', x) (PyDict.remove (rules a) k) -> x = Some Schema.BeforeRequestSent_event_class)
    by (intros k' x Hin; apply (PyDictFacts.in_remove _ _ _ _ Hid) in Hin as [_ Hin]; eapply Hev; eauto).
  destruct (existsb _ _) eqn:Ex; constructor; auto; intros e; simpl;
    rewrite ?in_remove_event, Hs, (in_snd_all_brs _ _ Hev), (in_snd_all_brs _ _ Hev2).
  - split; intros [He _]; (split; [exact He|]); [|exact Hne].
    intros E. rewrite E in Ex. discriminate.
  - split; [intros [[He _] Hn]; contradiction|intros [He Hr]; exfalso; apply Hr].
    destruct (PyDict.remove (rules a) k) as [|[k' x] r] eqn:Er; [reflexivity|].
    simpl in Ex. rewrite (Hev2 k' x) in Ex by (left; reflexivity).
    simpl in Ex. try rewrite String.eqb_refl in Ex. discriminate.
Qed.

Lemma clear_all_inv a : AbsInv a -> AbsInv (clear_all a).
Proof.
  unfold clear_all. generalize (PyDict.keys (rules a)) as ks. intros ks. revert a.
  induction ks as [|k r IH]; intros a Ha; simpl; [exact Ha|]. apply IH, remove_rule_inv, Ha.
Qed.

Lemma abs_step_inv c a a' : abs_step c a a' -> AbsInv a -> AbsInv a'.
Proof.
  destruct 1; intros Ha; auto using add_rule_inv, remove_rule_inv, clear_all_inv.
Qed.

(** ** The refinement *)

Section Refine.
Context `{CH : Channel}.
Implicit Types (w : World).

(** The rules of the intercept table: each id with its event name. *)
Definition abs_rules (d : PyDict.t entry) : list (string * option string) :=
  map (fun ke => (fst ke, event_name (snd ke))) d.

(** The abstraction: the rules of [self.intercepts], the subscriptions of
    the trace. *)
Definition abs w : AbsReg := mk_abs (abs_rules (intercepts (net w))) (subscribed (sent w)).

(** The caller's sequence of calls, each awaited before the next. *)
Fixpoint run_calls (cs : list call) : PyM World unit :=
  match cs with
  | [] => ret tt
  | c :: r => run_call c ;; run_calls r
  end.

(** The specification's operations along a sequence of calls. *)
Inductive abs_steps : list call -> AbsReg -> AbsReg -> Prop :=
| abs_steps_nil a : abs_steps [] a a
| abs_steps_cons c cs a a1 a2 : abs_step c a a1 -> abs_steps cs a1 a2 -> abs_steps (c :: cs) a a2.

Lemma abs_rules_set d k e : abs_rules (PyDict.set d k e) = PyDict.set (abs_rules d) k (event_name e).
Proof.
  induction d as [|[k0 v0] r IH]; simpl; [reflexivity|].
  destruct (String.eqb k k0); simpl; [reflexivity|]. f_equal. exact IH.
Qed.

Lemma abs_rules_remove d k : abs_rules (PyDict.remove d k) = PyDict.remove (abs_rules d) k.
Proof.
  induction d as [|[k0 v0] r IH]; simpl; [reflexivity|].
  destruct (String.eqb k k0); simpl; [reflexivity|]. f_equal. exact IH.
Qed.

Lemma abs_rules_get d k : PyDict.get (abs_rules d) k = option_map event_name (PyDict.get d k).
Proof.
  induction d as [|[k0 v0] r IH]; simpl; [reflexivity|]. destruct (String.eqb k k0); [reflexivity|exact IH].
Qed.

Lemma existsb_abs_rules d ev :
  existsb (fun r => name_eqb (snd r) ev) (abs_rules d) =
  negb (Nat.eqb (length (filter (fun i => name_eqb (event_name i) ev) (PyDict.values d))) 0).
Proof.
  induction d as [|[k0 v0] r IH]; simpl; [reflexivity|].
  destruct (name_eqb (event_name v0) ev); simpl; [reflexivity|exact IH].
Qed.

Lemma keys_abs_rules d : PyDict.keys (abs_rules d) = PyDict.keys d.
Proof. unfold PyDict.keys, abs_rules. rewrite map_map. reflexivity. Qed.

(** What the commands of the manager do to the subscriptions. *)
Lemma apply_subscribe subs ev : apply_payload subs (session_subscribe (VStr ev)) = add_event subs ev.
Proof. reflexivity. Qed.

Lemma apply_unsubscribe subs ev : apply_payload subs (session_unsubscribe (VStr ev)) = remove_event subs ev.
Proof. reflexivity. Qed.

Lemma apply_add_intercept subs pats : apply_payload subs (add_intercept_payload pats) = subs.
Proof. reflexivity. Qed.

Lemma apply_remove_intercept subs k : apply_payload subs (remove_intercept_payload k) = subs.
Proof. reflexivity. Qed.

#[local] Hint Rewrite subscribed_app apply_subscribe apply_unsubscribe apply_add_intercept
  apply_remove_intercept abs_rules_set abs_rules_remove : abs_rw.

(** A successful [add_request_handler] is [addRule] under the id it returns. *)
Lemma add_request_handler_abs h pats w k w' :
  add_request_handler h pats w = (Ok k, w') ->
  abs w' = add_rule k Schema.BeforeRequestSent_event_class (abs w).
Proof.
  intros H. rewrite add_request_handler_unfold in H.
  destruct (conn_execute _ w) as [[a1|err] w1] eqn:E1; [|discriminate].
  destruct (conn_execute_frame _ _ _ _ E1) as (Hi1 & Hs1 & _).
  destruct (conn_execute _ w1) as [[res|err] w2] eqn:E2; [|discriminate].
  destruct (conn_execute_frame _ _ _ _ E2) as (Hi2 & Hs2 & _).
  destruct (getitem res "intercept") as [iv|err]; [|discriminate].
  destruct (as_key iv) as [k'|err]; inversion H; subst; clear H.
  unfold abs, add_rule; simpl. rewrite Hi2, Hi1, Hs2, Hs1, <- app_assoc.
  autorewrite with abs_rw. reflexivity.
Qed.

(** A successful [remove_intercept] is [removeRule]. *)
Lemma remove_intercept_abs k w w' :
  remove_intercept k w = (Ok tt, w') -> abs w' = remove_rule k (abs w).
Proof.
  intros H. rewrite remove_intercept_unfold in H.
  destruct (conn_execute _ w) as [[a|err] w1] eqn:E; [|discriminate].
  destruct (conn_execute_frame _ _ _ _ E) as (Hi1 & Hs1 & _).
  destruct (PyDict.pop (intercepts (net w1)) k) as [[en rest]|] eqn:Hp; [|discriminate].
  apply PyDictFacts.pop_some in Hp as [Hg ->]. rewrite Hi1 in *.
  unfold remove_rule, abs; simpl. rewrite abs_rules_get, Hg. simpl.
  rewrite <- abs_rules_remove, existsb_abs_rules.
  destruct (Nat.eqb _ 0); simpl.
  - unfold bind at 1 in H. destruct (remove_listener _ _) as [[[]|err] w3] eqn:Er; [|discriminate].
    destruct (remove_listener_frame _ _ _ _ Er) as (Hi3 & Hs3 & _).
    unfold bind at 1 in H. destruct (conn_execute _ w3) as [[b|err] w4] eqn:E4; [|discriminate].
    destruct (conn_execute_frame _ _ _ _ E4) as (Hi4 & Hs4 & _).
    injection H as <-. destruct (event_name en) as [ev|] eqn:Hen; [|simpl in Er; discriminate].
    rewrite Hi4, Hi3, Hs4, Hs3. simpl. rewrite Hs1. autorewrite with abs_rw. reflexivity.
  - injection H as <-. simpl. rewrite Hs1. autorewrite with abs_rw. reflexivity.
Qed.

(** A [clear_intercepts] that returns normally found the table empty. *)
Lemma clear_intercepts_abs w u w' :
  clear_intercepts w = (Ok u, w') -> w' = w /\ PyDict.keys (intercepts (net w)) = [].
Proof.
  intros H. unfold clear_intercepts in H. autorewrite with pym in H.
  apply clear_loop_sound in H; [|lia].
  inversion H as [| ? ? Hn Hk | | ? ? k u' w1 r' w2 Hn Hk Er Hrest]; subst.
  - split; [reflexivity|]. destruct (PyDict.keys _); [reflexivity|discriminate].
  - apply remove_intercept_ok in Er as [en [Hg Hi]].
    assert (Hin : In k (PyDict.keys (intercepts (net w)))) by (eapply nth_error_In; eauto).
    assert (Hl : length (PyDict.keys (intercepts (net w1))) < length (PyDict.keys (intercepts (net w)))).
    { rewrite Hi. pose proof (PyDictFacts.length_remove_in _ _ Hin) as L.
      unfold PyDict.keys in *. rewrite !length_map in *. lia. }
    destruct (iter_clear_after_removal _ _ _ _ _ Hl Hrest) as [E _]. discriminate.
Qed.

Lemma network_get_abs url wait w w' :
  network_get url wait w = (Ok tt, w') -> abs w' = abs w.
Proof.
  intros H. unfold network_get in H. autorewrite with pym in H. rewrite init_NavigateParameters in H.
  autorewrite with pym in H. rewrite init_Navigate in H. autorewrite with pym in H.
  unfold bind at 1 in H. destruct (conn_execute _ w) as [[r|e] w1] eqn:E; [|discriminate].
  destruct (conn_execute_frame _ _ _ _ E) as (Hi & Hs & _). injection H as <-.
  unfold abs. rewrite Hi, Hs, subscribed_app. reflexivity.
Qed.

(** Every call that returns normally performs its operation of the
    specification. *)
Lemma run_call_abs c w w' : run_call c w = (Ok tt, w') -> abs_step c (abs w) (abs w').
Proof.
  destruct c as [h pats|k| |url wait|]; simpl; intros H.
  - unfold bind in H. destruct (add_request_handler h pats w) as [[k|e] w1] eqn:E; [|discriminate].
    injection H as <-. rewrite (add_request_handler_abs _ _ _ _ _ E). constructor.
  - rewrite (remove_intercept_abs _ _ _ H). constructor.
  - destruct (clear_intercepts_abs _ _ _ H) as [-> Hk].
    replace (abs w) with (clear_all (abs w)) at 2; [constructor|].
    unfold clear_all; simpl. rewrite keys_abs_rules, Hk. reflexivity.
  - rewrite (network_get_abs _ _ _ _ H). constructor.
  - unfold disable_cache, modify in H. injection H as <-. constructor.
Qed.

Lemma abs_steps_inv cs a a' : abs_steps cs a a' -> AbsInv a -> AbsInv a'.
Proof. induction 1; intros Ha; [exact Ha|]. apply IHabs_steps. eapply abs_step_inv; eauto. Qed.

(** C23: a sequence of calls of the public API that all return normally
    is simulated by the operations of the specification: the abstract
    state of the world it ends in is the one the operations of
    [addRule] / [removeRule] / [clearAll] compute, the trace's
    subscriptions included. *)
Theorem run_calls_refine cs : forall w w',
  run_calls cs w = (Ok tt, w') -> abs_steps cs (abs w) (abs w').
Proof.
  induction cs as [|c r IH]; intros w w' H; simpl in H.
  - injection H as <-. constructor.
  - unfold bind in H. destruct (run_call c w) as [[[]|e] w1] eqn:E; [|discriminate].
    econstructor; [apply run_call_abs, E|apply IH, H].
Qed.

(** C24: along every sequence of calls that all return normally from a
    fresh [Network], the event types the session is subscribed to are
    exactly those of the live rules (spec §8: no subscription outlives its
    last rule, none is missing). *)
Theorem calls_keep_subscriptions_in_sync cs c d w :
  run_calls cs (init_world c d) = (Ok tt, w) ->
  forall e, In e (subscribed (sent w)) <-> has_rule w e.
Proof.
  revert w. assert (H0 : AbsInv (abs (init_world c d))) by (constructor; simpl; [constructor|tauto|tauto]).
  revert H0. generalize (init_world c d) as w0.
  induction cs as [|c0 r IH]; intros w0 H0 w H e; simpl in H.
  - injection H as <-. destruct H0 as [_ _ Hs]. rewrite (Hs e). unfold has_rule, abs, abs_rules; simpl.
    unfold PyDict.values. rewrite !map_map. reflexivity.
  - unfold bind in H. destruct (run_call c0 w0) as [[[]|err] w1] eqn:E; [|discriminate].
    apply (IH w1); [|exact H]. eapply abs_step_inv; [apply run_call_abs, E|exact H0].
Qed.

(** The tables a raising [remove_intercept] leaves: the old one when the
    command or the pop failed, the table without the id when the teardown
    failed. *)
Lemma remove_intercept_error_table k w e w' :
  remove_intercept k w = (Exc e, w') ->
  intercepts (net w') = intercepts (net w) \/
  intercepts (net w') = PyDict.remove (intercepts (net w)) k.
Proof.
  intros H. rewrite remove_intercept_unfold in H.
  destruct (conn_execute _ w) as [[a|err] w1] eqn:E;
    destruct (conn_execute_frame _ _ _ _ E) as (Hi1 & _); [|injection H as _ <-; left; exact Hi1].
  destruct (PyDict.pop (intercepts (net w1)) k) as [[en rest]|] eqn:Hp; [|injection H as _ <-; left; exact Hi1].
  apply PyDictFacts.pop_some in Hp as [_ ->]. rewrite Hi1 in *. right.
  destruct (Nat.eqb _ 0); [|discriminate].
  unfold bind at 1 in H. destruct (remove_listener _ _) as [[[]|err] w3] eqn:Er;
    destruct (remove_listener_frame _ _ _ _ Er) as (Hi3 & _); [|injection H as _ <-; exact Hi3].
  unfold bind at 1 in H. destruct (conn_execute _ w3) as [[b|err] w4] eqn:E4; [discriminate|].
  destruct (conn_execute_frame _ _ _ _ E4) as (Hi4 & _). injection H as _ <-. rewrite Hi4. exact Hi3.
Qed.

(** C30: a call that raises never adds a rule and removes at most one:
    [add_request_handler], [get] and [disable_cache] leave the intercept
    table as it was; [remove_intercept k] leaves it or removes [k] alone;
    [clear_intercepts] leaves it or removes its first id alone (spec §7:
    a rejected command does not affect other rules). *)
Theorem failed_call_rules c w e w' :
  run_call c w = (Exc e, w') ->
  fail_step c (abs_rules (intercepts (net w))) (abs_rules (intercepts (net w'))).
Proof.
  destruct c as [h pats|k| |url wait|]; simpl; intros H.
  - unfold bind in H. rewrite add_request_handler_unfold in H.
    destruct (conn_execute _ w) as [[a1|err] w1] eqn:E1;
      destruct (conn_execute_frame _ _ _ _ E1) as (Hi1 & _); [|injection H as _ <-; rewrite Hi1; constructor].
    destruct (conn_execute _ w1) as [[res|err] w2] eqn:E2;
      destruct (conn_execute_frame _ _ _ _ E2) as (Hi2 & _); [|injection H as _ <-; rewrite Hi2, Hi1; constructor].
    destruct (getitem res "intercept") as [iv|err]; [|injection H as _ <-; rewrite Hi2, Hi1; constructor].
    destruct (as_key iv) as [k|err]; [discriminate|injection H as _ <-; rewrite Hi2, Hi1; constructor].
  - destruct (remove_intercept_error_table _ _ _ _ H) as [->| ->]; [constructor|].
    rewrite abs_rules_remove. constructor.
  - unfold clear_intercepts in H. autorewrite with pym in H.
    apply clear_loop_sound in H; [|lia].
    inversion H as [? ? Hn| | ? ? k e' w1 Hn Hk Er | ? ? k u w1 r' w2 Hn Hk Er Hrest]; subst; [apply fail_none| |].
    + destruct (PyDict.keys (intercepts (net w))) as [|k0 ks] eqn:Hks; [discriminate|].
      injection Hk as ->. destruct (remove_intercept_error_table _ _ _ _ Er) as [->| ->]; [constructor|].
      rewrite abs_rules_remove. econstructor. rewrite keys_abs_rules. exact Hks.
    + apply remove_intercept_ok in Er as [en [Hg Hi]].
      assert (Hin : In k (PyDict.keys (intercepts (net w)))) by (eapply nth_error_In; eauto).
      assert (Hl : length (PyDict.keys (intercepts (net w1))) < length (PyDict.keys (intercepts (net w)))).
      { rewrite Hi. pose proof (PyDictFacts.length_remove_in _ _ Hin) as L.
        unfold PyDict.keys in *. rewrite !length_map in *. lia. }
      destruct (iter_clear_after_removal _ _ _ _ _ Hl Hrest) as [_ ->].
      destruct (PyDict.keys (intercepts (net w))) as [|k0 ks] eqn:Hks; [discriminate|].
      injection Hk as ->. rewrite Hi, abs_rules_remove. econstructor. rewrite keys_abs_rules. exact Hks.
  - unfold network_get in H. autorewrite with pym in H. rewrite init_NavigateParameters in H.
    autorewrite with pym in H. rewrite init_Navigate in H. autorewrite with pym in H.
    unfold bind at 1 in H. destruct (conn_execute _ w) as [[r|err] w1] eqn:E;
      destruct (conn_execute_frame _ _ _ _ E) as (Hi & _); [discriminate|].
    injection H as _ <-. rewrite Hi. constructor.
  - unfold disable_cache, modify in H. discriminate.
Qed.

End Refine.

(** ** Witnesses, on the reference remote end *)

Section Witnesses.
#[local] Existing Instance RefBrowserChannel.

(** The calls of the test up to the removal of the second rule. *)
Definition wit_calls : list call :=
  [CallAddRequestHandler redirect_handler (url_pattern "u1");
   CallAddRequestHandler redirect_handler (url_pattern "u2");
   CallGet "u1" (VStr "complete");
   CallRemoveIntercept "intercept-1"].

Definition wit_end : World := snd (run_calls wit_calls wit_w0).

Lemma wit_calls_ok : run_calls wit_calls wit_w0 = (Ok tt, wit_end).
Proof.
  assert (E : fst (run_calls wit_calls wit_w0) = Ok tt) by (vm_compute; reflexivity).
  rewrite <- E. apply surjective_pairing.
Qed.

Lemma run_calls_refine_witness : abs_steps wit_calls (abs wit_w0) (abs wit_end).
Proof. apply run_calls_refine, wit_calls_ok. Defined.

Lemma calls_keep_subscriptions_in_sync_witness :
  In Schema.BeforeRequestSent_event_class (subscribed (sent wit_end)) <->
  has_rule wit_end Schema.BeforeRequestSent_event_class.
Proof.
  apply (@calls_keep_subscriptions_in_sync RefBrowserChannel wit_calls RefBrowser.initial wit_driver wit_end),
    wit_calls_ok.
Defined.

(** [clear_intercepts] on a table of one rule: the rule goes, then the
    size check raises. *)
Lemma failed_call_rules_witness :
  run_call CallClearIntercepts wit_w1 =
    (Exc (RuntimeError "dictionary changed size during iteration"), snd (run_call CallClearIntercepts wit_w1)) /\
  fail_step CallClearIntercepts (abs_rules (intercepts (net wit_w1)))
    (abs_rules (intercepts (net (snd (run_call CallClearIntercepts wit_w1))))).
Proof.
  assert (E : run_call CallClearIntercepts wit_w1 =
    (Exc (RuntimeError "dictionary changed size during iteration"), snd (run_call CallClearIntercepts wit_w1)))
    by (rewrite (surjective_pairing (run_call CallClearIntercepts wit_w1)) at 1; f_equal; vm_compute; reflexivity).
  split; [exact E|]. exact (failed_call_rules _ _ _ _ E).
Defined.

End Witnesses.

(** ** The error path *)

Section ErrorPath.
Context `{CH : Channel}.

(** C27: the agreement of C24 fails once a call raises: from any
    reachable session without a rule for [network.beforeRequestSent], an
    [add_request_handler] that raises (the remote end rejects the
    intercept, or answers without an id) leaves a reachable session that
    has not crashed, has no listener start pending, and whose trace has
    subscribed the event while no rule names it, so no listener will ever
    consume the events the remote end sends (spec §8 requires the
    subscriptions to equal the events of the live rules at every
    quiescent point). *)
Theorem subscription_without_rule w h pats e w' :
  reachable w -> crashed w = None -> ~ has_rule w Schema.BeforeRequestSent_event_class ->
  add_request_handler h pats w = (Exc e, w') ->
  reachable w' /\ crashed w' = None /\ starts (tasks w') = [] /\
  In Schema.BeforeRequestSent_event_class (subscribed (sent w')) /\
  ~ has_rule w' Schema.BeforeRequestSent_event_class.
Proof.
  intros Hr Hc Hn H.
  destruct (add_request_handler_exc_frame _ _ _ _ _ H) as (Hi & Hs & _ & _ & Hq).
  assert (Hst : step w w').
  { apply (step_call (CallAddRequestHandler h pats) w (Exc e)); [exact Hc|].
    simpl. unfold bind at 1. rewrite H. reflexivity. }
  assert (Hc' : crashed w' = None).
  { rewrite add_request_handler_unfold in H.
    destruct (conn_execute _ w) as [[a1|err] w1] eqn:E1;
      destruct (conn_execute_frame _ _ _ _ E1) as (_ & _ & Hc1 & _); [|injection H as _ <-; congruence].
    destruct (conn_execute _ w1) as [[res|err] w2] eqn:E2;
      destruct (conn_execute_frame _ _ _ _ E2) as (_ & _ & Hc2 & _); [|injection H as _ <-; congruence].
    destruct (getitem res "intercept"); [|injection H as _ <-; congruence].
    destruct (as_key _); [discriminate|injection H as _ <-; congruence]. }
  split; [exact (reach_step _ _ Hr Hst)|]. split; [exact Hc'|]. split; [exact Hq|].
  split.
  - destruct Hs as [-> | ->]; rewrite subscribed_app; cbn [fold_left]; rewrite ?apply_add_intercept, apply_subscribe;
      apply in_add_event; left; reflexivity.
  - unfold has_rule. rewrite Hi. exact Hn.
Qed.

End ErrorPath.

(** The first call of the test, against a remote end that rejects the
    intercept (e.g. an unsupported URL pattern). *)
Lemma subscription_without_rule_witness :
  let w := @init_world RejectingRemote tt wit_driver in
  let r := add_request_handler redirect_handler (url_pattern "u1") w in
  reachable (snd r) /\ crashed (snd r) = None /\ starts (tasks (snd r)) = [] /\
  In Schema.BeforeRequestSent_event_class (subscribed (sent (snd r))) /\
  ~ has_rule (snd r) Schema.BeforeRequestSent_event_class.
Proof.
  intros w r. apply (subscription_without_rule w redirect_handler (url_pattern "u1") (ProtocolError "invalid url pattern")).
  - apply reach_init.
  - reflexivity.
  - intros [].
  - assert (E : fst r = Exc (ProtocolError "invalid url pattern")) by (vm_compute; reflexivity).
    rewrite <- E. apply surjective_pairing.
Defined.

End Registry.
