(* ===== verification/Await.v ===== *)
(** The calls of remote/network.py with their await points.

    The atomic model of [Intercepts] runs a caller's call to completion.
    In the code, every [await self.conn.execute(...)] suspends the caller
    until the reply comes, and trio runs the other tasks meanwhile: the
    listening loops may handle events between two commands of one call.
    Here a call is a program of the await monad [Aw]: a finite tree whose
    leaves are the call's outcome and whose nodes are its commands, each
    with the continuation that resumes the call on the reply (the free
    monad of one action, [conn.execute]).  [complete] runs a program with
    no other task in between; [run_call_equiv] shows that the programs are
    the calls of [Intercepts] (so this file adds the interleavings and
    nothing else).  [remove_listener] and [disable_cache] have no await
    point inside ([remove_listener] is a coroutine that never suspends);
    the listening loop's turn stays atomic ([Listeners] suspends it too).
    [interleaved_registry_invariant] keeps the registry invariant at every
    await; [registration_race] shows, for any live session and remote end,
    the window of [add_handler] between the [addIntercept] reply and the
    table write ([race_window]). *)

From Stdlib Require Import String List ZArith Bool Lia.
From S2P Require Import Prelude PyValue Bidi NetworkSchema Channel Intercepts InterceptsInv InterceptsSpec TestScenario.
Import ListNotations.
Import Intercepts InterceptsInv InterceptsSpec TestScenario.
Local Open Scope string_scope.
Local Open Scope list_scope.

Module Await.

Section Aw.
Context `{CH : Channel}.
Local Notation M := (PyM World).

(** A call in flight: finished with its outcome in a world, or suspended
    on a command sent from a world, with what it does with the reply. *)
Inductive Aw (A : Type) : Type :=
| AwRet (r : res A) (w : World)
| AwExec (p : pyval) (w : World) (k : res pyval -> World -> Aw A).
Arguments AwRet {A} r w.
Arguments AwExec {A} p w k.

(** An async function, started in a world. *)
Definition Async (A : Type) : Type := World -> Aw A.

Fixpoint aw_bind {A B} (m : Aw A) (f : A -> Async B) : Aw B :=
  match m with
  | AwRet (Ok a) w => f a w
  | AwRet (Exc e) w => AwRet (Exc e) w
  | AwExec p w k => AwExec p w (fun r w' => aw_bind (k r w') f)
  end.

Definition abind {A B} (c : Async A) (f : A -> Async B) : Async B := fun w => aw_bind (c w) f.

(** A statement sequence with no await point inside. *)
Definition alift {A} (c : M A) : Async A := fun w => let '(r, w') := c w in AwRet r w'.

Definition aret {A} (a : A) : Async A := fun w => AwRet (Ok a) w.

(** [await self.conn.execute(p)]: the checkpoint, then the suspension on
    the command. *)
Definition aexec (p : pyval) : Async pyval := fun w => AwExec p (snd (checkpoint w)) (fun r w' => AwRet r w').

(** The connection answers the command sent from [w]. *)
Definition answer (p : pyval) (w : World) : res pyval * World :=
  let '(r, c) := chan_execute p (chan w) in (r, set_chan c p w).

(** A call run with no other task in between. *)
Fixpoint complete {A} (m : Aw A) : res A * World :=
  match m with
  | AwRet r w => (r, w)
  | AwExec p w k => let '(r, w') := answer p w in complete (k r w')
  end.

Definition run {A} (c : Async A) : M A := fun w => complete (c w).

End Aw.

Arguments AwRet {CH A} r w.
Arguments AwExec {CH A} p w k.

Declare Scope await_scope.
Delimit Scope await_scope with await.
Notation "x <-- c ;;; k" := (abind c (fun x => k))
  (at level 61, c at next level, right associativity) : await_scope.
Open Scope await_scope.

Section Calls.
Context `{CH : Channel}.
Local Notation M := (PyM World).

(** [await self.conn.execute(C(params).cmd())] of the low-level [Network]. *)
Definition a_run_command (c : dataclass) (params : pyval) : Async pyval :=
  command <-- alift (lift (dc_init c [params] [])) ;;;
  aexec (Bidi.cmd command).

(** [add_handler], lines 73-86: two await points, the subscription and
    the [addIntercept] command; the registration runs without one. *)
Definition a_add_handler (ev : string) (h : handler) (urlPatterns : pyval) : Async string :=
  _ <-- aexec (session_subscribe (VStr ev)) ;;;
  params <-- alift (lift (add_intercept_params ev urlPatterns)) ;;;
  result <-- a_run_command Schema.AddIntercept params ;;;
  alift (iv <- lift (getitem result "intercept") ;;
         intercept <- lift (as_key iv) ;;
         e1 <- intercepts_getitem intercept ;;
         set_intercept intercept (mk_entry (Some ev) (handlers e1)) ;;
         e2 <- intercepts_getitem intercept ;;
         set_intercept intercept (mk_entry (event_name e2) (handlers e2 ++ [h])) ;;
         modify (fun w => set_tasks (tasks w ++ [TaskStart ev]) w) ;;
         ret intercept).

(** [remove_intercept], lines 109-117: the await of [removeIntercept]; the
    pop, the [remaining] check and [remove_listener] without one; the
    await of [session.unsubscribe]. *)
Definition a_remove_intercept (intercept : string) : Async unit :=
  params <-- alift (lift (dc_init Schema.RemoveInterceptParameters [VStr intercept] [])) ;;;
  _ <-- (_ <-- a_run_command Schema.RemoveIntercept params ;;; aret VNone) ;;;
  w <-- alift get ;;;
  match PyDict.pop (intercepts (net w)) intercept with
  | None => alift (raise (KeyError intercept))
  | Some (e, rest) =>
      _ <-- alift (modify (set_intercepts rest)) ;;;
      let remaining := filter (fun i => name_eqb (event_name i) (event_name e)) (PyDict.values rest) in
      if Nat.eqb (length remaining) 0 then
        _ <-- alift (remove_listener (event_name e)) ;;;
        _ <-- aexec (session_unsubscribe (name_to_py (event_name e))) ;;;
        aret tt
      else aret tt
  end.

(** The loop of [clear_intercepts], each removal with its await points. *)
Fixpoint a_clear_loop (fuel n i : nat) : Async unit :=
  match fuel with
  | O => aret tt
  | S fuel' =>
      w <-- alift get ;;;
      let ks := PyDict.keys (intercepts (net w)) in
      if negb (Nat.eqb (length ks) n)
      then alift (raise (RuntimeError "dictionary changed size during iteration"))
      else match nth_error ks i with
           | None => aret tt
           | Some k => _ <-- a_remove_intercept k ;;; a_clear_loop fuel' n (S i)
           end
  end.

Definition a_clear_intercepts : Async unit :=
  w <-- alift get ;;;
  let n := length (PyDict.keys (intercepts (net w))) in
  a_clear_loop (S n) n 0.

(** [get], lines 56-58: one await point, the navigation. *)
Definition a_network_get (url : string) (wait : pyval) : Async unit :=
  w <-- alift get ;;;
  params <-- alift (lift (dc_init BrowsingContext.NavigateParameters []
                    [("context", VStr (current_window_handle (driver w))); ("url", VStr url);
                     ("wait", wait)])) ;;;
  command <-- alift (lift (dc_init BrowsingContext.Navigate [params] [])) ;;;
  _ <-- aexec (Bidi.cmd command) ;;;
  aret tt.

Definition a_run_call (c : call) : Async unit :=
  match c with
  | CallAddRequestHandler h p =>
      _ <-- a_add_handler Schema.BeforeRequestSent_event_class h p ;;; aret tt
  | CallRemoveIntercept i => a_remove_intercept i
  | CallClearIntercepts => a_clear_intercepts
  | CallGet url wait => a_network_get url wait
  | CallDisableCache => alift disable_cache
  end.

End Calls.

(** ** Run to completion, the calls are the atomic calls *)

Section Equiv.
Context `{CH : Channel}.
Local Notation M := (PyM World).

(** [c] run with no other task in between is [c']. *)
Definition arefines {A} (c : Async A) (c' : M A) : Prop := forall w, run c w = c' w.

Lemma complete_aw_bind {A B} (m : Aw A) (f : A -> Async B) :
  complete (aw_bind m f) =
  match complete m with (Ok a, w) => complete (f a w) | (Exc e, w) => (Exc e, w) end.
Proof.
  induction m as [[a|e] w|p w k IH]; simpl; [reflexivity|reflexivity|].
  destruct (answer p w) as [r w']. apply IH.
Qed.

Lemma conn_execute_answer p w : conn_execute p w = answer p (snd (checkpoint w)).
Proof. unfold conn_execute. unfold bind at 1. rewrite checkpoint_ok. reflexivity. Qed.

Lemma arefines_bind {A B} (c : Async A) (c' : M A) (f : A -> Async B) (k : A -> M B) :
  arefines c c' -> (forall a, arefines (f a) (k a)) -> arefines (abind c f) (bind c' k).
Proof.
  intros Hc Hf w. unfold run, abind. rewrite complete_aw_bind. unfold bind.
  change (complete (c w)) with (run c w). rewrite Hc.
  destruct (c' w) as [[a|e] w1]; [apply Hf|reflexivity].
Qed.

Lemma arefines_lift {A} (c : M A) : arefines (alift c) c.
Proof. intros w. unfold run, alift. destruct (c w); reflexivity. Qed.

Lemma arefines_ret {A} (a : A) : arefines (aret a) (ret a).
Proof. intros w. reflexivity. Qed.

Lemma arefines_exec p : arefines (aexec p) (conn_execute p).
Proof. intros w. unfold run, aexec. simpl. rewrite conn_execute_answer. destruct (answer _ _); reflexivity. Qed.

Lemma arefines_run_command c params :
  arefines (a_run_command c params) (Schema.run_command conn_execute c params).
Proof. apply arefines_bind; [apply arefines_lift|intros; apply arefines_exec]. Qed.

End Equiv.

Create HintDb await_db discriminated.
#[export] Hint Resolve arefines_lift arefines_ret arefines_exec arefines_run_command : await_db.

(** Matches the async program against the atomic one, statement by statement. *)
Ltac arefine_step :=
  match goal with
  | |- arefines (abind _ _) (bind _ _) => apply arefines_bind; [|intro]
  | |- arefines (if ?b then _ else _) _ => destruct b
  | |- arefines (match ?x with _ => _ end) _ => destruct x
  | |- _ => solve [eauto with await_db]
  end.
Ltac arefine := repeat arefine_step.

Section EquivCalls.
Context `{CH : Channel}.

Lemma arefines_add_handler ev h pats : arefines (a_add_handler ev h pats) (add_handler ev h pats).
Proof. unfold a_add_handler, add_handler, Schema.add_intercept. arefine. Qed.

Lemma arefines_remove_intercept i : arefines (a_remove_intercept i) (remove_intercept i).
Proof. unfold a_remove_intercept, remove_intercept, Schema.remove_intercept. arefine. Qed.
#[local] Hint Resolve arefines_add_handler arefines_remove_intercept : await_db.

Lemma arefines_clear_loop fuel n i : arefines (a_clear_loop fuel n i) (clear_loop fuel n i).
Proof. revert i; induction fuel; intros; simpl; arefine. Qed.
#[local] Hint Resolve arefines_clear_loop : await_db.

Lemma arefines_run_call c : arefines (a_run_call c) (run_call c).
Proof.
  destruct c; simpl; unfold add_request_handler, clear_intercepts, a_clear_intercepts,
    network_get, a_network_get; arefine.
Qed.

End EquivCalls.

(** ** What the segments between two await points keep *)

Section Keeps.
Context `{CH : Channel}.
Local Notation M := (PyM World).
Variable P : World -> Prop.

(** A statement sequence with no await point keeps [P]. *)
Definition keeps {A} (c : M A) : Prop := forall w r w', P w -> c w = (r, w') -> P w'.

Lemma keeps_ret {A} (a : A) : keeps (ret a).
Proof. intros w r w' Hw H. injection H as _ <-. exact Hw. Qed.

Lemma keeps_raise {A} e : keeps (@raise World A e).
Proof. intros w r w' Hw H. injection H as _ <-. exact Hw. Qed.

Lemma keeps_lift {A} (x : res A) : keeps (lift x).
Proof. intros w r w' Hw H. injection H as _ <-. exact Hw. Qed.

Lemma keeps_get : keeps get.
Proof. intros w r w' Hw H. injection H as _ <-. exact Hw. Qed.

Lemma keeps_modify f : (forall w, P w -> P (f w)) -> keeps (modify f).
Proof. intros Hf w r w' Hw H. injection H as _ <-. apply Hf, Hw. Qed.

Lemma keeps_bind {A B} (c : M A) (k : A -> M B) :
  keeps c -> (forall a, keeps (k a)) -> keeps (bind c k).
Proof.
  intros Hc Hk w r w' Hw H. unfold bind in H.
  destruct (c w) as [[a|e] w1] eqn:E.
  - eapply Hk; [eapply Hc; eauto|exact H].
  - injection H as _ <-. eapply Hc; eauto.
Qed.

End Keeps.

Create HintDb keeps_db discriminated.
#[export] Hint Resolve keeps_ret keeps_raise keeps_lift keeps_get : keeps_db.

Ltac keeps_step :=
  match goal with
  | |- keeps _ (bind _ _) => apply keeps_bind; [|intro]
  | |- keeps _ (modify _) => apply keeps_modify; intros ? ?; simpl; assumption
  | |- keeps _ (if ?b then _ else _) => destruct b
  | |- keeps _ (match ?x with _ => _ end) => destruct x
  | |- _ => solve [eauto with keeps_db]
  end.
Ltac keeps_auto := repeat keeps_step.

(** ** Await programs that keep a property at every await point *)

Section Hoare.
Context `{CH : Channel}.
Local Notation M := (PyM World).
(** [Sp] holds where the call is suspended and where it resumes; [Ep]
    where it ends by an exception. *)
Variables Sp Ep : World -> Prop.
Hypothesis Sp_Ep : forall w, Sp w -> Ep w.

Fixpoint aw_all {A} (Q : A -> World -> Prop) (m : Aw A) : Prop :=
  match m with
  | AwRet (Ok a) w => Q a w
  | AwRet (Exc _) w => Ep w
  | AwExec _ w k => Sp w /\ forall r w', Sp w' -> aw_all Q (k r w')
  end.

Definition ahoare {A} (Pre : World -> Prop) (c : Async A) (Q : A -> World -> Prop) : Prop :=
  forall w, Pre w -> aw_all Q (c w).

Lemma aw_all_bind {A B} (R : A -> World -> Prop) (Q : B -> World -> Prop) (m : Aw A) f :
  aw_all R m -> (forall a w, R a w -> aw_all Q (f a w)) -> aw_all Q (aw_bind m f).
Proof.
  induction m as [[a|e] w|p w k IH]; simpl; auto.
  intros [Hs Hk] Hf. split; [exact Hs|]. intros r w' Hw'. apply IH; auto.
Qed.

Lemma ahoare_bind {A B} Pre (c : Async A) R (f : A -> Async B) Q :
  ahoare Pre c R -> (forall a, ahoare (R a) (f a) Q) -> ahoare Pre (abind c f) Q.
Proof. intros Hc Hf w Hw. eapply aw_all_bind; [apply Hc, Hw|]. intros a w' H. apply Hf, H. Qed.

Lemma ahoare_ret {A} Pre (a : A) Q : (forall w, Pre w -> Q a w) -> ahoare Pre (aret a) Q.
Proof. intros H w Hw. apply H, Hw. Qed.

Lemma ahoare_ret_keep {A} Pre (a : A) : ahoare Pre (aret a) (fun _ => Pre).
Proof. apply ahoare_ret. auto. Qed.

Lemma ahoare_lift {A} Pre (c : M A) Q :
  (forall w r w', Pre w -> c w = (r, w') -> match r with Ok a => Q a w' | Exc _ => Ep w' end) ->
  ahoare Pre (alift c) Q.
Proof. intros H w Hw. unfold alift. destruct (c w) as [[a|e] w'] eqn:Ec; exact (H _ _ _ Hw Ec). Qed.

(** A segment that keeps [Ep] is an [alift] from [Ep] to [Ep]. *)
Lemma ahoare_keeps {A} (c : M A) : keeps Ep c -> ahoare Ep (alift c) (fun _ => Ep).
Proof. intros H. apply ahoare_lift. intros w [a|e] w' Hw Hc; eapply H; eauto. Qed.

Lemma ahoare_exec Pre p :
  (forall w, Pre w -> Sp (snd (checkpoint w))) -> ahoare Pre (aexec p) (fun _ => Sp).
Proof. intros H w Hw. simpl. split; [apply H, Hw|]. intros [a|e] w' Hw'; simpl; auto. Qed.

Lemma ahoare_weaken {A} Pre (c : Async A) Q Q' :
  ahoare Pre c Q -> (forall a w, Q a w -> Q' a w) -> ahoare Pre c Q'.
Proof.
  intros Hc HQ w Hw. specialize (Hc w Hw). revert Hc. generalize (c w) as m.
  induction m as [[a|e] w0|p w0 k IH]; simpl; auto.
  intros [Hs Hk]. split; [exact Hs|]. intros r w' Hw'. apply IH, Hk, Hw'.
Qed.

End Hoare.

(** ** The registry invariant at every await point *)

Section CallInv.
Context `{CH : Channel}.
Local Notation M := (PyM World).
Implicit Types (w : World).

(** Where a call is suspended: the invariant holds and the nursery has no
    pending start (the checkpoint of [conn.execute] ran them all). *)
Definition Quiet w : Prop := Inv w /\ starts (tasks w) = [].

Lemma Quiet_Inv w : Quiet w -> Inv w.
Proof. intros [H _]. exact H. Qed.

Lemma Quiet_checkpoint w : Inv w -> Quiet (snd (checkpoint w)).
Proof.
  intros HI. destruct (checkpoint_inv w _ _ HI (checkpoint_ok w)) as (HI' & _ & Hs & _). split; assumption.
Qed.

Lemma Quiet_answer p w : Quiet w -> Quiet (snd (answer p w)).
Proof.
  intros [HI Hs]. unfold answer. destruct (chan_execute p (chan w)) as [r c]. simpl.
  split; [eapply InvX_ext; [| | | |exact HI]; reflexivity|exact Hs].
Qed.

Lemma keeps_quiet_conn_execute p : keeps Quiet (conn_execute p).
Proof. intros w r w' [HI _] H. destruct (conn_execute_inv _ _ _ _ HI H) as (HI' & Hs & _). split; assumption. Qed.

Lemma keeps_quiet_getitem k : keeps Quiet (intercepts_getitem k).
Proof.
  intros w r w' [HI Hs] H. split; [eapply preserves_getitem; eauto|].
  unfold intercepts_getitem, bind, get in H.
  destruct (PyDict.get _ _); [injection H as _ <-; exact Hs|].
  unfold modify, ret in H. injection H as _ <-. exact Hs.
Qed.
#[local] Hint Resolve keeps_quiet_conn_execute keeps_quiet_getitem : keeps_db.

Lemma keeps_quiet_handle_loop ids request : keeps Quiet (handle_loop ids request).
Proof. revert request; induction ids; intros; simpl; keeps_auto. Qed.
#[local] Hint Resolve keeps_quiet_handle_loop : keeps_db.

(** A turn of a listening loop leaves no start pending where it found none. *)
Lemma keeps_quiet_listener_iteration ev_obj : keeps Quiet (listener_iteration ev_obj).
Proof.
  unfold listener_iteration, handle_events, handle_requests, Schema.continue_request,
    Schema.run_command. keeps_auto.
Qed.

Local Notation ahoareI := (ahoare Quiet Inv).

Lemma ai_lift {A} Pre (c : M A) : (forall w, Pre w -> Inv w) -> preserves c -> ahoareI Pre (alift c) (fun _ => Inv).
Proof. intros HP Hc. apply ahoare_lift. intros w [a|e] w' Hw H; eapply Hc; eauto. Qed.

Lemma ai_exec Pre p : (forall w, Pre w -> Inv w) -> ahoareI Pre (aexec p) (fun _ => Quiet).
Proof. intros HP. apply ahoare_exec; [apply Quiet_Inv|]. intros w Hw. apply Quiet_checkpoint, HP, Hw. Qed.

Lemma ai_get Pre : ahoareI Pre (alift get) (fun a w => a = w /\ Pre w).
Proof. intros w Hw. simpl. auto. Qed.

Lemma ai_run_command Pre c params :
  (forall w, Pre w -> Inv w) -> ahoareI Pre (a_run_command c params) (fun _ => Quiet).
Proof.
  intros HP. eapply ahoare_bind; [apply ai_lift; [exact HP|apply preserves_lift]|].
  intros a. apply ai_exec. auto.
Qed.

(** The registration after the [addIntercept] reply (lines 81-86). *)
Lemma preserves_register_tail (result : pyval) h :
  preserves (iv <- lift (getitem result "intercept") ;;
             intercept <- lift (as_key iv) ;;
             e1 <- intercepts_getitem intercept ;;
             set_intercept intercept (mk_entry (Some Schema.BeforeRequestSent_event_class) (handlers e1)) ;;
             e2 <- intercepts_getitem intercept ;;
             set_intercept intercept (mk_entry (event_name e2) (handlers e2 ++ [h])) ;;
             modify (fun w => set_tasks (tasks w ++ [TaskStart Schema.BeforeRequestSent_event_class]) w) ;;
             ret intercept).
Proof.
  intros w r w' HI H. destruct (getitem result "intercept") as [iv|e];
    autorewrite with pym in H; [|injection H as _ <-; exact HI].
  destruct (as_key iv) as [k|e]; autorewrite with pym in H; [|injection H as _ <-; exact HI].
  rewrite register_eq in H. injection H as _ <-. apply register_inv, HI.
Qed.

End CallInv.

Ltac ai_pre := let w := fresh "w" in let H := fresh "H" in
  intros w H; first [exact H | exact (Quiet_Inv _ H)].

Ltac ai_step :=
  match goal with
  | |- ahoare _ _ _ (abind _ _) _ => eapply ahoare_bind; [|intro]
  | |- ahoare _ _ _ (aexec _) _ => apply ai_exec; ai_pre
  | |- ahoare _ _ _ (a_run_command _ _) _ => apply ai_run_command; ai_pre
  | |- ahoare _ _ _ (alift _) _ => apply ai_lift; [ai_pre|]
  | |- ahoare _ _ _ (aret _) _ => first [apply ahoare_ret_keep | apply ahoare_ret; ai_pre]
  | |- ahoare _ _ _ (if ?b then _ else _) _ => destruct b
  | |- ahoare _ _ _ (match ?x with _ => _ end) _ => destruct x
  | |- preserves _ => first [apply preserves_lift | apply preserves_get | apply preserves_raise
                            | apply preserves_register_tail | apply preserves_disable_cache]
  end.
Ltac ai_auto := repeat ai_step.

Section CallInvCalls.
Context `{CH : Channel}.
Implicit Types (w : World).
Local Notation ahoareI := (ahoare Quiet Inv).


Lemma ai_add_request_handler h pats :
  ahoareI Inv (a_add_handler Schema.BeforeRequestSent_event_class h pats) (fun _ => Inv).
Proof. unfold a_add_handler. ai_auto. Qed.

(** Between the two awaits of [remove_intercept] the pop and
    [remove_listener] run from a world where the call resumed. *)
Lemma ai_remove_intercept i : ahoareI Inv (a_remove_intercept i) (fun _ => Inv).
Proof.
  unfold a_remove_intercept.
  eapply ahoare_bind; [ai_auto|intros params].
  eapply ahoare_bind; [ai_auto|intros v].
  eapply ahoare_bind; [apply ai_get|intros w0].
  destruct (PyDict.pop (intercepts (net w0)) i) as [[e rest]|] eqn:Hp; [|ai_auto; intros w [_ Hw]; exact (Quiet_Inv _ Hw)].
  apply ahoare_bind with (R := fun _ w => w = set_intercepts rest w0 /\ Quiet w0).
  { apply ahoare_lift. intros w r w' [<- Hq] H. injection H as <- <-. auto. }
  intros u. cbv zeta. destruct (Nat.eqb _ 0) eqn:Hz.
  - eapply ahoare_bind; [|intros u'; ai_auto].
    apply ahoare_lift. intros w r w' [-> [HI Hs]] H.
    pose proof (remove_entry_inv _ _ _ _ _ _ HI Hs Hp Hz H). destruct r; assumption.
  - apply ahoare_ret. intros w [-> [HI Hs]].
    pose proof (InvX_remove_entry _ _ _ _ HI Hs Hp) as HX. rewrite Hz in HX. exact HX.
Qed.

Lemma ai_clear_loop fuel n i : ahoareI Inv (a_clear_loop fuel n i) (fun _ => Inv).
Proof.
  revert i; induction fuel; intros i; simpl; ai_auto;
    first [apply ai_remove_intercept | apply IHfuel | idtac].
Qed.

Lemma ai_run_call c : ahoareI Inv (a_run_call c) (fun _ => Inv).
Proof.
  destruct c; simpl; unfold a_clear_intercepts, a_network_get; ai_auto;
    first [apply ai_add_request_handler | apply ai_remove_intercept | apply ai_clear_loop].
Qed.

End CallInvCalls.

(** ** A call does not crash the session by itself *)

Section NoCrash.
Context `{CH : Channel}.
Implicit Types (w : World).

Definition NC w : Prop := crashed w = None.

Lemma crashed_checkpoint w : crashed (snd (checkpoint w)) = crashed w.
Proof.
  unfold checkpoint, bind, get. destruct (run_starts (tasks w) w) as [r w1] eqn:E.
  destruct (run_starts_frame _ _ _ _ E) as [[ts ->] (_ & _ & _ & _ & Hx)]. exact Hx.
Qed.

Lemma keeps_nc_getitem k : keeps NC (intercepts_getitem k).
Proof. unfold intercepts_getitem. keeps_auto. Qed.

Lemma keeps_nc_set_intercept k e : keeps NC (set_intercept k e).
Proof. unfold set_intercept. keeps_auto. Qed.

Lemma keeps_nc_remove_listener n : keeps NC (remove_listener n).
Proof. unfold remove_listener, stream_close. keeps_auto. Qed.

Lemma keeps_nc_disable_cache : keeps NC disable_cache.
Proof. unfold disable_cache. keeps_auto. Qed.
End NoCrash.

#[export] Hint Resolve keeps_nc_getitem keeps_nc_set_intercept keeps_nc_remove_listener
  keeps_nc_disable_cache : keeps_db.


Ltac nc_step :=
  match goal with
  | |- ahoare _ _ _ (abind _ _) _ => eapply ahoare_bind; [|intro]
  | |- ahoare _ _ _ (aexec _) _ =>
      eapply ahoare_weaken;
        [apply ahoare_exec; [intros ? H; exact H|intros ? H; unfold NC; rewrite crashed_checkpoint; exact H]
        |intros ? ? H; exact H]
  | |- ahoare _ _ _ (alift _) _ => apply ahoare_keeps; keeps_auto
  | |- ahoare _ _ _ (aret _) _ => first [apply ahoare_ret_keep | apply ahoare_ret; intros ? H; exact H]
  | |- ahoare _ _ _ (if ?b then _ else _) _ => destruct b
  | |- ahoare _ _ _ (match ?x with _ => _ end) _ => destruct x
  end.
Ltac nc_auto := repeat nc_step.

Section NoCrashCalls.
Context `{CH : Channel}.
Local Notation ahoareN := (ahoare NC NC).

Lemma nc_remove_intercept i : ahoareN NC (a_remove_intercept i) (fun _ => NC).
Proof. unfold a_remove_intercept, a_run_command. nc_auto. Qed.

Lemma nc_clear_loop fuel n i : ahoareN NC (a_clear_loop fuel n i) (fun _ => NC).
Proof.
  revert i; induction fuel; intros i; simpl; nc_auto;
    first [apply nc_remove_intercept | apply IHfuel].
Qed.

Lemma nc_run_call c : ahoareN NC (a_run_call c) (fun _ => NC).
Proof.
  destruct c; simpl; unfold a_add_handler, a_run_command, a_clear_intercepts, a_network_get;
    nc_auto; first [apply nc_remove_intercept | apply nc_clear_loop].
Qed.

End NoCrashCalls.

(** ** The session with the caller's awaits interleaved *)

Section Interleaved.
Context `{CH : Channel}.
Implicit Types (w : World).

(** The session: the world, and the caller's call suspended on a command
    with the reply the remote end gave, if a call is in flight. *)
Record Config : Type := mk_cfg {
  cw : World;
  caller : option (res pyval * (res pyval -> World -> Aw unit))
}.

(** The caller runs until its next await: the command goes out and the
    remote end answers at once; the caller sees the reply when it resumes. *)
Definition settle (m : Aw unit) : Config :=
  match m with
  | AwRet _ w => mk_cfg w None
  | AwExec p w k => let '(r, w') := answer p w in mk_cfg w' (Some (r, k))
  end.

(** The steps of the nursery's tasks, those of [step] that are not a call. *)
Inductive estep : World -> World -> Prop :=
| estep_run_starts w :
    crashed w = None -> estep w (snd (checkpoint w))
| estep_event ev s json ev_obj w r w' :
    crashed w = None -> In (TaskLoop ev s) (tasks w) -> In (s, ev) (streams w) ->
    Schema.decode_before_request_sent json = Ok ev_obj ->
    listener_iteration ev_obj w = (r, w') ->
    estep w (after_iteration s r w')
| estep_closed ev s w :
    crashed w = None -> In (TaskLoop ev s) (tasks w) -> ~ In (s, ev) (streams w) ->
    estep w (set_tasks (drop_loop s (tasks w)) w).

(** A call starts when none is in flight; a suspended call resumes with
    its reply; a crash of the nursery cancels the suspended call (trio
    raises [Cancelled] at its await); the tasks run whether or not a call
    is in flight. *)
Inductive istep : Config -> Config -> Prop :=
| istep_call c w :
    crashed w = None -> istep (mk_cfg w None) (settle (a_run_call c w))
| istep_resume w r k :
    crashed w = None -> istep (mk_cfg w (Some (r, k))) (settle (k r w))
| istep_cancel w r k e :
    crashed w = Some e -> istep (mk_cfg w (Some (r, k))) (mk_cfg w None)
| istep_env w w' o :
    estep w w' -> istep (mk_cfg w o) (mk_cfg w' o).

Inductive ireach : Config -> Prop :=
| ireach_init c d : ireach (mk_cfg (init_world c d) None)
| ireach_step x y : ireach x -> istep x y -> ireach y.

(** A schedule: which task runs next. *)
Inductive move : Type :=
| MCall (c : call)
| MResume
| MEvent (json : pyval)
| MStarts.

(** One move, when it can be made (a move that cannot changes nothing);
    after a crash the suspended call is cancelled. *)
Definition imove (mv : move) (x : Config) : Config :=
  let w := cw x in
  match crashed w with
  | Some _ => mk_cfg w None
  | None =>
      match mv, caller x with
      | MCall c, None => settle (a_run_call c w)
      | MResume, Some (r, k) => settle (k r w)
      | MEvent json, o =>
          match live_loop (tasks w) (streams w), Schema.decode_before_request_sent json with
          | Some (_, s), Ok ev_obj =>
              let '(r, w') := listener_iteration ev_obj w in mk_cfg (after_iteration s r w') o
          | _, _ => x
          end
      | MStarts, o => mk_cfg (snd (checkpoint w)) o
      | _, _ => x
      end
  end.

Definition ischedule (mvs : list move) (x : Config) : Config := fold_left (fun x mv => imove mv x) mvs x.

End Interleaved.

(** ** The invariant along interleaved runs, and the atomic runs among them *)

Section InterleavedInv.
Context `{CH : Channel}.
Implicit Types (w : World) (x : Config).

Lemma crashed_answer p w : crashed (snd (answer p w)) = crashed w.
Proof. unfold answer. destruct (chan_execute p (chan w)); reflexivity. Qed.

Lemma starts_after_iteration s r w : starts (tasks (after_iteration s r w)) = starts (tasks w).
Proof. destruct r as [u|[]]; simpl; try reflexivity; apply starts_drop_loop. Qed.

Lemma estep_step w w' : estep w w' -> step w w'.
Proof.
  destruct 1; [apply step_run_starts|eapply step_event|eapply step_closed]; eauto.
Qed.

Lemma estep_Quiet w w' : Quiet w -> estep w w' -> Quiet w'.
Proof.
  intros [HI Hs] Hst. split; [eapply step_inv; [exact HI|apply estep_step, Hst]|].
  destruct Hst as [w0 Hc|ev s0 json ev_obj w0 r w1 Hc Ht Hss Hd Hl|ev s0 w0 Hc Ht Hss].
  - apply Quiet_checkpoint, HI.
  - rewrite starts_after_iteration. apply (keeps_quiet_listener_iteration _ _ _ _ (conj HI Hs) Hl).
  - simpl. rewrite starts_drop_loop. exact Hs.
Qed.

(** The invariant of a configuration: the registry invariant, and a
    suspended call that keeps it whatever the tasks do meanwhile. *)
Definition CInv x : Prop :=
  match caller x with
  | None => Inv (cw x)
  | Some (r, k) => Quiet (cw x) /\ forall w', Quiet w' -> aw_all Quiet Inv (fun _ => Inv) (k r w')
  end.

Lemma settle_CInv m : aw_all Quiet Inv (fun _ : unit => Inv) m -> CInv (settle m).
Proof.
  destruct m as [[u|e] w|p w k]; simpl; auto.
  intros [Hq Hk]. destruct (answer p w) as [r w'] eqn:E. simpl. split; [|exact (Hk r)].
  pose proof (Quiet_answer p w Hq) as H. rewrite E in H. exact H.
Qed.

Lemma istep_CInv x y : CInv x -> istep x y -> CInv y.
Proof.
  intros Hx Hs. destruct Hs as [c w Hc|w r k Hc|w r k e Hc|w w' o He]; simpl in Hx.
  - apply settle_CInv, ai_run_call, Hx.
  - destruct Hx as [Hq Hk]. apply settle_CInv, Hk, Hq.
  - exact (Quiet_Inv _ (proj1 Hx)).
  - unfold CInv in *; simpl in *. destruct o as [[r k]|].
    + destruct Hx as [Hq Hk]. split; [eapply estep_Quiet; eauto|exact Hk].
    + eapply step_inv; [exact Hx|apply estep_step, He].
Qed.

Lemma ireach_CInv x : ireach x -> CInv x.
Proof.
  induction 1 as [c d|x y _ IH Hs]; [apply Inv_init|eapply istep_CInv; eauto].
Qed.

(** The caller running to its next await, then resumed at once each time,
    ends where the call run to completion ends. *)
Lemma settle_complete m :
  aw_all NC NC (fun _ : unit => NC) m -> ireach (settle m) -> ireach (mk_cfg (snd (complete m)) None).
Proof.
  induction m as [r w|p w k IH]; simpl; [auto|].
  intros [Hc Hk] Hr. destruct (answer p w) as [r w'] eqn:E.
  assert (Hc' : NC w') by (pose proof (crashed_answer p w) as H; rewrite E in H; simpl in H; unfold NC; rewrite H; exact Hc).
  apply IH; [apply Hk, Hc'|]. eapply ireach_step; [exact Hr|apply istep_resume, Hc'].
Qed.

Lemma imove_step mv x : imove mv x = x \/ istep x (imove mv x).
Proof.
  destruct x as [w o]. unfold imove; simpl.
  destruct (crashed w) as [e|] eqn:Hc.
  - destruct o as [[r k]|]; [right; eapply istep_cancel; eauto|left; reflexivity].
  - destruct mv as [c| |json|]; [destruct o as [[r k]|]|destruct o as [[r k]|]| |];
      try (left; reflexivity).
    + right. apply istep_call, Hc.
    + right. apply istep_resume, Hc.
    + destruct (live_loop _ _) as [[ev s]|] eqn:Hl; [|left; reflexivity].
      destruct (Schema.decode_before_request_sent json) as [ev_obj|e] eqn:Hd; [|left; reflexivity].
      destruct (live_loop_sound _ _ _ _ Hl) as [Ht Hs].
      destruct (listener_iteration ev_obj w) as [r w'] eqn:Hi.
      right. apply istep_env. eapply estep_event; eauto.
    + right. apply istep_env, estep_run_starts, Hc.
Qed.

Lemma imove_resume w r k : crashed w = None -> imove MResume (mk_cfg w (Some (r, k))) = settle (k r w).
Proof. intros Hc. unfold imove. simpl. rewrite Hc. reflexivity. Qed.

Lemma imove_cancel mv w o e : crashed w = Some e -> imove mv (mk_cfg w o) = mk_cfg w None.
Proof. intros Hc. unfold imove. simpl. rewrite Hc. reflexivity. Qed.

Lemma ischedule_ireach mvs : forall x, ireach x -> ireach (ischedule mvs x).
Proof.
  induction mvs as [|mv r IH]; intros x Hx; simpl; [exact Hx|].
  apply IH. destruct (imove_step mv x) as [E|E]; [rewrite E; exact Hx|eapply ireach_step; eauto].
Qed.

End InterleavedInv.

(** ** Properties *)

Section Claims.
Context `{CH : Channel}.

(** Each call of the public API, written with its await points and
    run with nothing in between, is the call of the atomic model: same
    outcome, same world. *)
Lemma run_call_equiv c w : run (a_run_call c) w = run_call c w.
Proof. apply arefines_run_call. Qed.

(** Every session of the atomic model is a session of the
    interleaved one: a call that runs to completion is the caller resumed
    at each await with no task in between. *)
Lemma atomic_runs_interleave w : reachable w -> ireach (mk_cfg w None).
Proof.
  induction 1 as [c d|w w' _ IH Hs]; [apply ireach_init|].
  destruct Hs as [c w r w' Hc Hr|w Hc|ev s json ev_obj w r w' Hc Ht Hss Hd Hl|ev s w Hc Ht Hss].
  - rewrite <- run_call_equiv in Hr. unfold run in Hr.
    replace w' with (snd (complete (a_run_call c w))) by (rewrite Hr; reflexivity).
    apply settle_complete; [apply nc_run_call, Hc|].
    eapply ireach_step; [exact IH|apply istep_call, Hc].
  - eapply ireach_step; [exact IH|apply istep_env, estep_run_starts, Hc].
  - eapply ireach_step; [exact IH|apply istep_env; eapply estep_event; eauto].
  - eapply ireach_step; [exact IH|apply istep_env; eapply estep_closed; eauto].
Qed.

(** C28: with the listening loops running while the caller awaits a
    reply, the registry invariant of [InterceptsInv] (every listener's
    event has a live rule, every live rule's event a listener or a pending
    start, one open stream per listener) holds in every configuration;
    while a call is suspended no listener start is pending.  The code
    keeps the pop of the entry and [remove_listener] between the same two
    awaits, which is what makes this hold. *)
Theorem interleaved_registry_invariant x :
  ireach x -> Inv (cw x) /\ (caller x <> None -> starts (tasks (cw x)) = []).
Proof.
  intros Hx. pose proof (ireach_CInv x Hx) as H. unfold CInv in H.
  destruct (caller x) as [[r k]|]; [destruct H as [[HI Hs] _]; auto|].
  split; [exact H|intros []; reflexivity].
Qed.

(** A suspended call finishes: resumed at each reply, it comes back
    to the caller (or is cancelled by a crash) after finitely many
    resumes. *)
Lemma suspended_call_finishes x : exists n, caller (ischedule (repeat MResume n) x) = None.
Proof.
  destruct x as [w [[r k]|]]; [|exists 0; reflexivity].
  assert (Hm : forall m, exists n, caller (ischedule (repeat MResume n) (settle m)) = None).
  { induction m as [r0 w0|p w0 k0 IH]; [exists 0; reflexivity|].
    simpl. destruct (answer p w0) as [r1 w1].
    destruct (crashed w1) eqn:Hc; [exists 1; simpl; rewrite (imove_cancel _ _ _ _ Hc); reflexivity|].
    destruct (IH r1 w1) as [n Hn]. exists (S n). simpl. rewrite imove_resume by exact Hc. exact Hn. }
  destruct (crashed w) eqn:Hc; [exists 1; simpl; rewrite (imove_cancel _ _ _ _ Hc); reflexivity|].
  destruct (Hm (k r w)) as [n Hn]. exists (S n). simpl. rewrite imove_resume by exact Hc. exact Hn.
Qed.

(** The caller's [add_request_handler] up to its second await: the
    subscription answered, the [addIntercept] command sent and answered,
    the registration not yet run. *)
Definition race_window (h : handler) (pats : pyval) (w : World) : Config :=
  ischedule [MCall (CallAddRequestHandler h pats); MResume] (mk_cfg w None).

Lemma race_window_eq h pats w a w1 r2 w2 :
  crashed w = None ->
  answer (session_subscribe (VStr Schema.BeforeRequestSent_event_class)) (snd (checkpoint w)) = (Ok a, w1) ->
  answer (add_intercept_payload pats) (snd (checkpoint w1)) = (r2, w2) ->
  race_window h pats w =
  mk_cfg w2 (Some (r2, fun r w' =>
    aw_bind (match r with
             | Ok res => alift (iv <- lift (getitem res "intercept") ;;
                                intercept <- lift (as_key iv) ;;
                                e1 <- intercepts_getitem intercept ;;
                                set_intercept intercept (mk_entry (Some Schema.BeforeRequestSent_event_class) (handlers e1)) ;;
                                e2 <- intercepts_getitem intercept ;;
                                set_intercept intercept (mk_entry (event_name e2) (handlers e2 ++ [h])) ;;
                                modify (fun w => set_tasks (tasks w ++ [TaskStart Schema.BeforeRequestSent_event_class]) w) ;;
                                ret intercept) w'
             | Exc e => AwRet (Exc e) w'
             end) (fun _ => aret tt))).
Proof.
  intros Hc E1 E2. unfold race_window, ischedule. cbn [fold_left].
  unfold imove at 2. cbn [cw caller]. rewrite Hc.
  cbn -[answer checkpoint Bidi.cmd]. rewrite E1.
  assert (Hc1 : crashed w1 = None).
  { pose proof (crashed_answer (session_subscribe (VStr Schema.BeforeRequestSent_event_class)) (snd (checkpoint w))) as C.
    rewrite E1 in C. simpl in C. rewrite C, crashed_checkpoint. exact Hc. }
  unfold imove. cbn [cw caller]. rewrite Hc1.
  cbn -[answer checkpoint Bidi.cmd].
  change (Bidi.cmd _) with (add_intercept_payload pats). rewrite E2. reflexivity.
Qed.

Lemma answer_checkpoint_frame p w r w' : answer p (snd (checkpoint w)) = (r, w') ->
  intercepts (net w') = intercepts (net w) /\ sent w' = sent w ++ [p] /\ crashed w' = crashed w.
Proof.
  intros H. rewrite <- conn_execute_answer in H.
  destruct (conn_execute_frame _ _ _ _ H) as (Hi & Hs & Hc & _). auto.
Qed.

(** C29: the registration of [add_handler] is not atomic with respect to
    the listening loops (spec §5 requires it).  From any live session,
    once the remote end has answered [session.subscribe] and the
    [addIntercept] command with a new rule id [k], the caller is
    suspended with both commands sent and [k] still missing from the
    client's table.  A request the remote end blocks under [k] and a
    listening loop receives now is looked up in the [defaultdict] (a
    placeholder with no handler), so [ContinueRequestParameters] gets the
    raw request's fields and the session crashes with [TypeError].  Had
    the caller resumed first, [k] would name the handler. *)
Theorem registration_race h pats w a w1 k w2 json ev_obj params d :
  crashed w = None ->
  answer (session_subscribe (VStr Schema.BeforeRequestSent_event_class)) (snd (checkpoint w)) = (Ok a, w1) ->
  answer (add_intercept_payload pats) (snd (checkpoint w1)) = (Ok (VDict [("intercept", VStr k)]), w2) ->
  PyDict.get (intercepts (net w)) k = None ->
  Schema.decode_before_request_sent json = Ok ev_obj ->
  getattr ev_obj "params" = Ok params -> getattr params "isBlocked" = Ok (VBool true) ->
  isinstance params "BeforeRequestSentParameters" = true ->
  getattr params "request" = Ok (VDict d) -> In "headersSize" (PyDict.keys d) ->
  getattr params "intercepts" = Ok (VList [VStr k]) ->
  live_loop (tasks w2) (streams w2) <> None ->
  cw (race_window h pats w) = w2 /\ caller (race_window h pats w) <> None /\
  sent w2 = sent w ++ [session_subscribe (VStr Schema.BeforeRequestSent_event_class); add_intercept_payload pats] /\
  PyDict.get (intercepts (net w2)) k = None /\
  (exists msg, crashed (cw (imove (MEvent json) (race_window h pats w))) = Some (TypeError msg)) /\
  caller (imove MResume (race_window h pats w)) = None /\
  PyDict.get (intercepts (net (cw (imove MResume (race_window h pats w))))) k =
    Some (mk_entry (Some Schema.BeforeRequestSent_event_class) [h]).
Proof.
  intros Hc E1 E2 Hk Hd Hp Hb Hi Hr Hhs Hids Hl.
  rewrite (race_window_eq h pats w a w1 _ w2 Hc E1 E2).
  destruct (answer_checkpoint_frame _ _ _ _ E1) as (Hi1 & Hs1 & Hc1).
  destruct (answer_checkpoint_frame _ _ _ _ E2) as (Hi2 & Hs2 & Hc2).
  rewrite Hc1, Hc in Hc2. rewrite Hi1 in Hi2. rewrite Hs1, <- app_assoc in Hs2.
  assert (Hk2 : PyDict.get (intercepts (net w2)) k = None) by (rewrite Hi2; exact Hk).
  split; [reflexivity|]. split; [discriminate|]. split; [exact Hs2|]. split; [exact Hk2|]. split.
  - unfold imove. cbn [cw caller]. rewrite Hc2.
    destruct (live_loop (tasks w2) (streams w2)) as [[ev' s]|]; [|contradiction]. rewrite Hd.
    rewrite (listener_iteration_blocked _ _ _ Hp Hb).
    destruct (handle_events_unhandled w2 params d [k] Hi Hr Hids) as (msg & w3 & E3 & _);
      [unfold pipeline, old_handlers; simpl; rewrite Hk2; reflexivity|exact Hhs|].
    rewrite E3. exists msg. reflexivity.
  - unfold imove. cbn [cw caller]. rewrite Hc2. cbn -[intercepts_getitem set_intercept].
    unfold alift. rewrite bind_lift_ok. cbn [as_key]. rewrite bind_lift_ok, register_eq.
    simpl. split; [reflexivity|].
    rewrite PyDictFacts.get_set_eq. unfold old_handlers. rewrite Hk2. reflexivity.
Qed.

End Claims.

(** ** The registration race, on the reference remote end *)

Section Race.
#[local] Existing Instance RefBrowserChannel.

(** Two [add_request_handler] calls; the second is suspended after the
    [addIntercept] command went out and its reply came back. *)
Definition race_schedule : list move :=
  [MCall (CallAddRequestHandler redirect_handler (url_pattern "u1")); MResume; MResume;
   MCall (CallAddRequestHandler redirect_handler (url_pattern "u2")); MResume].

Definition race_cfg : Config := ischedule race_schedule (mk_cfg wit_w0 None).

(** The request the remote end blocks under the rule it just created. *)
Definition race_event : pyval := blocked "r2" "u2" ["intercept-1"].

Lemma race_cfg_reachable : ireach race_cfg.
Proof. apply ischedule_ireach, ireach_init. Qed.

(** The race of C29 on the reference remote end: the test's first rule
    is live, the caller registers the second. *)
Definition rw0 : World := snd (checkpoint sc1).
Definition rw1 : World :=
  snd (answer (session_subscribe (VStr Schema.BeforeRequestSent_event_class)) (snd (checkpoint rw0))).
Definition rw2 : World := snd (answer (add_intercept_payload (url_pattern "u2")) (snd (checkpoint rw1))).
Definition race_ev : pyval :=
  match Schema.decode_before_request_sent race_event with Ok v => v | Exc _ => VNone end.
Definition race_params : pyval := match getattr race_ev "params" with Ok v => v | Exc _ => VNone end.
Definition race_req : PyDict.t pyval :=
  match getattr race_params "request" with Ok (VDict d) => d | _ => [] end.

Lemma registration_race_witness :
  cw (race_window redirect_handler (url_pattern "u2") rw0) = rw2 /\
  caller (race_window redirect_handler (url_pattern "u2") rw0) <> None /\
  sent rw2 = sent rw0 ++ [session_subscribe (VStr Schema.BeforeRequestSent_event_class);
                          add_intercept_payload (url_pattern "u2")] /\
  PyDict.get (intercepts (net rw2)) "intercept-1" = None /\
  (exists msg, crashed (cw (imove (MEvent race_event) (race_window redirect_handler (url_pattern "u2") rw0))) =
               Some (TypeError msg)) /\
  caller (imove MResume (race_window redirect_handler (url_pattern "u2") rw0)) = None /\
  PyDict.get (intercepts (net (cw (imove MResume (race_window redirect_handler (url_pattern "u2") rw0))))) "intercept-1" =
    Some (mk_entry (Some Schema.BeforeRequestSent_event_class) [redirect_handler]).
Proof.
  apply (registration_race redirect_handler (url_pattern "u2") rw0 (VDict []) rw1 "intercept-1" rw2
           race_event race_ev race_params race_req);
    try (vm_compute; reflexivity).
  - vm_compute. intuition discriminate.
  - vm_compute. discriminate.
Defined.

Lemma interleaved_registry_invariant_witness :
  Inv (cw race_cfg) /\ (caller race_cfg <> None -> starts (tasks (cw race_cfg)) = []).
Proof. apply (interleaved_registry_invariant race_cfg). exact race_cfg_reachable. Defined.

End Race.

End Await.
