(* ===== verification/Teardown.v ===== *)
(** The end of [set_context] (remote/network.py, lines 46-54).

    [set_context] opens the connection, then the nursery, and yields to
    the caller's block.  When the block is over, [async with
    trio.open_nursery()] waits until every task of the nursery has
    finished; only then does [open_cdp] close the connection.  A listening
    loop finishes when its stream is closed (by [remove_listener], i.e. by
    the caller's [remove_intercept]), when a turn raises
    [ClosedResourceError], or when the nursery is cancelled by a crash.
    Nothing in [set_context] removes the rules or closes the streams.

    [loop_streams] is the structure of the nursery: every loop task
    iterates the stream opened for its event, whose id is below
    [next_stream]; it holds in every reachable world ([reachable_LoopInv]).
    [nursery_waits] (C31): from a world where a loop iterates an open
    stream, no sequence of the nursery's own steps (listener turns,
    starts, loops ending) finishes every task unless the session crashes.
    It holds for a connection and handlers that never raise
    [ClosedResourceError].  Along such steps the rules stay and only
    [continueRequest] commands are sent.  So the block's exit waits for
    ever unless the caller removed every rule first, and the session
    never tears anything down itself, whereas the specification's scoped
    session guarantees teardown on exit.

    [nursery_exits] (C34) is the way out: once every rule is removed, the
    loops find their streams closed and the block can exit.

    [orphaned_listener] (C32) takes the other way out of a loop: when a
    turn raises [ClosedResourceError] (on the connection [ClosingRemote]
    of the witness, from its [continueRequest]), the [except] ends the
    loop but leaves its entry in [listeners] and its stream open.  Along
    every later run in which the caller removes no rule
    ([no_removal_run]) the predicate [Held] is kept: the listener stays,
    and no loop iterates an open stream of the event, since
    [add_listener] returns at once for each new rule. *)

From Stdlib Require Import String List Bool Arith Lia.
From S2P Require Import Prelude PyValue Bidi NetworkSchema Channel Intercepts InterceptsInv InterceptsSpec TestScenario Await.
Import ListNotations.
Import Intercepts InterceptsInv InterceptsSpec TestScenario Await.
Local Open Scope string_scope.
Local Open Scope list_scope.

Module Teardown.

(** ** Outcomes that are not [ClosedResourceError] *)

Definition no_closed {A} (r : res A) : Prop :=
  match r with Exc ClosedResourceError => False | _ => True end.

Lemma bind_kwargs_no_closed names bound kw : no_closed (bind_kwargs names bound kw).
Proof.
  revert bound; induction kw as [|[k v] r IH]; intros bound; simpl; [exact I|].
  destruct (negb _); [exact I|]. destruct (PyDict.mem _ _); [exact I|apply IH].
Qed.

Lemma fill_fields_no_closed fs bound : no_closed (fill_fields fs bound).
Proof.
  induction fs as [|f r IH]; simpl; [exact I|].
  destruct (PyDict.get bound (f_name f)), (f_default f); try exact I;
    destruct (fill_fields r bound) as [|[]]; simpl in *; tauto.
Qed.

Lemma dc_init_no_closed c args kw : no_closed (dc_init c args kw).
Proof.
  unfold dc_init. pose proof (bind_kwargs_no_closed (dc_names c)
    (combine (firstn (length args) (dc_names c)) args) kw) as H.
  destruct (bind_kwargs _ _ _) as [b|[]]; simpl in *; try tauto.
  destruct (Nat.ltb _ _); [exact I|].
  pose proof (fill_fields_no_closed (dc_fields c) b) as H'.
  destruct (fill_fields _ _) as [|[]]; simpl in *; tauto.
Qed.

Lemma dc_init_kw_no_closed c v : no_closed (dc_init_kw c v).
Proof. destruct v; try exact I. apply dc_init_no_closed. Qed.

Lemma getattr_no_closed v n : no_closed (getattr v n).
Proof. destruct v; try exact I. simpl. destruct (PyDict.get _ _); exact I. Qed.

Lemma py_iter_no_closed v : no_closed (py_iter v).
Proof. destruct v; exact I. Qed.

Lemma as_key_no_closed v : no_closed (as_key v).
Proof. destruct v; exact I. Qed.

Lemma run_handlers_no_closed hs x :
  (forall h, In h hs -> forall y, no_closed (h y)) -> no_closed (run_handlers hs x).
Proof.
  revert x; induction hs as [|h r IH]; intros x Hh; simpl; [exact I|].
  pose proof (Hh h (or_introl eq_refl) x) as Hx.
  destruct (h x) as [y|e]; [apply IH; intros; apply Hh; right; auto|exact Hx].
Qed.

(** ** Every loop task iterates the stream opened for its event *)

Section Loops.
Context `{CH : Channel}.
Implicit Types (w : World).

Definition fresh w : Prop := forall s e, In (s, e) (streams w) -> s < next_stream w.

Definition loop_streams w : Prop :=
  forall ev s, In (TaskLoop ev s) (tasks w) ->
    s < next_stream w /\ forall e', In (s, e') (streams w) -> e' = ev.

Definition LoopInv w : Prop := fresh w /\ loop_streams w.

(** The nursery's starts open streams with fresh ids, keep the loops it
    had and add one loop per stream it opened. *)
Lemma run_starts_loops ts : forall w r w1,
  run_starts ts w = (r, w1) -> fresh w ->
  exists ts', r = Ok ts' /\ fresh w1 /\ next_stream w <= next_stream w1 /\
  (forall p, In p (streams w) -> In p (streams w1)) /\
  (forall s e, In (s, e) (streams w1) -> In (s, e) (streams w) \/ next_stream w <= s) /\
  (forall ev s, In (TaskLoop ev s) ts -> In (TaskLoop ev s) ts') /\
  (forall ev s, In (TaskLoop ev s) ts' -> In (TaskLoop ev s) ts \/
     (next_stream w <= s < next_stream w1 /\ forall e', In (s, e') (streams w1) -> e' = ev)) /\
  tasks w1 = tasks w.
Proof.
  induction ts as [|[ev|ev s0] r IH]; intros w res w1 H Hf; simpl in H.
  - injection H as <- <-. exists []. repeat split; auto; intros; simpl in *; tauto.
  - unfold bind at 1 in H. rewrite add_listener_start_eq in H.
    destruct (PyDict.mem _ _) eqn:Hm.
    + unfold bind in H. destruct (run_starts r w) as [r2 w2] eqn:E2.
      destruct (IH _ _ _ E2 Hf) as (ts' & -> & Hf2 & Hn2 & Hi2 & Ho2 & Hk2 & Hl2 & Ht2).
      injection H as <- <-. exists ts'. repeat split; auto.
      * intros e s [E|Hin]; [discriminate|auto].
      * intros e s Hin. destruct (Hl2 _ _ Hin) as [Hin'|Hn]; [left; right; exact Hin'|right; exact Hn].
    + set (w' := set_listeners _ _) in H. unfold bind in H.
      destruct (run_starts r w') as [r2 w2] eqn:E2.
      assert (Hf' : fresh w').
      { intros s e Hin. simpl in Hin. apply in_app_iff in Hin as [Hin|[E|[]]];
          [apply Hf in Hin; simpl; lia|injection E as <- _; simpl; lia]. }
      destruct (IH _ _ _ E2 Hf') as (ts' & -> & Hf2 & Hn2 & Hi2 & Ho2 & Hk2 & Hl2 & Ht2).
      injection H as <- <-. simpl in Hn2.
      exists (TaskLoop ev (next_stream w) :: ts'). repeat split; auto; try lia.
      * intros p Hp. apply Hi2. simpl. apply in_app_iff. auto.
      * intros s e Hin. destruct (Ho2 _ _ Hin) as [Hin'|Hn]; [|right; simpl in Hn; lia].
        simpl in Hin'. apply in_app_iff in Hin' as [Hin'|[E|[]]]; [left; exact Hin'|].
        injection E as <- _. right. lia.
      * intros e s [E|Hin]; [discriminate|right; auto].
      * intros e s [E|Hin].
        -- injection E as <- <-. right. split; [lia|]. intros e' Hin.
           destruct (Ho2 _ _ Hin) as [Hin'|Hn]; [|simpl in Hn; lia].
           simpl in Hin'. apply in_app_iff in Hin' as [Hin'|[E|[]]]; [apply Hf in Hin'; lia|congruence].
        -- destruct (Hl2 _ _ Hin) as [Hin'|[Hn Hu]]; [left; right; exact Hin'|right; simpl in Hn; split; [lia|exact Hu]].
  - unfold bind in H. destruct (run_starts r w) as [r2 w2] eqn:E2.
    destruct (IH _ _ _ E2 Hf) as (ts' & -> & Hf2 & Hn2 & Hi2 & Ho2 & Hk2 & Hl2 & Ht2).
    injection H as <- <-. exists (TaskLoop ev s0 :: ts'). repeat split; auto.
    + intros e s [E|Hin]; [left; exact E|right; auto].
    + intros e s [E|Hin]; [left; left; exact E|].
      destruct (Hl2 _ _ Hin) as [Hin'|Hn]; [left; right; exact Hin'|right; exact Hn].
Qed.

Lemma in_drop_loop t s ts : In t (drop_loop s ts) -> In t ts.
Proof. unfold drop_loop. rewrite filter_In. tauto. Qed.

(** The checkpoint keeps every loop and every open stream. *)
Lemma checkpoint_loops w :
  fresh w ->
  (forall ev s, In (TaskLoop ev s) (tasks w) -> In (TaskLoop ev s) (tasks (snd (checkpoint w)))) /\
  (forall p, In p (streams w) -> In p (streams (snd (checkpoint w)))).
Proof.
  intros Hf. unfold checkpoint, bind, get. destruct (run_starts (tasks w) w) as [r w1] eqn:E.
  destruct (run_starts_loops _ _ _ _ E Hf) as (ts' & -> & _ & _ & Hi & _ & Hk & _). simpl. auto.
Qed.

Lemma LoopInv_checkpoint w : LoopInv w -> LoopInv (snd (checkpoint w)).
Proof.
  intros [Hf Hl]. unfold checkpoint, bind, get. destruct (run_starts (tasks w) w) as [r w1] eqn:E.
  destruct (run_starts_loops _ _ _ _ E Hf) as (ts' & -> & Hf1 & Hn & Hi & Ho & Hk & Hnew & _).
  split; [exact Hf1|]. intros ev s Hin. simpl in Hin. destruct (Hnew _ _ Hin) as [Hold|Hfresh]; [|simpl; tauto].
  destruct (Hl _ _ Hold) as [Hs Hu]. simpl. split; [lia|].
  intros e' He'. destruct (Ho _ _ He') as [He''|Hge]; [apply Hu, He''|lia].
Qed.

Lemma LoopInv_answer p w : LoopInv w -> LoopInv (snd (answer p w)).
Proof. unfold answer. destruct (chan_execute p (chan w)). intros H. exact H. Qed.

Lemma keeps_loops_conn_execute p : keeps LoopInv (conn_execute p).
Proof.
  intros w r w' H E. rewrite conn_execute_answer in E.
  pose proof (LoopInv_answer p _ (LoopInv_checkpoint _ H)) as H'. rewrite E in H'. exact H'.
Qed.

Lemma keeps_loops_add_start ev : keeps LoopInv (modify (fun w => set_tasks (tasks w ++ [TaskStart ev]) w)).
Proof.
  apply keeps_modify. intros w [Hf Hl]. split; [exact Hf|].
  intros e s Hin. simpl in Hin. apply in_app_iff in Hin as [Hin|[E|[]]]; [apply Hl, Hin|discriminate].
Qed.

Lemma keeps_loops_stream_close s : keeps LoopInv (stream_close s).
Proof.
  apply keeps_modify. intros w [Hf Hl]. split.
  - intros s' e Hin. simpl in *. apply filter_In in Hin as [Hin _]. apply Hf in Hin. exact Hin.
  - intros e s' Hin. simpl in *. destruct (Hl _ _ Hin) as [Hs Hu]. split; [exact Hs|].
    intros e' He'. apply filter_In in He' as [He' _]. apply Hu, He'.
Qed.

Lemma LoopInv_set_tasks_drop s w : LoopInv w -> LoopInv (set_tasks (drop_loop s (tasks w)) w).
Proof.
  intros [Hf Hl]. split; [exact Hf|]. intros e s' Hin. apply Hl, (in_drop_loop _ _ _ Hin).
Qed.

Lemma LoopInv_after_iteration s r w : LoopInv w -> LoopInv (after_iteration s r w).
Proof. intros H. destruct r as [u|[]]; simpl; try exact H; apply LoopInv_set_tasks_drop, H. Qed.

#[local] Hint Resolve keeps_loops_conn_execute keeps_loops_add_start keeps_loops_stream_close : keeps_db.

Lemma keeps_loops_getitem k : keeps LoopInv (intercepts_getitem k).
Proof. unfold intercepts_getitem. keeps_auto. Qed.
#[local] Hint Resolve keeps_loops_getitem : keeps_db.

Lemma keeps_loops_remove_listener n : keeps LoopInv (remove_listener n).
Proof. unfold remove_listener. keeps_auto. Qed.
#[local] Hint Resolve keeps_loops_remove_listener : keeps_db.

Lemma keeps_loops_remove_intercept k : keeps LoopInv (remove_intercept k).
Proof. unfold remove_intercept, Schema.remove_intercept, Schema.run_command. keeps_auto. Qed.
#[local] Hint Resolve keeps_loops_remove_intercept : keeps_db.

Lemma keeps_loops_clear_loop fuel n i : keeps LoopInv (clear_loop fuel n i).
Proof. revert i; induction fuel; intros; simpl; keeps_auto. Qed.
#[local] Hint Resolve keeps_loops_clear_loop : keeps_db.

Lemma keeps_loops_run_call c : keeps LoopInv (run_call c).
Proof.
  destruct c; simpl; unfold add_request_handler, add_handler, Schema.add_intercept, Schema.run_command,
    set_intercept, clear_intercepts, network_get, disable_cache; keeps_auto.
Qed.


Lemma keeps_loops_handle_loop ids request : keeps LoopInv (handle_loop ids request).
Proof. revert request; induction ids; intros; simpl; keeps_auto. Qed.
#[local] Hint Resolve keeps_loops_handle_loop : keeps_db.

Lemma keeps_loops_listener_iteration ev_obj : keeps LoopInv (listener_iteration ev_obj).
Proof.
  unfold listener_iteration, handle_events, handle_requests, Schema.continue_request, Schema.run_command.
  keeps_auto.
Qed.

(** In every reachable world each loop task iterates the stream opened
    for its event, and stream ids are fresh. *)
Lemma reachable_LoopInv w : reachable w -> LoopInv w.
Proof.
  induction 1 as [c d|w w' _ IH Hs].
  - split; intros ? ? [].
  - destruct Hs as [c w r w' Hc Hr|w Hc|ev s json ev_obj w r w' Hc Ht Hss Hd Hl|ev s w Hc Ht Hss].
    + eapply keeps_loops_run_call; eauto.
    + apply LoopInv_checkpoint, IH.
    + apply LoopInv_after_iteration. eapply keeps_loops_listener_iteration; eauto.
    + apply LoopInv_set_tasks_drop, IH.
Qed.

End Loops.

(** ** The nursery's own steps *)

(** Any number of steps of the nursery's tasks, with no call. *)
Inductive env_star `{CH : Channel} : World -> World -> Prop :=
| env_refl w : env_star w w
| env_cons w1 w2 w3 : estep w1 w2 -> env_star w2 w3 -> env_star w1 w3.

Section Nursery.
Context `{CH : Channel}.
Local Notation M := (PyM World).
Implicit Types (w : World).

(** The handlers of an entry never raise [ClosedResourceError]. *)
Definition entry_ok (e : entry) : Prop := forall h, In h (handlers e) -> forall x, no_closed (h x).

Definition handlers_ok w : Prop := forall e, In e (PyDict.values (intercepts (net w))) -> entry_ok e.

(** A loop task iterating an open stream: the nursery's exit waits for it. *)
Definition loop_live w : Prop := exists ev s, In (TaskLoop ev s) (tasks w) /\ In (s, ev) (streams w).

Definition continues (ps : list pyval) : Prop :=
  Forall (fun p => payload_method p = Some "network.continueRequest") ps.

Variables (ev0 : string) (tr : list pyval).

(** What the nursery's steps keep: the loop structure, handlers that do
    not raise [ClosedResourceError], a live loop, the rule for [ev0], and
    a trace that only grew by [continueRequest] commands. *)
Definition NInv w : Prop :=
  LoopInv w /\ handlers_ok w /\ loop_live w /\ has_rule w ev0 /\
  exists ps, sent w = tr ++ ps /\ continues ps.

(** A segment keeps [NInv] and raises no [ClosedResourceError]. *)
Definition good {A} (c : M A) : Prop :=
  forall w r w', NInv w -> c w = (r, w') -> NInv w' /\ no_closed r.

Lemma good_bind {A B} (c : M A) (k : A -> M B) :
  good c -> (forall a, good (k a)) -> good (bind c k).
Proof.
  intros Hc Hk w r w' HN H. unfold bind in H. destruct (c w) as [[a|e] w1] eqn:E.
  - destruct (Hc _ _ _ HN E) as [HN1 _]. exact (Hk a _ _ _ HN1 H).
  - injection H as <- <-. exact (Hc _ _ _ HN E).
Qed.

Lemma good_lift {A} (x : res A) : no_closed x -> good (lift x).
Proof. intros Hx w r w' HN H. injection H as <- <-. auto. Qed.

Lemma good_ret {A} (a : A) : good (ret a).
Proof. intros w r w' HN H. injection H as <- <-. split; [exact HN|exact I]. Qed.

Lemma NInv_checkpoint w : NInv w -> NInv (snd (checkpoint w)).
Proof.
  intros (HL & Hh & (ev & s & Ht & Hs) & Hr & Htr).
  destruct (checkpoint_loops w (proj1 HL)) as [Hkt Hks].
  assert (Hf : intercepts (net (snd (checkpoint w))) = intercepts (net w) /\
               sent (snd (checkpoint w)) = sent w).
  { unfold checkpoint, bind, get. destruct (run_starts (tasks w) w) as [r1 w1] eqn:E1.
    destruct (run_starts_frame _ _ _ _ E1) as [[ts ->] (Hi & _ & Hse & _)]. simpl. auto. }
  destruct Hf as [Hi Hse]. unfold NInv, handlers_ok, has_rule. rewrite Hi, Hse.
  split; [apply LoopInv_checkpoint, HL|]. split; [exact Hh|].
  split; [exists ev, s; auto|]. split; [exact Hr|exact Htr].
Qed.

(** A lookup in the [defaultdict]: the entry found, or the placeholder it
    inserts. *)
Lemma good_getitem_bind {B} key (k : entry -> M B) :
  (forall e, entry_ok e -> good (k e)) -> good (bind (intercepts_getitem key) k).
Proof.
  intros Hk w r w' HN H. unfold intercepts_getitem in H. autorewrite with pym in H.
  destruct (PyDict.get (intercepts (net w)) key) as [e|] eqn:G; autorewrite with pym in H.
  - refine (Hk e _ _ _ _ HN H). apply (proj1 (proj2 HN)).
    apply PyDictFacts.in_values_keys. exists key. apply PyDictFacts.get_In, G.
  - refine (Hk default_entry (fun h Hh => match Hh with end) _ _ _ _ H).
    assert (Hn : ~ In key (PyDict.keys (intercepts (net w))))
      by (intros Hin; apply PyDictFacts.in_keys_get in Hin as [v Hv]; congruence).
    destruct HN as (HL & Hh & Hlv & Hr & Htr). split; [exact HL|].
    split; [intros e He; simpl in He; apply PyDictFacts.in_values_set in He as [->|He]; [intros h []|apply Hh, He]|].
    split; [exact Hlv|]. split; [|exact Htr].
    unfold has_rule in *. simpl. rewrite PyDictFacts.values_set_notin by exact Hn.
    rewrite map_app, in_app_iff. left. exact Hr.
Qed.

Lemma good_handle_loop ids request : good (handle_loop ids request).
Proof.
  revert request; induction ids as [|i r IH]; intros request; simpl; [apply good_ret|].
  apply good_bind; [apply good_lift, as_key_no_closed|intros key].
  apply good_getitem_bind. intros e He.
  apply good_bind; [apply good_lift, run_handlers_no_closed, He|intros; apply IH].
Qed.

Hypothesis chan_no_closed : forall p s, no_closed (fst (chan_execute p s)).

Lemma good_continue_request params : good (Schema.continue_request conn_execute params).
Proof.
  intros w r w' HN H. unfold Schema.continue_request, Schema.run_command in H.
  autorewrite with schema_rw pym in H. rewrite conn_execute_answer in H.
  pose proof (NInv_checkpoint w HN) as HN1. set (w1 := snd (checkpoint w)) in *.
  unfold answer in H. destruct (chan_execute _ (chan w1)) as [r2 c2] eqn:Ec.
  injection H as <- <-. split; [|pose proof (chan_no_closed
    (Bidi.cmd (VObj "ContinueRequest" [("params", params); ("method", VStr "network.continueRequest")])) (chan w1)) as Hc;
    rewrite Ec in Hc; exact Hc].
  destruct HN1 as (HL & Hh & Hlv & Hr & ps & Hs & Hps).
  split; [exact HL|]. split; [exact Hh|]. split; [exact Hlv|]. split; [exact Hr|].
  exists (ps ++ [Bidi.cmd (VObj "ContinueRequest" [("params", params); ("method", VStr "network.continueRequest")])]).
  simpl. rewrite Hs, app_assoc. split; [reflexivity|]. apply Forall_app. split; [exact Hps|].
  constructor; [|constructor]. destruct params; reflexivity.
Qed.

Lemma good_listener_iteration ev_obj : good (listener_iteration ev_obj).
Proof.
  unfold listener_iteration, handle_events, handle_requests.
  apply good_bind; [apply good_lift, getattr_no_closed|intros rd].
  apply good_bind; [apply good_lift, getattr_no_closed|intros b].
  destruct (truthy b); [|apply good_ret]. destruct (isinstance rd _); [|apply good_ret].
  apply good_bind; [|intros json].
  - apply good_bind; [apply good_lift, getattr_no_closed|intros req].
    apply good_bind; [apply good_lift, getattr_no_closed|intros iv].
    apply good_bind; [apply good_lift, py_iter_no_closed|intros ids]. apply good_handle_loop.
  - apply good_bind; [apply good_lift, dc_init_kw_no_closed|intros params].
    apply good_bind; [apply good_continue_request|intros; apply good_ret].
Qed.

Lemma NInv_drop_loop ev s w :
  NInv w -> In (TaskLoop ev s) (tasks w) -> ~ In (s, ev) (streams w) ->
  NInv (set_tasks (drop_loop s (tasks w)) w).
Proof.
  intros (HL & Hh & (ev1 & s1 & Ht1 & Hs1) & Hr & Htr) Ht Hs.
  split; [apply LoopInv_set_tasks_drop, HL|]. split; [exact Hh|].
  split; [|split; [exact Hr|exact Htr]].
  exists ev1, s1. split; [|exact Hs1]. simpl. unfold drop_loop. apply filter_In. split; [exact Ht1|].
  destruct (Nat.eqb_spec s s1) as [<-|Hne]; [|reflexivity].
  destruct ((proj2 HL) _ _ Ht) as [_ Hu]. rewrite (Hu _ Hs1) in Hs1. contradiction.
Qed.

(** A step of the nursery keeps [NInv], unless it crashes the session. *)
Lemma estep_NInv w w' : estep w w' -> NInv w -> crashed w' = None -> NInv w'.
Proof.
  intros Hs HN Hc. destruct Hs as [w Hc0|ev s json ev_obj w r w1 Hc0 Ht Hss Hd Hl|ev s w Hc0 Ht Hss].
  - apply NInv_checkpoint, HN.
  - destruct (good_listener_iteration _ _ _ _ HN Hl) as [HN1 Hr].
    destruct r as [u|[]]; simpl in *; try discriminate; [exact HN1|contradiction].
  - eapply NInv_drop_loop; eauto.
Qed.

Lemma env_star_crashed w w' e : crashed w = Some e -> env_star w w' -> w' = w.
Proof. intros Hc Hs. destruct Hs as [|w1 w2 w3 Hs _]; [reflexivity|]. destruct Hs; congruence. Qed.

Lemma env_star_NInv w w' : env_star w w' -> NInv w -> crashed w' = None -> NInv w'.
Proof.
  induction 1 as [w|w1 w2 w3 Hs Hr IH]; intros HN Hc; [exact HN|].
  destruct (crashed w2) as [e|] eqn:Hc2.
  - rewrite (env_star_crashed _ _ _ Hc2 Hr) in Hc. congruence.
  - apply IH; [eapply estep_NInv; eauto|exact Hc].
Qed.

End Nursery.

(** ** The exit of [set_context] *)

Section Exit.
Context `{CH : Channel}.

(** C31: from a reachable world where a listening loop iterates an open
    stream, as long as the session does not crash, no sequence of the
    nursery's own steps finishes every task: [async with
    trio.open_nursery()] cannot exit at the end of the caller's block.
    Along these steps the rule for [e] stays and only [continueRequest]
    commands are sent, never a [removeIntercept] or [session.unsubscribe].
    This holds for a connection and handlers that never raise
    [ClosedResourceError].  Only the caller's [remove_intercept] closes the
    stream; the specification's scoped session tears rules down on exit. *)
Theorem nursery_waits w w' e :
  (forall p s, no_closed (fst (chan_execute p s))) ->
  reachable w -> handlers_ok w -> loop_live w -> has_rule w e ->
  env_star w w' -> crashed w' = None ->
  tasks w' <> [] /\ has_rule w' e /\ exists ps, sent w' = sent w ++ ps /\ continues ps.
Proof.
  intros Hch Hr Hh Hl He Hs Hc.
  assert (HN : NInv e (sent w) w).
  { split; [apply reachable_LoopInv, Hr|]. split; [exact Hh|]. split; [exact Hl|].
    split; [exact He|]. exists []. rewrite app_nil_r. split; [reflexivity|constructor]. }
  destruct (env_star_NInv e (sent w) Hch w w' Hs HN Hc) as (_ & _ & (ev & s & Ht & _) & Hr' & Htr).
  split; [intros E; rewrite E in Ht; destruct Ht|]. split; assumption.
Qed.

(** Loops whose streams are all closed end one after the other, sending
    nothing. *)
Lemma closed_loops_end n : forall w,
  length (tasks w) <= n -> starts (tasks w) = [] -> crashed w = None -> streams w = [] ->
  exists w', env_star w w' /\ tasks w' = [] /\ crashed w' = None /\ sent w' = sent w.
Proof.
  induction n as [|n IH]; intros w Hn Hs Hc Hst.
  - destruct (tasks w) eqn:Ht; [|simpl in Hn; lia]. exists w. split; [constructor|auto].
  - destruct (tasks w) as [|[ev|ev s] r] eqn:Ht; [exists w; split; [constructor|auto]|discriminate|].
    assert (Hstep : estep w (set_tasks (drop_loop s (tasks w)) w)).
    { apply (estep_closed ev s); [exact Hc|rewrite Ht; left; reflexivity|rewrite Hst; intros []]. }
    destruct (IH (set_tasks (drop_loop s (tasks w)) w)) as (w' & Hw' & Ht' & Hc' & Hs');
      cbn [tasks crashed streams set_tasks]; rewrite ?Ht.
    + replace (drop_loop s (TaskLoop ev s :: r)) with (drop_loop s r)
        by (unfold drop_loop; simpl; rewrite Nat.eqb_refl; reflexivity).
      pose proof (filter_length_le
        (fun t => match t with TaskLoop _ s' => negb (Nat.eqb s s') | TaskStart _ => true end) r).
      unfold drop_loop. simpl in Hn. lia.
    + rewrite starts_drop_loop. exact Hs.
    + exact Hc.
    + exact Hst.
    + exists w'. split; [exact (env_cons _ _ _ Hstep Hw')|auto].
Qed.

(** C34: the way out of C31: once the caller has removed every rule and
    the nursery has run its pending starts, the nursery's own steps can
    finish every task (each loop finds its stream closed by
    [remove_listener] and ends) without sending anything, so the block of
    [async with trio.open_nursery()] can exit. *)
Theorem nursery_exits w :
  reachable w -> crashed w = None -> starts (tasks w) = [] -> (forall e, ~ has_rule w e) ->
  exists w', env_star w w' /\ tasks w' = [] /\ crashed w' = None /\ sent w' = sent w.
Proof.
  intros Hr Hc Hs Hnr. pose proof (reachable_Inv _ Hr) as HI.
  assert (Hst : streams w = []).
  { destruct (streams w) as [|[s e] r] eqn:E; [reflexivity|exfalso].
    assert (Hin : In (e, s) (listeners (net w))) by (apply (li_streams _ (inv_lis _ _ HI)); rewrite E; left; reflexivity).
    assert (Hk : In e (lkeys w)) by (apply (in_map fst) in Hin; exact Hin).
    destruct (inv_lis_rule _ _ HI e Hk) as [H|H]; [discriminate|exact (Hnr e H)]. }
  exact (closed_loops_end (length (tasks w)) w (le_n _) Hs Hc Hst).
Qed.

End Exit.

(** ** On the reference remote end *)

Section Witness.
#[local] Existing Instance RefBrowserChannel.

Lemma ref_no_closed p s : no_closed (fst (chan_execute p s)).
Proof.
  simpl. unfold RefBrowser.execute. destruct (payload_method p) as [m|]; [|exact I].
  repeat (match goal with |- context [match ?x with _ => _ end] => destruct x end); exact I.
Qed.

Lemma redirect_handler_no_closed x : no_closed (redirect_handler x).
Proof. unfold redirect_handler, getitem. destruct x as [| | | | |d|]; try exact I. destruct (PyDict.get d "request"); exact I. Qed.

(** The test's first rule, its listening loop started. *)
Definition td_w : World := snd (checkpoint sc1).

Definition td_event : pyval := blocked "r1" "u1" ["intercept-0"].

Definition td_event_obj : pyval :=
  match Schema.decode_before_request_sent td_event with Ok v => v | Exc _ => VNone end.

(** The turn of the loop that continues the blocked request. *)
Definition td_w' : World :=
  after_iteration 0 (fst (listener_iteration td_event_obj td_w)) (snd (listener_iteration td_event_obj td_w)).

Lemma td_w_reachable : reachable td_w.
Proof.
  eapply reach_step; [|apply step_run_starts; reflexivity].
  eapply reach_step; [apply reach_init|]. eapply step_call; [reflexivity|apply surjective_pairing].
Qed.

Lemma td_w_handlers : handlers_ok td_w.
Proof.
  assert (E : PyDict.values (intercepts (net td_w)) =
              [mk_entry (Some Schema.BeforeRequestSent_event_class) [redirect_handler]])
    by (vm_compute; reflexivity).
  intros en Hen. rewrite E in Hen. destruct Hen as [<-|[]].
  intros h [<-|[]] x. apply redirect_handler_no_closed.
Qed.

Lemma td_step : env_star td_w td_w'.
Proof.
  eapply env_cons; [|apply env_refl].
  eapply (estep_event Schema.BeforeRequestSent_event_class 0 td_event td_event_obj);
    [vm_compute; reflexivity|vm_compute; tauto|vm_compute; tauto|vm_compute; reflexivity|apply surjective_pairing].
Qed.

Lemma nursery_waits_witness :
  tasks td_w' <> [] /\ has_rule td_w' Schema.BeforeRequestSent_event_class /\
  exists ps, sent td_w' = sent td_w ++ ps /\ continues ps.
Proof.
  apply (nursery_waits td_w td_w' Schema.BeforeRequestSent_event_class).
  - exact ref_no_closed.
  - exact td_w_reachable.
  - exact td_w_handlers.
  - exists Schema.BeforeRequestSent_event_class, 0. vm_compute. tauto.
  - vm_compute. tauto.
  - exact td_step.
  - vm_compute. reflexivity.
Defined.

(** Both rules of the test removed: the loop's stream is closed, the loop
    task is still there. *)
Lemma sc4_reachable : reachable sc4.
Proof.
  apply (reach_step sc3); [|eapply step_call; [vm_compute; reflexivity|apply surjective_pairing]].
  apply (reach_step sc2); [|eapply step_call; [vm_compute; reflexivity|apply surjective_pairing]].
  apply (reach_step sc1); [|eapply step_call; [vm_compute; reflexivity|apply surjective_pairing]].
  apply (reach_step wit_w0); [apply reach_init|eapply step_call; [reflexivity|apply surjective_pairing]].
Qed.

Lemma nursery_exits_witness :
  tasks sc4 <> [] /\
  exists w', env_star sc4 w' /\ tasks w' = [] /\ crashed w' = None /\ sent w' = sent sc4.
Proof.
  split; [vm_compute; discriminate|].
  apply (nursery_exits sc4); [exact sc4_reachable|vm_compute; reflexivity|vm_compute; reflexivity|].
  intros e H. vm_compute in H. destruct H.
Defined.

End Witness.

(** ** A loop ended by [ClosedResourceError] leaves its listener behind *)

(** The calls that can remove a rule, and with it a listener. *)
Definition removes (c : call) : bool :=
  match c with
  | CallRemoveIntercept _ | CallClearIntercepts => true
  | _ => false
  end.

(** Runs of the session in which the caller makes no call that removes a
    rule: it adds rules, navigates, disables the cache; the nursery runs
    its starts and its loops' turns, and loops whose stream closed end. *)
Inductive no_removal_run `{CH : Channel} : World -> World -> Prop :=
| nr_refl w : no_removal_run w w
| nr_call c w r w1 w2 :
    crashed w = None -> removes c = false -> run_call c w = (r, w1) ->
    no_removal_run w1 w2 -> no_removal_run w w2
| nr_env w w1 w2 : estep w w1 -> no_removal_run w1 w2 -> no_removal_run w w2.

Section Orphaned.
Context `{CH : Channel}.
Implicit Types (w : World).
Variables (ev : string) (s : nat) (T : list task).

(** The event keeps its listener entry [s] with the stream open, and the
    loop tasks on [s] are among [T]. *)
Definition Held w : Prop :=
  LoopInv w /\ PyDict.get (listeners (net w)) ev = Some s /\ In (s, ev) (streams w) /\
  (In (TaskLoop ev s) (tasks w) -> In (TaskLoop ev s) T).

(** The nursery's starts never replace a registered listener. *)
Lemma run_starts_get ts : forall w r w1,
  run_starts ts w = (r, w1) -> PyDict.get (listeners (net w)) ev = Some s ->
  PyDict.get (listeners (net w1)) ev = Some s.
Proof.
  induction ts as [|[ev'|ev' s'] r IH]; intros w res w1 H Hg; simpl in H.
  - injection H as _ <-. exact Hg.
  - unfold bind at 1 in H. rewrite add_listener_start_eq in H.
    destruct (PyDict.mem (listeners (net w)) ev') eqn:Hm; unfold bind in H.
    + destruct (run_starts r w) as [r2 w2] eqn:E2. destruct r2; injection H as _ <-; exact (IH _ _ _ E2 Hg).
    + destruct (run_starts r _) as [r2 w2] eqn:E2. destruct r2; injection H as _ <-; apply (IH _ _ _ E2).
      all: simpl; rewrite PyDictFacts.get_set_ne; [exact Hg|]; intros ->;
        unfold PyDict.mem in Hm; rewrite Hg in Hm; discriminate.
  - unfold bind at 1 in H. destruct (run_starts r w) as [r2 w2] eqn:E2.
    destruct r2; injection H as _ <-; exact (IH _ _ _ E2 Hg).
Qed.

Lemma Held_checkpoint w : Held w -> Held (snd (checkpoint w)).
Proof.
  intros (HL & Hg & Hs & Ht). split; [apply LoopInv_checkpoint, HL|].
  destruct HL as [Hf _]. unfold checkpoint, bind, get. destruct (run_starts (tasks w) w) as [r w1] eqn:E.
  destruct (run_starts_loops _ _ _ _ E Hf) as (ts' & -> & _ & _ & Hi & _ & _ & Hnew & _). simpl.
  split; [exact (run_starts_get _ _ _ _ E Hg)|]. split; [apply Hi, Hs|].
  intros Hin. destruct (Hnew _ _ Hin) as [Hold|[Hge _]]; [apply Ht, Hold|]. apply Hf in Hs. lia.
Qed.

Lemma Held_drop s' w : Held w -> Held (set_tasks (drop_loop s' (tasks w)) w).
Proof.
  intros (HL & Hg & Hs & Ht). split; [apply LoopInv_set_tasks_drop, HL|].
  split; [exact Hg|]. split; [exact Hs|]. intros Hin. apply Ht, (in_drop_loop _ _ _ Hin).
Qed.

Lemma Held_after_iteration s' r w : Held w -> Held (after_iteration s' r w).
Proof. intros H. destruct r as [u|[]]; simpl; try exact H; apply Held_drop, H. Qed.

Lemma keeps_held_conn_execute p : keeps Held (conn_execute p).
Proof.
  intros w r w' H E. rewrite conn_execute_answer in E.
  pose proof (Held_checkpoint _ H) as H'. unfold answer in E.
  destruct (chan_execute p (chan (snd (checkpoint w)))). injection E as _ <-. exact H'.
Qed.

Lemma keeps_held_add_start ev' : keeps Held (modify (fun w => set_tasks (tasks w ++ [TaskStart ev']) w)).
Proof.
  apply keeps_modify. intros w (HL & Hg & Hs & Ht). split; [|split; [exact Hg|split; [exact Hs|]]].
  - exact (keeps_loops_add_start ev' w (Ok tt) _ HL eq_refl).
  - simpl. rewrite in_app_iff. intros [Hin|[E|[]]]; [exact (Ht Hin)|discriminate].
Qed.

#[local] Hint Resolve keeps_held_conn_execute keeps_held_add_start : keeps_db.

Lemma keeps_held_getitem k : keeps Held (intercepts_getitem k).
Proof. unfold intercepts_getitem. keeps_auto. Qed.
#[local] Hint Resolve keeps_held_getitem : keeps_db.

Lemma keeps_held_handle_loop ids request : keeps Held (handle_loop ids request).
Proof. revert request; induction ids; intros; simpl; keeps_auto. Qed.
#[local] Hint Resolve keeps_held_handle_loop : keeps_db.

Lemma keeps_held_listener_iteration ev_obj : keeps Held (listener_iteration ev_obj).
Proof.
  unfold listener_iteration, handle_events, handle_requests, Schema.continue_request, Schema.run_command.
  keeps_auto.
Qed.

Lemma keeps_held_run_call c : removes c = false -> keeps Held (run_call c).
Proof.
  destruct c; simpl; intros Hr; try discriminate;
    unfold add_request_handler, add_handler, Schema.add_intercept, Schema.run_command,
      set_intercept, network_get, disable_cache; keeps_auto.
Qed.

Lemma estep_held w w' : estep w w' -> Held w -> Held w'.
Proof.
  destruct 1 as [w Hc|ev' s' json ev_obj w r w' Hc Ht Hss Hd Hl|ev' s' w Hc Ht Hss]; intros H.
  - apply Held_checkpoint, H.
  - apply Held_after_iteration. exact (keeps_held_listener_iteration _ _ _ _ H Hl).
  - apply Held_drop, H.
Qed.

Lemma no_removal_run_held w w' : no_removal_run w w' -> Held w -> Held w'.
Proof.
  induction 1 as [w|c w r w1 w2 Hc Hrm E _ IH|w w1 w2 Hs _ IH]; intros H; [exact H| |].
  - apply IH. exact (keeps_held_run_call c Hrm _ _ _ H E).
  - apply IH. exact (estep_held _ _ Hs H).
Qed.

End Orphaned.

Lemma no_removal_run_reachable `{CH : Channel} w w' : no_removal_run w w' -> reachable w -> reachable w'.
Proof.
  induction 1 as [w|c w r w1 w2 Hc Hrm E _ IH|w w1 w2 Hs _ IH]; intros H; [exact H| |].
  - apply IH. eapply reach_step; [exact H|]. eapply step_call; eauto.
  - apply IH. eapply reach_step; [exact H|]. apply estep_step, Hs.
Qed.

Section OrphanClaim.
Context `{CH : Channel}.

(** C32: when a turn of a listening loop raises [ClosedResourceError]
    (for instance from its [continueRequest]), [add_listener]'s [except]
    ends the loop but leaves [self.listeners[event_name]] in place with
    its stream open.  From then on, along every run of the session in
    which the caller removes no rule (whatever rules it adds, whatever
    events the other loops handle), the event keeps that listener and
    that open stream, and no loop iterates an open stream of the event:
    [add_listener] returns at once for every new rule (lines 62-63), so
    the requests the remote end blocks for the event are never continued
    (spec §5: a failed continuation must not stop the dispatcher). *)
Theorem orphaned_listener w ev s json ev_obj w1 w' :
  reachable w -> crashed w = None -> In (TaskLoop ev s) (tasks w) -> In (s, ev) (streams w) ->
  Schema.decode_before_request_sent json = Ok ev_obj ->
  listener_iteration ev_obj w = (Exc ClosedResourceError, w1) ->
  no_removal_run (after_iteration s (Exc ClosedResourceError) w1) w' ->
  reachable w' /\ PyDict.get (listeners (net w')) ev = Some s /\ In (s, ev) (streams w') /\
  (forall s', In (TaskLoop ev s') (tasks w') -> ~ In (s', ev) (streams w')).
Proof.
  intros Hr Hc Ht Hs Hd Hl Hrun.
  pose proof (inv_lis _ _ (reachable_Inv _ Hr)) as HLw.
  assert (Hg : PyDict.get (listeners (net w)) ev = Some s)
    by (apply PyDictFacts.In_get; [exact (li_wf _ HLw)|apply (li_streams _ HLw), Hs]).
  assert (H1 : Held ev s (tasks w) w1).
  { apply (keeps_held_listener_iteration ev s (tasks w) ev_obj w (Exc ClosedResourceError) w1); [|exact Hl].
    split; [exact (reachable_LoopInv _ Hr)|]. split; [exact Hg|]. split; [exact Hs|]. auto. }
  assert (H2 : Held ev s [] (after_iteration s (Exc ClosedResourceError) w1)).
  { destruct H1 as (HL1 & Hg1 & Hs1 & _). split; [apply LoopInv_set_tasks_drop, HL1|].
    split; [exact Hg1|]. split; [exact Hs1|]. intros Hin. apply filter_In in Hin as [_ Hin].
    simpl in Hin. rewrite Nat.eqb_refl in Hin. discriminate. }
  assert (Hr' : reachable w').
  { apply (no_removal_run_reachable _ _ Hrun). eapply reach_step; [exact Hr|]. eapply step_event; eauto. }
  destruct (no_removal_run_held _ _ _ _ _ Hrun H2) as (_ & Hg' & Hs' & Ht').
  split; [exact Hr'|]. split; [exact Hg'|]. split; [exact Hs'|].
  intros s' Hin Hopen. pose proof (inv_lis _ _ (reachable_Inv _ Hr')) as HL'.
  apply (li_streams _ HL') in Hopen. apply (PyDictFacts.In_get _ _ _ (li_wf _ HL')) in Hopen.
  rewrite Hg' in Hopen. injection Hopen as ->. exact (Ht' Hin).
Qed.

End OrphanClaim.

(** The reference remote end, except that the connection is closed when
    a [continueRequest] is sent: [conn.execute] raises
    [ClosedResourceError]. *)
Definition ClosingRemote : Channel := {|
  chan_state := RefBrowser.state;
  chan_execute := fun p s =>
    match payload_method p with
    | Some "network.continueRequest" => (Exc ClosedResourceError, s)
    | _ => RefBrowser.execute p s
    end
|}.

Section Orphan.
#[local] Existing Instance ClosingRemote.

(** The test's first rule and its loop; the blocked request whose
    continuation raises [ClosedResourceError]; then the test's second
    rule, and the nursery running its start. *)
Definition ow : World :=
  snd (checkpoint (snd (run_call (CallAddRequestHandler redirect_handler (url_pattern "u1"))
                          (init_world RefBrowser.initial wit_driver)))).
Definition o_json : pyval := blocked "r1" "u1" ["intercept-0"].
Definition o_ev : pyval := match Schema.decode_before_request_sent o_json with Ok v => v | Exc _ => VNone end.
Definition ow1 : World := snd (listener_iteration o_ev ow).
Definition o_call : call := CallAddRequestHandler redirect_handler (url_pattern "u2").
Definition ow2 : World := snd (run_call o_call (after_iteration 0 (Exc ClosedResourceError) ow1)).

Lemma ow_reachable : reachable ow.
Proof.
  eapply reach_step; [|apply step_run_starts; vm_compute; reflexivity].
  eapply reach_step; [apply reach_init|]. eapply step_call; [|apply surjective_pairing]. vm_compute; reflexivity.
Qed.

Lemma orphaned_listener_witness :
  reachable (snd (checkpoint ow2)) /\
  PyDict.get (listeners (net (snd (checkpoint ow2)))) Schema.BeforeRequestSent_event_class = Some 0 /\
  In (0, Schema.BeforeRequestSent_event_class) (streams (snd (checkpoint ow2))) /\
  (forall s', In (TaskLoop Schema.BeforeRequestSent_event_class s') (tasks (snd (checkpoint ow2))) ->
              ~ In (s', Schema.BeforeRequestSent_event_class) (streams (snd (checkpoint ow2)))).
Proof.
  apply (orphaned_listener ow Schema.BeforeRequestSent_event_class 0 o_json o_ev ow1).
  - exact ow_reachable.
  - vm_compute. reflexivity.
  - vm_compute. left. reflexivity.
  - vm_compute. left. reflexivity.
  - vm_compute. reflexivity.
  - assert (E : fst (listener_iteration o_ev ow) = Exc ClosedResourceError) by (vm_compute; reflexivity).
    rewrite <- E. apply surjective_pairing.
  - apply (nr_call o_call _ (fst (run_call o_call (after_iteration 0 (Exc ClosedResourceError) ow1))) ow2);
      [vm_compute; reflexivity|reflexivity|apply surjective_pairing|].
    apply (nr_env _ (snd (checkpoint ow2))); [apply estep_run_starts; vm_compute; reflexivity|apply nr_refl].
Defined.

End Orphan.

End Teardown.
