(* ===== verification/Listeners.v ===== *)
(** The listening loops with their own await point.

    A turn of the [async for] loop of [add_listener] (remote/network.py,
    lines 66-69) runs [handle_events] (lines 92-96), which awaits
    [self.bidi_network.continue_request(params)].  [Await] keeps that turn
    atomic; here it is the await tree [a_listener_iteration], and the
    session [fstep] on [FConfig] keeps, beside the caller's suspended call,
    the suspended turn of every loop (one per stream, as an [async for]
    handles one event at a time): the caller, the loops' turns, new events,
    the nursery's starts and the end of loops interleave in any order.

    [listener_turn_equiv]: run with nothing in between, the turn is the
    atomic [listener_iteration].  The turn's only await is its last
    statement: the rest of a suspended turn returns at once and leaves the
    world as it finds it ([one_shot]).  [full_interleaving_invariant]
    (C33): the registry invariant holds in every configuration of this
    session, no listener start is pending while the caller is suspended,
    and no loop has two turns in flight.  [atomic_turns_interleave]: every
    configuration of [Await]'s session (turns atomic) is one of this
    session with no turn in flight. *)

From Stdlib Require Import String List Bool Arith Lia.
From S2P Require Import Prelude PyValue Bidi NetworkSchema Channel Intercepts InterceptsInv InterceptsSpec TestScenario Await.
Import ListNotations.
Import Intercepts InterceptsInv InterceptsSpec TestScenario Await.
Local Open Scope string_scope.
Local Open Scope list_scope.

Module Listeners.

Section Turn.
Context `{CH : Channel}.
Local Notation M := (PyM World).

(** [handle_events(event_params)], lines 92-96, with the await of
    [continue_request]. *)
Definition a_handle_events (event_params : pyval) : Async unit :=
  if isinstance event_params "BeforeRequestSentParameters" then
    json <-- alift (handle_requests event_params) ;;;
    params <-- alift (lift (dc_init_kw Schema.ContinueRequestParameters json)) ;;;
    _ <-- a_run_command Schema.ContinueRequest params ;;;
    aret tt
  else aret tt.

(** One turn of the [async for] of [add_listener], lines 67-69. *)
Definition a_listener_iteration (ev_obj : pyval) : Async unit :=
  request_data <-- alift (lift (getattr ev_obj "params")) ;;;
  blocked <-- alift (lift (getattr request_data "isBlocked")) ;;;
  if truthy blocked then a_handle_events request_data else aret tt.

Lemma arefines_listener_iteration ev_obj : arefines (a_listener_iteration ev_obj) (listener_iteration ev_obj).
Proof.
  unfold a_listener_iteration, listener_iteration, a_handle_events, handle_events,
    Schema.continue_request. arefine.
Qed.

(** A suspended call whose rest returns at once, leaving the world. *)
Definition one_shot_cont (k : res pyval -> World -> Aw unit) : Prop :=
  forall r w, exists r', k r w = AwRet r' w.

Definition one_shot (m : Aw unit) : Prop :=
  match m with AwRet _ _ => True | AwExec _ _ k => one_shot_cont k end.

Lemma one_shot_listener_iteration ev_obj w : one_shot (a_listener_iteration ev_obj w).
Proof.
  unfold a_listener_iteration, a_handle_events, a_run_command, abind, alift, aret, aexec, lift.
  cbn -[handle_requests]. destruct (getattr ev_obj "params") as [rd|e]; [|exact I]. cbn -[handle_requests].
  destruct (getattr rd "isBlocked") as [b|e]; [|exact I]. cbn -[handle_requests].
  destruct (truthy b); [|exact I]. destruct (isinstance rd _); [|exact I].
  destruct (handle_requests rd w) as [[json|e] w1]; [|exact I]. cbn.
  destruct (dc_init_kw _ json) as [p|e]; [|exact I]. cbn.
  intros [a|e] w'; eexists; reflexivity.
Qed.

End Turn.

(** ** The session with the caller and the loops suspended *)

Section Full.
Context `{CH : Channel}.
Implicit Types (w : World).

(** A loop's turn suspended on its [continueRequest], by stream id. *)
Definition turn : Type := (nat * (res pyval * (res pyval -> World -> Aw unit)))%type.

Record FConfig : Type := mk_fcfg {
  fw : World;
  fcaller : option (res pyval * (res pyval -> World -> Aw unit));
  fturns : list turn
}.

(** Stream [s] has a turn in flight: its loop takes no other event. *)
Definition turn_busy (s : nat) (ts : list turn) : bool := existsb (fun t => Nat.eqb (fst t) s) ts.

Definition turn_remove (s : nat) (ts : list turn) : list turn := filter (fun t => negb (Nat.eqb (fst t) s)) ts.

(** A turn runs to its await, or to its end, where the loop's [except]
    decides what its outcome does ([after_iteration]). *)
Definition settle_turn (s : nat) (m : Aw unit) (ts : list turn) : World * list turn :=
  match m with
  | AwRet r w => (after_iteration s r w, ts)
  | AwExec p w k => let '(r, w') := answer p w in (w', ts ++ [(s, (r, k))])
  end.

Definition with_turns (x : Config) (ts : list turn) : FConfig := mk_fcfg (cw x) (caller x) ts.

Definition turn_cfg (o : option (res pyval * (res pyval -> World -> Aw unit))) (wt : World * list turn) : FConfig :=
  mk_fcfg (fst wt) o (snd wt).

(** The caller's steps as in [istep]; a loop with no turn in flight
    takes an event; a suspended turn resumes; the nursery runs its starts;
    a loop with no turn in flight whose stream was closed ends; a crash
    cancels every suspended coroutine. *)
Inductive fstep : FConfig -> FConfig -> Prop :=
| fstep_call c w ts :
    crashed w = None -> fstep (mk_fcfg w None ts) (with_turns (settle (a_run_call c w)) ts)
| fstep_resume w r k ts :
    crashed w = None -> fstep (mk_fcfg w (Some (r, k)) ts) (with_turns (settle (k r w)) ts)
| fstep_event ev s json ev_obj w o ts :
    crashed w = None -> In (TaskLoop ev s) (tasks w) -> In (s, ev) (streams w) ->
    turn_busy s ts = false -> Schema.decode_before_request_sent json = Ok ev_obj ->
    fstep (mk_fcfg w o ts) (turn_cfg o (settle_turn s (a_listener_iteration ev_obj w) ts))
| fstep_turn s r k w o ts :
    crashed w = None -> In (s, (r, k)) ts ->
    fstep (mk_fcfg w o ts) (turn_cfg o (settle_turn s (k r w) (turn_remove s ts)))
| fstep_run_starts w o ts :
    crashed w = None -> fstep (mk_fcfg w o ts) (mk_fcfg (snd (checkpoint w)) o ts)
| fstep_closed ev s w o ts :
    crashed w = None -> In (TaskLoop ev s) (tasks w) -> ~ In (s, ev) (streams w) ->
    turn_busy s ts = false ->
    fstep (mk_fcfg w o ts) (mk_fcfg (set_tasks (drop_loop s (tasks w)) w) o ts)
| fstep_cancel w o ts e :
    crashed w = Some e -> fstep (mk_fcfg w o ts) (mk_fcfg w None []).

Inductive freach : FConfig -> Prop :=
| freach_init c d : freach (mk_fcfg (init_world c d) None [])
| freach_step x y : freach x -> fstep x y -> freach y.

(** ** A turn, suspended or not, ends where the atomic turn ends *)

Lemma keeps_nc_conn_execute p : keeps NC (conn_execute p).
Proof. intros w r w' H E. destruct (conn_execute_frame _ _ _ _ E) as (_ & _ & Hc & _). unfold NC. congruence. Qed.
#[local] Hint Resolve keeps_nc_conn_execute : keeps_db.

Lemma keeps_nc_handle_loop ids request : keeps NC (handle_loop ids request).
Proof. revert request; induction ids; intros; simpl; keeps_auto. Qed.
#[local] Hint Resolve keeps_nc_handle_loop : keeps_db.

Lemma keeps_nc_listener_iteration ev_obj : keeps NC (listener_iteration ev_obj).
Proof.
  unfold listener_iteration, handle_events, handle_requests, Schema.continue_request, Schema.run_command.
  keeps_auto.
Qed.

(** The world a suspended turn leaves is the world of the atomic turn, and
    its outcome is the atomic turn's. *)
Lemma settle_listener_iteration ev_obj s w ts :
  (settle_turn s (a_listener_iteration ev_obj w) ts =
     (after_iteration s (fst (listener_iteration ev_obj w)) (snd (listener_iteration ev_obj w)), ts))
  \/
  (exists r k, settle_turn s (a_listener_iteration ev_obj w) ts =
                 (snd (listener_iteration ev_obj w), ts ++ [(s, (r, k))]) /\
               one_shot_cont k /\ k r (snd (listener_iteration ev_obj w)) =
                 AwRet (fst (listener_iteration ev_obj w)) (snd (listener_iteration ev_obj w))).
Proof.
  pose proof (arefines_listener_iteration ev_obj w) as E. unfold run in E.
  pose proof (one_shot_listener_iteration ev_obj w) as H1.
  destruct (a_listener_iteration ev_obj w) as [r w'|p w1 k]; simpl in *.
  - left. rewrite <- E. reflexivity.
  - right. destruct (answer p w1) as [r w'] eqn:Ea. destruct (H1 r w') as [r' Hk].
    rewrite Hk in E. simpl in E. rewrite <- E. simpl. exists r, k. auto.
Qed.

End Full.

(** ** The invariant of the full session *)

Section FullInv.
Context `{CH : Channel}.
Implicit Types (w : World) (x : FConfig).

(** Every suspended turn ends at once without touching the world, and no
    loop has two turns in flight. *)
Definition turns_ok (ts : list turn) : Prop :=
  (forall s r k, In (s, (r, k)) ts -> one_shot_cont k) /\ NoDup (map fst ts).

Definition FInv x : Prop := CInv (mk_cfg (fw x) (fcaller x)) /\ turns_ok (fturns x).

Lemma Inv_after_iteration s r w : Inv w -> Inv (after_iteration s r w).
Proof.
  intros H. destruct r as [u|[]]; simpl; try exact H;
    eapply InvX_ext; try exact H; simpl; try reflexivity; apply starts_drop_loop.
Qed.

Lemma Quiet_after_iteration s r w : Quiet w -> Quiet (after_iteration s r w).
Proof. intros [HI Hs]. split; [apply Inv_after_iteration, HI|rewrite starts_after_iteration; exact Hs]. Qed.

(** A change of world that keeps [Inv], and [Quiet] where it held, keeps
    the caller's part of the invariant. *)
Lemma CInv_world w w' o :
  CInv (mk_cfg w o) -> (Inv w -> Inv w') -> (Quiet w -> Quiet w') -> CInv (mk_cfg w' o).
Proof.
  unfold CInv; simpl. destruct o as [[r k]|]; [|auto]. intros [Hq Hk] H1 H2. auto.
Qed.

Lemma CInv_Inv w o : CInv (mk_cfg w o) -> Inv w.
Proof. unfold CInv; simpl. destruct o as [[r k]|]; [intros [[HI _] _]; exact HI|auto]. Qed.

Lemma turn_busy_false s ts : turn_busy s ts = false -> ~ In s (map fst ts).
Proof.
  unfold turn_busy. intros H Hin. apply in_map_iff in Hin as [t [<- Ht]].
  assert (E : existsb (fun t' => Nat.eqb (fst t') (fst t)) ts = true)
    by (apply existsb_exists; exists t; split; [exact Ht|apply Nat.eqb_refl]).
  congruence.
Qed.

Lemma turns_ok_snoc s r k ts :
  turns_ok ts -> turn_busy s ts = false -> one_shot_cont k -> turns_ok (ts ++ [(s, (r, k))]).
Proof.
  intros [H1 H2] Hb Hk. split.
  - intros s' r' k' Hin. apply in_app_iff in Hin as [Hin|[E|[]]]; [eapply H1; eauto|].
    injection E as <- <- <-. exact Hk.
  - rewrite map_app. simpl. apply NoDup_app; [exact H2|constructor; [intros []|constructor]|].
    intros a Ha [<-|[]]. exact (turn_busy_false _ _ Hb Ha).
Qed.

Lemma turns_ok_remove s ts : turns_ok ts -> turns_ok (turn_remove s ts).
Proof.
  intros [H1 H2]. split.
  - intros s' r k Hin. unfold turn_remove in Hin. apply filter_In in Hin as [Hin _]. eapply H1; eauto.
  - apply NoDup_map_filter, H2.
Qed.

Lemma fstep_FInv x y : FInv x -> fstep x y -> FInv y.
Proof.
  intros [Hc Ht] Hs. destruct Hs as [c w ts Hcr|w r k ts Hcr|ev s json ev_obj w o ts Hcr Htl Hss Hb Hd
    |s r k w o ts Hcr Hin|w o ts Hcr|ev s w o ts Hcr Htl Hss Hb|w o ts e Hcr]; simpl in *.
  - split; [exact (istep_CInv _ _ Hc (istep_call c w Hcr))|exact Ht].
  - split; [exact (istep_CInv _ _ Hc (istep_resume w r k Hcr))|exact Ht].
  - assert (HI : Inv w -> Inv (snd (listener_iteration ev_obj w)))
      by (intros HI; eapply preserves_listener_iteration; [exact HI|apply surjective_pairing]).
    assert (HQ : Quiet w -> Quiet (snd (listener_iteration ev_obj w)))
      by (intros HQ; eapply keeps_quiet_listener_iteration; [exact HQ|apply surjective_pairing]).
    destruct (settle_listener_iteration ev_obj s w ts) as [E|(r & k & E & Hk & _)]; rewrite E; split; simpl.
    + apply (CInv_world w _ o Hc); intros H; [apply Inv_after_iteration|apply Quiet_after_iteration]; auto.
    + exact Ht.
    + exact (CInv_world w _ o Hc HI HQ).
    + apply turns_ok_snoc; assumption.
  - destruct ((proj1 Ht) s r k Hin r w) as [r' E]. rewrite E. simpl. split.
    + apply (CInv_world w _ o Hc); [apply Inv_after_iteration|apply Quiet_after_iteration].
    + apply turns_ok_remove, Ht.
  - split; [exact (istep_CInv _ _ Hc (istep_env _ _ o (estep_run_starts w Hcr)))|exact Ht].
  - split; [exact (istep_CInv _ _ Hc (istep_env _ _ o (estep_closed ev s w Hcr Htl Hss)))|exact Ht].
  - split; [exact (CInv_Inv w o Hc)|split; [intros ? ? ? []|constructor]].
Qed.

Lemma freach_FInv x : freach x -> FInv x.
Proof.
  induction 1 as [c d|x y _ IH Hs]; [|eapply fstep_FInv; eauto].
  split; [apply Inv_init|split; [intros ? ? ? []|constructor]].
Qed.

(** ** An executable scheduler *)

Inductive fmove : Type :=
| FCall (c : call)
| FResume
| FEvent (json : pyval)
| FTurn (s : nat)
| FStarts.

Definition fmove_step (mv : fmove) (x : FConfig) : FConfig :=
  let w := fw x in
  let o := fcaller x in
  let ts := fturns x in
  match crashed w with
  | Some _ => mk_fcfg w None []
  | None =>
      match mv, o with
      | FCall c, None => with_turns (settle (a_run_call c w)) ts
      | FResume, Some (r, k) => with_turns (settle (k r w)) ts
      | FEvent json, _ =>
          match live_loop (tasks w) (streams w), Schema.decode_before_request_sent json with
          | Some (_, s), Ok ev_obj =>
              if turn_busy s ts then x else turn_cfg o (settle_turn s (a_listener_iteration ev_obj w) ts)
          | _, _ => x
          end
      | FTurn s, _ =>
          match find (fun t => Nat.eqb (fst t) s) ts with
          | Some (_, (r, k)) => turn_cfg o (settle_turn s (k r w) (turn_remove s ts))
          | None => x
          end
      | FStarts, _ => mk_fcfg (snd (checkpoint w)) o ts
      | _, _ => x
      end
  end.

Definition fschedule (mvs : list fmove) (x : FConfig) : FConfig := fold_left (fun x mv => fmove_step mv x) mvs x.

Lemma fmove_fstep mv x : fmove_step mv x = x \/ fstep x (fmove_step mv x).
Proof.
  destruct x as [w o ts]. unfold fmove_step; simpl.
  destruct (crashed w) as [e|] eqn:Hc; [right; eapply fstep_cancel; eauto|].
  destruct mv as [c| |json|s|]; [destruct o as [[r k]|]|destruct o as [[r k]|]| | |];
    try (left; reflexivity).
  - right. apply fstep_call, Hc.
  - right. apply fstep_resume, Hc.
  - destruct (live_loop _ _) as [[ev s]|] eqn:Hl; [|left; reflexivity].
    destruct (Schema.decode_before_request_sent json) as [ev_obj|e] eqn:Hd; [|left; reflexivity].
    destruct (turn_busy s ts) eqn:Hb; [left; reflexivity|].
    destruct (live_loop_sound _ _ _ _ Hl) as [Ht Hs].
    right. eapply fstep_event; eauto.
  - destruct (find (fun t => Nat.eqb (fst t) s) ts) as [[s' [r k]]|] eqn:Hf; [|left; reflexivity].
    apply find_some in Hf as [Hin Hs]. simpl in Hs. apply Nat.eqb_eq in Hs. subst s'.
    right. apply fstep_turn; assumption.
  - right. apply fstep_run_starts, Hc.
Qed.

Lemma fschedule_freach mvs : forall x, freach x -> freach (fschedule mvs x).
Proof.
  induction mvs as [|mv r IH]; intros x Hx; simpl; [exact Hx|].
  apply IH. destruct (fmove_fstep mv x) as [E|E]; [rewrite E; exact Hx|eapply freach_step; eauto].
Qed.

End FullInv.

(** ** Properties *)

Section Claims.
Context `{CH : Channel}.

(** A turn of the listening loop, written with the await of its
    [continueRequest] and run with nothing in between, is the atomic turn
    [listener_iteration]: same outcome, same world. *)
Lemma listener_turn_equiv ev_obj w : run (a_listener_iteration ev_obj) w = listener_iteration ev_obj w.
Proof. apply arefines_listener_iteration. Qed.

(** C33: with the caller suspended at any await and every listening loop
    suspended at its [continueRequest], in any interleaving, the registry
    invariant of [InterceptsInv] holds in every configuration; no listener
    start is pending while the caller is suspended; no loop has two turns
    in flight (an [async for] handles one event at a time); and what is
    left of a suspended turn ends at once without touching the world. *)
Theorem full_interleaving_invariant x :
  freach x ->
  Inv (fw x) /\ (fcaller x <> None -> starts (tasks (fw x)) = []) /\
  NoDup (map fst (fturns x)) /\ (forall s r k, In (s, (r, k)) (fturns x) -> one_shot_cont k).
Proof.
  intros Hx. destruct (freach_FInv x Hx) as [Hc [Ht Hn]].
  split; [exact (CInv_Inv _ _ Hc)|]. split; [|split; [exact Hn|exact Ht]].
  unfold CInv in Hc; simpl in Hc. destruct (fcaller x) as [[r k]|]; [|intros []; reflexivity].
  intros _. exact (proj2 (proj1 Hc)).
Qed.

(** Every configuration of [Await]'s session, where a turn of a
    listening loop runs to its end at once, is a configuration of the full
    session with no turn in flight: the full session refines it by adding
    only interleavings. *)
Lemma atomic_turns_interleave x : ireach x -> freach (mk_fcfg (cw x) (caller x) []).
Proof.
  induction 1 as [c d|x y _ IH Hs]; [apply freach_init|].
  destruct Hs as [c w Hc|w r k Hc|w r k e Hc|w w' o He]; simpl in *.
  - eapply freach_step; [exact IH|apply fstep_call, Hc].
  - eapply freach_step; [exact IH|apply fstep_resume, Hc].
  - eapply freach_step; [exact IH|eapply fstep_cancel; eauto].
  - destruct He as [w Hc|ev s json ev_obj w r w1 Hc Ht Hss Hd Hl|ev s w Hc Ht Hss].
    + eapply freach_step; [exact IH|apply fstep_run_starts, Hc].
    + assert (Step : fstep (mk_fcfg w o [])
                        (turn_cfg o (settle_turn s (a_listener_iteration ev_obj w) []))) by
        (eapply fstep_event; eauto).
      pose proof (freach_step _ _ IH Step) as Hr.
      destruct (settle_listener_iteration ev_obj s w []) as [E|(r1 & k & E & _ & Hk)];
        rewrite E in Hr; rewrite Hl in *; simpl in *; [exact Hr|].
      replace (mk_fcfg (after_iteration s r w1) o [])
        with (turn_cfg o (settle_turn s (k r1 w1) (turn_remove s [(s, (r1, k))])))
        by (rewrite Hk; simpl; rewrite Nat.eqb_refl; reflexivity).
      eapply freach_step; [exact Hr|]. apply fstep_turn; [|left; reflexivity].
      exact (keeps_nc_listener_iteration ev_obj w r w1 Hc Hl).
    + eapply freach_step; [exact IH|eapply fstep_closed; eauto].
Qed.

End Claims.

(** ** Witnesses, on the reference remote end *)

Section Witnesses.
#[local] Existing Instance RefBrowserChannel.

(** The test's first rule; a blocked request whose turn is suspended on
    its [continueRequest]; meanwhile the caller's [remove_intercept],
    suspended on its [removeIntercept]. *)
Definition both_schedule : list fmove :=
  [FCall (CallAddRequestHandler redirect_handler (url_pattern "u1")); FResume; FResume; FStarts;
   FEvent (blocked "r1" "u1" ["intercept-0"]); FCall (CallRemoveIntercept "intercept-0")].

Definition both_cfg : FConfig := fschedule both_schedule (mk_fcfg wit_w0 None []).

Lemma both_cfg_reachable : freach both_cfg.
Proof. apply fschedule_freach, freach_init. Qed.

Lemma both_cfg_suspended :
  map fst (fturns both_cfg) = [0] /\
  match fcaller both_cfg with Some _ => true | None => false end = true.
Proof. split; vm_compute; reflexivity. Qed.

Lemma full_interleaving_invariant_witness :
  Inv (fw both_cfg) /\ (fcaller both_cfg <> None -> starts (tasks (fw both_cfg)) = []) /\
  NoDup (map fst (fturns both_cfg)) /\
  (forall s r k, In (s, (r, k)) (fturns both_cfg) -> one_shot_cont k).
Proof. apply (full_interleaving_invariant both_cfg). exact both_cfg_reachable. Defined.

End Witnesses.

End Listeners.
